(** * Mobile access setup manager: a shallow embedding and its properties

    The program under study is [MOBILE_ACCESS_SETUP_MANAGER.py]: a scaffolding
    generator that creates a directory tree, writes generated files through a
    write-to-temporary-then-move block, shells out to git and returns a
    completion report.

    The Python code is embedded as functions in a state-and-exception monad
    over a model of the operating system: a directory set, a file store, the
    temporary-file store of [tempfile], a log, and the trace of the system
    operations that were attempted.  The environment (an oracle that makes
    operations fail, the clock, the device table) is part of the state, so
    every definition is executable. *)

From Stdlib Require Import ZArith Ascii String.
From stdpp Require Import gmap strings list fin_maps pretty.

(** ** Python exceptions

    The instances of [Exception] that the modelled operations raise.
    Every [except Exception] clause of the program catches all of them.
    [BaseException]-only signals ([KeyboardInterrupt], [SystemExit]) are
    asynchronous and are not part of the model: they pass every
    [except Exception] clause, so a statement that a method never raises,
    or that a clean-up handler runs, is about instances of [Exception]. *)

Inductive exc : Type :=
  | OSError (errno : string)
  | FileExistsError
  | NotADirectoryError
  | FileNotFoundError
  | ShutilError
  | UnicodeEncodeError
  | KeyError (key : string)
  | CalledProcessError (cmd : list string) (returncode : Z).

(** [except OSError] in [shutil.move]: the subclasses of [OSError]. *)
Definition is_OSError (e : exc) : bool :=
  match e with
  | OSError _ | FileExistsError | NotADirectoryError
  | FileNotFoundError | ShutilError => true
  | UnicodeEncodeError | KeyError _ | CalledProcessError _ _ => false
  end.

(** ** Paths, files and system operations *)

(** A [pathlib.Path] is its list of components, from the root; [p / "core/"]
    appends the component ["core"].  As in [pathlib], a [".."] component is
    kept as it is written: the model does not resolve it against the file
    system, so the names of a directory spec are required not to be [".."]
    where two paths are compared (see [simple_name]). *)
Abbreviation path := (list string).

Definition parent (p : path) : path := removelast p.

(** All non-empty prefixes of a path, shortest first: the directories that
    [mkdir(parents=True)] has to make exist. *)
Fixpoint prefixes_from (pre rest : path) : list path :=
  match rest with
  | [] => []
  | c :: rest' => (pre ++ [c]) :: prefixes_from (pre ++ [c]) rest'
  end.

Definition prefixes (p : path) : list path := prefixes_from [] p.

Record file : Type := File { f_content : string; f_mode : N }.

(** Permission bits, written in octal in the source: 0o600, 0o644, 0o755. *)
Definition mode_600 : N := 384.
Definition mode_644 : N := 420.
Definition mode_755 : N := 493.

(** The operations that reach the operating system.  A temporary file is
    named by the serial number [tempfile] gave it; a write carries the text
    it was handed. *)
Inductive op : Type :=
  | OpMkdir (p : path)
  | OpTempCreate
  | OpTempWrite (n : nat) (s : string)
  | OpTempClose (n : nat)
  | OpRename (n : nat) (dst : path)
  | OpCopy (n : nat) (dst : path)
  | OpUnlinkTemp (n : nat)
  | OpTouch (p : path)
  | OpChmod (p : path)
  | OpRun (args : list string) (cwd : path).

(** An injected failure: the exception raised, and for a write or a copy the
    number of characters that reached the file before it failed. *)
Record fault : Type := Fault { f_exc : exc; f_written : nat }.

(** The environment of a run. *)
Record Env : Type := {
  oracle : nat → op → option fault;
  clock : nat → string;
  tmp_dev : nat;
  dev_of : path → nat
}.

Inductive level : Type := INFO | WARNING | ERROR.

Record World : Type := {
  dirs : gset path;
  files : gmap path file;
  tmpfiles : gmap nat file;
  trace : list op;
  log : list (level * string);
  tick : nat;
  env : Env
}.

Definition set_dirs (d : gset path) (w : World) : World :=
  {| dirs := d; files := files w; tmpfiles := tmpfiles w; trace := trace w;
     log := log w; tick := tick w; env := env w |}.
Definition set_files (f : gmap path file) (w : World) : World :=
  {| dirs := dirs w; files := f; tmpfiles := tmpfiles w; trace := trace w;
     log := log w; tick := tick w; env := env w |}.
Definition set_tmpfiles (t : gmap nat file) (w : World) : World :=
  {| dirs := dirs w; files := files w; tmpfiles := t; trace := trace w;
     log := log w; tick := tick w; env := env w |}.
Definition add_log (l : level) (s : string) (w : World) : World :=
  {| dirs := dirs w; files := files w; tmpfiles := tmpfiles w; trace := trace w;
     log := log w ++ [(l, s)]; tick := tick w; env := env w |}.
Definition step (o : op) (w : World) : World :=
  {| dirs := dirs w; files := files w; tmpfiles := tmpfiles w;
     trace := trace w ++ [o]; log := log w; tick := S (tick w); env := env w |}.
Definition advance (w : World) : World :=
  {| dirs := dirs w; files := files w; tmpfiles := tmpfiles w; trace := trace w;
     log := log w; tick := S (tick w); env := env w |}.

(** ** The monad: state and exceptions *)

Inductive res (A : Type) : Type :=
  | Ok (a : A)
  | Raise (e : exc).
Arguments Ok {A} a.
Arguments Raise {A} e.

Definition M (A : Type) : Type := World → res A * World.

Definition ret {A} (a : A) : M A := fun w => (Ok a, w).
Definition raise {A} (e : exc) : M A := fun w => (Raise e, w).
Definition bind {A B} (m : M A) (k : A → M B) : M B :=
  fun w => match m w with
           | (Ok a, w') => k a w'
           | (Raise e, w') => (Raise e, w')
           end.

(** [try: m  except Exception as e: h e] *)
Definition try_except {A} (m : M A) (h : exc → M A) : M A :=
  fun w => match m w with
           | (Ok a, w') => (Ok a, w')
           | (Raise e, w') => h e w'
           end.

(** [try: m  except OSError: h], other exceptions propagate. *)
Definition try_except_OSError {A} (m : M A) (h : M A) : M A :=
  fun w => match m w with
           | (Ok a, w') => (Ok a, w')
           | (Raise e, w') => if is_OSError e then h w' else (Raise e, w')
           end.

Declare Scope py_scope.
Delimit Scope py_scope with py.
Notation "x <- m ;; k" := (bind m (fun x => k))
  (at level 100, m at next level, right associativity) : py_scope.
Notation "m ;; k" := (bind m (fun _ => k))
  (at level 100, right associativity) : py_scope.
Notation "'TRY' m 'EXCEPT' e => h" := (try_except m (fun e => h))
  (at level 10, m at level 200, e name, h at level 200) : py_scope.
Notation "'TRY' m 'EXCEPT_OSError' => h" := (try_except_OSError m h)
  (at level 10, m at level 200, h at level 200) : py_scope.
Open Scope py_scope.

Definition get {A} (f : World → A) : M A := fun w => (Ok (f w), w).
Definition modify (f : World → World) : M unit := fun w => (Ok tt, f w).
Definition lift {A} (r : res A) : M A := fun w => (r, w).

(** [for x in l: body x] *)
Fixpoint for_each {A} (l : list A) (body : A → M unit) : M unit :=
  match l with
  | [] => ret tt
  | x :: l' => body x ;; for_each l' body
  end.

(** One system operation: it is recorded in the trace, and the oracle says
    whether the environment makes it fail. *)
Definition perform (o : op) : M (option fault) :=
  fun w => (Ok (oracle (env w) (tick w) o), step o w).

Definition attempt (o : op) : M unit :=
  f <- perform o ;;
  match f with
  | Some f => raise (f_exc f)
  | None => ret tt
  end.

(** ** [logging] *)

Definition logger_info (s : string) : M unit := modify (add_log INFO s).
Definition logger_warning (s : string) : M unit := modify (add_log WARNING s).
Definition logger_error (s : string) : M unit := modify (add_log ERROR s).

(** ** [datetime.now().isoformat()] *)

Definition datetime_now_isoformat : M string :=
  fun w => (Ok (clock (env w) (tick w)), advance w).

(** ** [pathlib], [os], [tempfile], [shutil] *)

Definition is_dir (w : World) (p : path) : bool :=
  bool_decide (p = []) || bool_decide (p ∈ dirs w).
Definition is_file (w : World) (p : path) : bool :=
  bool_decide (is_Some (files w !! p)).

(** [os.path.exists(p)] *)
Definition path_exists (w : World) (p : path) : bool := is_dir w p || is_file w p.

(** [Path.mkdir(parents=True, exist_ok=True)]: a no-op on an existing
    directory; an error when the path or one of its parents is a file. *)
Definition mkdir_parents_exist_ok (p : path) : M unit :=
  attempt (OpMkdir p) ;;
  w <- get id ;;
  if is_file w p then raise FileExistsError
  else if existsb (is_file w) (prefixes p) then raise NotADirectoryError
  else modify (fun w => set_dirs (dirs w ∪ list_to_set (prefixes p)) w).

(** The error of a system call that has to reach [p] when the parent of [p]
    is not a directory: [ENOTDIR] when a regular file is on the way to [p],
    [ENOENT] when a component of the way is missing. *)
Definition parent_error (w : World) (p : path) : exc :=
  if existsb (is_file w) (prefixes (parent p)) then NotADirectoryError
  else FileNotFoundError.

(** [tempfile.NamedTemporaryFile(mode='w', encoding='utf-8', delete=False,
    suffix='.tmp')]: no [dir] argument, so the file is created in the default
    temporary directory, under a name that is not in use; mode 0600. *)
Definition NamedTemporaryFile : M nat :=
  attempt OpTempCreate ;;
  n <- get (fun w => fresh (dom (tmpfiles w))) ;;
  modify (fun w => set_tmpfiles (<[n := File "" mode_600]> (tmpfiles w)) w) ;;
  ret n.

Definition append_tmp (n : nat) (s : string) (w : World) : World :=
  set_tmpfiles (alter (fun f => File (f_content f +:+ s) (f_mode f)) n (tmpfiles w)) w.

(** [temp_file.write(s)]: on failure a prefix of [s] may have reached the
    temporary file. *)
Definition temp_write (n : nat) (s : string) : M unit :=
  f <- perform (OpTempWrite n s) ;;
  match f with
  | Some f => modify (append_tmp n (String.substring 0 (f_written f) s)) ;; raise (f_exc f)
  | None => modify (append_tmp n s)
  end.

Definition temp_close (n : nat) : M unit := attempt (OpTempClose n).

(** [os.path.exists(temp_file.name)] *)
Definition os_path_exists_tmp (n : nat) : M bool :=
  get (fun w => bool_decide (is_Some (tmpfiles w !! n))).

(** [os.unlink(temp_file.name)] *)
Definition os_unlink_tmp (n : nat) : M unit :=
  attempt (OpUnlinkTemp n) ;;
  ex <- os_path_exists_tmp n ;;
  if ex then modify (fun w => set_tmpfiles (delete n (tmpfiles w)) w)
  else raise FileNotFoundError.

(** The basename [tempfile] gave to temporary file [n].  [tempfile] draws
    the name at random among those not in use; the model takes the one of
    the serial number.  Where a statement depends on the name being free in
    another directory, that is a hypothesis of the statement. *)
Definition tmp_name (n : nat) : string := "tmp" +:+ pretty n +:+ ".tmp".

(** [os.rename(src, dst)] from a temporary file: it fails across devices and
    when the parent of [dst] is not a directory (missing, or a regular file
    in the way); on success [dst] is replaced in one step. *)
Definition os_rename_tmp (n : nat) (dst : path) : M unit :=
  attempt (OpRename n dst) ;;
  w <- get id ;;
  match tmpfiles w !! n with
  | None => raise FileNotFoundError
  | Some f =>
      if negb (is_dir w (parent dst)) then raise (parent_error w dst)
      else if is_dir w dst then raise (OSError "21")
      else if negb (bool_decide (tmp_dev (env w) = dev_of (env w) dst))
      then raise (OSError "18")
      else modify (fun w => set_tmpfiles (delete n (tmpfiles w))
                              (set_files (<[dst := f]> (files w)) w))
  end.

(** [shutil.copy2(src, dst)] from a temporary file: [dst] is opened for
    writing and the content is copied into it, then the mode. *)
Definition shutil_copy2_tmp (n : nat) (dst : path) : M unit :=
  fl <- perform (OpCopy n dst) ;;
  w <- get id ;;
  match tmpfiles w !! n with
  | None => raise FileNotFoundError
  | Some f =>
      if negb (is_dir w (parent dst)) then raise (parent_error w dst)
      else if is_dir w dst then raise (OSError "21")
      else match fl with
           | Some fl =>
               let mode := default mode_644 (f_mode <$> files w !! dst) in
               let part := String.substring 0 (f_written fl) (f_content f) in
               modify (fun w => set_files (<[dst := File part mode]> (files w)) w) ;;
               raise (f_exc fl)
           | None => modify (fun w => set_files (<[dst := f]> (files w)) w)
           end
  end.

(** [shutil.move(src, dst)] for a temporary file [src]: into [dst] when it
    is a directory; [os.rename], and on [OSError] copy then unlink. *)
Definition shutil_move_tmp (n : nat) (dst : path) : M unit :=
  w <- get id ;;
  real_dst <-
    (if is_dir w dst then
       let real_dst := dst ++ [tmp_name n] in
       if path_exists w real_dst then raise ShutilError
       else ret real_dst
     else ret dst) ;;
  TRY
    os_rename_tmp n real_dst
  EXCEPT_OSError =>
    shutil_copy2_tmp n real_dst ;;
    os_unlink_tmp n.

(** [Path.touch()]: creates an empty file when there is none. *)
Definition touch (p : path) : M unit :=
  attempt (OpTouch p) ;;
  w <- get id ;;
  if negb (is_dir w (parent p)) then raise (parent_error w p)
  else if path_exists w p then ret tt
  else modify (fun w => set_files (<[p := File "" mode_644]> (files w)) w).

(** [os.chmod(p, 0o755)] *)
Definition os_chmod (p : path) (mode : N) : M unit :=
  attempt (OpChmod p) ;;
  w <- get id ;;
  match files w !! p with
  | Some f => modify (fun w => set_files (<[p := File (f_content f) mode]> (files w)) w)
  | None => if is_dir w p then ret tt else raise (parent_error w p)
  end.

(** [subprocess.run(args, cwd=cwd, check=True)]: the exit status is the only
    thing consumed; what git does inside [.git] is not modelled. *)
Definition subprocess_run (args : list string) (cwd : path) : M unit :=
  attempt (OpRun args cwd).

(** ** The atomic-write block

    The source repeats this block at each of its nine writes; the first
    statement of the [try] is [temp_file.write(content)], or
    [json.dump(dashboard_config, temp_file, indent=2)] for the dashboard
    configuration:
<<
    temp_file = tempfile.NamedTemporaryFile(mode='w', encoding='utf-8',
                                            delete=False, suffix='.tmp')
    try:
        temp_file.write(content)
        temp_file.close()
        shutil.move(temp_file.name, target)
    except Exception:
        if os.path.exists(temp_file.name):
            os.unlink(temp_file.name)
        raise
>>
*)
Definition atomic_write_with (target : path) (fill : nat → M unit) : M unit :=
  temp_file <- NamedTemporaryFile ;;
  TRY
    fill temp_file ;;
    temp_close temp_file ;;
    shutil_move_tmp temp_file target
  EXCEPT e =>
    ex <- os_path_exists_tmp temp_file ;;
    (if ex then os_unlink_tmp temp_file else ret tt) ;;
    raise e.

(** The block with [temp_file.write(content)] as its first statement. *)
Definition atomic_write (target : path) (content : string) : M unit :=
  atomic_write_with target (fun temp_file => temp_write temp_file content).

(** ** Strings: [str.title], f-strings, [str] of a configuration value *)

(** The double-quote character. *)
Definition dq : string := String "034"%char EmptyString.

Definition is_lower (c : ascii) : bool :=
  let n := nat_of_ascii c in (97 <=? n)%nat && (n <=? 122)%nat.
Definition is_upper (c : ascii) : bool :=
  let n := nat_of_ascii c in (65 <=? n)%nat && (n <=? 90)%nat.
Definition to_upper (c : ascii) : ascii :=
  if is_lower c then ascii_of_nat (nat_of_ascii c - 32) else c.
Definition to_lower (c : ascii) : ascii :=
  if is_upper c then ascii_of_nat (nat_of_ascii c + 32) else c.

(** [str.title()] on ASCII text: a cased character is upper-cased when it
    starts a run of cased characters and lower-cased inside one. *)
Fixpoint title_from (prev_cased : bool) (s : string) : string :=
  match s with
  | EmptyString => EmptyString
  | String c s' =>
      let cased := is_lower c || is_upper c in
      String (if prev_cased then to_lower c else to_upper c) (title_from cased s')
  end.
Definition title (s : string) : string := title_from false s.

(** The process-wide [CONFIG]: a dictionary of dictionaries whose values are
    integers or strings. *)
Inductive cfgval : Type :=
  | CInt (z : Z)
  | CStr (s : string).

Abbreviation config := (gmap string (gmap string cfgval)).

(** [CONFIG[section][key]] *)
Definition cfg_get (cfg : config) (section key : string) : res cfgval :=
  match cfg !! section with
  | None => Raise (KeyError section)
  | Some d =>
      match d !! key with
      | None => Raise (KeyError key)
      | Some v => Ok v
      end
  end.

(** [str(v)], the conversion an f-string applies. *)
Definition py_str (v : cfgval) : string :=
  match v with
  | CInt z => pretty z
  | CStr s => s
  end.

Definition res_map {A B} (f : A → B) (r : res A) : res B :=
  match r with
  | Ok a => Ok (f a)
  | Raise e => Raise e
  end.

(** An f-string is a sequence of literal pieces and of expressions, which
    are evaluated from left to right; the first one that raises ends the
    evaluation. *)
Inductive seg : Type :=
  | Lit (s : string)
  | Expr (v : res string).

Fixpoint fstring (t : list seg) : res string :=
  match t with
  | [] => Ok ""
  | Lit s :: t' => res_map (String.append s) (fstring t')
  | Expr (Raise e) :: _ => Raise e
  | Expr (Ok v) :: t' => res_map (String.append v) (fstring t')
  end.

(** In a plain (non-f) string the text [{CONFIG["URLS"]["KEY"]}] is not
    evaluated: these are the characters that stay in the string. *)
Definition placeholder (section key : string) : string :=
  "{CONFIG[" +:+ dq +:+ section +:+ dq +:+ "][" +:+ dq +:+ key +:+ dq +:+ "]}".

Definition CONFIG : config :=
  list_to_map
    [ ("PORTS", list_to_map
         [ ("MOBILE_DASHBOARD", CInt 8000);
           ("API_ENDPOINTS", CInt 8001);
           ("MONITORING", CInt 8002);
           ("RESEARCH", CInt 8003);
           ("GITHUB", CInt 8004);
           ("START_PORT", CInt 8000);
           ("END_PORT", CInt 8601);
           ("TOTAL_PORTS", CInt 602) ]);
      ("URLS", list_to_map
         [ ("BASE_LOCALHOST", CStr "http://localhost");
           ("MOBILE_DASHBOARD", CStr "http://localhost:8000");
           ("API_ENDPOINTS", CStr "http://localhost:8001/api/");
           ("MONITORING", CStr "http://localhost:8002/monitor/");
           ("RESEARCH", CStr "http://localhost:8003/research/");
           ("GITHUB", CStr "http://localhost:8004/github/") ]);
      ("GITHUB", list_to_map
         [ ("USERNAME", CStr "worldwidebro");
           ("MAIN_REPO_NAME", CStr "iza-os-ecosystem") ]) ].

(** ** JSON values and [json.dump(obj, f, indent=2)] *)

#[local] Unset Elimination Schemes.
Inductive json : Type :=
  | JBool (b : bool)
  | JInt (z : Z)
  | JStr (s : string)
  | JList (l : list json)
  | JObj (kvs : list (string * json)).
#[local] Set Elimination Schemes.

Definition json_of_cfgval (v : cfgval) : json :=
  match v with
  | CInt z => JInt z
  | CStr s => JStr s
  end.

(** A string of the model is the UTF-8 encoding of the Python string.
    [code_points] decodes it: one code point for each well-formed sequence
    (shortest form, no surrogate, at most U+10FFFF).  A byte that is part of
    no well-formed sequence occurs in the encoding of no Python string; it
    is kept, as the code point U+DC00 + byte, so that the function is
    total. *)
Definition is_continuation (b : N) : bool := ((128 <=? b) && (b <=? 191))%N.

Definition two_bytes (b b1 : N) : bool :=
  ((194 <=? b) && (b <=? 223))%N && is_continuation b1.

Definition three_bytes (b b1 b2 : N) : bool :=
  ((224 <=? b) && (b <=? 239))%N && is_continuation b1 && is_continuation b2
  && (negb (b =? 224)%N || (160 <=? b1)%N)
  && (negb (b =? 237)%N || (b1 <=? 159)%N).

Definition four_bytes (b b1 b2 b3 : N) : bool :=
  ((240 <=? b) && (b <=? 244))%N
  && is_continuation b1 && is_continuation b2 && is_continuation b3
  && (negb (b =? 240)%N || (144 <=? b1)%N)
  && (negb (b =? 244)%N || (b1 <=? 143)%N).

Definition stray (b : N) : N := (56320 + b)%N.

Fixpoint code_points (s : string) : list N :=
  match s with
  | EmptyString => []
  | String a s1 =>
      let b := N_of_ascii a in
      if (b <? 128)%N then b :: code_points s1
      else
        match s1 with
        | EmptyString => [stray b]
        | String a1 s2 =>
            let b1 := N_of_ascii a1 in
            if two_bytes b b1
            then ((b - 192) * 64 + (b1 - 128))%N :: code_points s2
            else
              match s2 with
              | EmptyString => stray b :: code_points s1
              | String a2 s3 =>
                  let b2 := N_of_ascii a2 in
                  if three_bytes b b1 b2
                  then ((b - 224) * 4096 + (b1 - 128) * 64 + (b2 - 128))%N
                       :: code_points s3
                  else
                    match s3 with
                    | EmptyString => stray b :: code_points s1
                    | String a3 s4 =>
                        let b3 := N_of_ascii a3 in
                        if four_bytes b b1 b2 b3
                        then ((b - 240) * 262144 + (b1 - 128) * 4096
                              + (b2 - 128) * 64 + (b3 - 128))%N :: code_points s4
                        else stray b :: code_points s1
                    end
              end
        end
  end.

Definition hex_digit (n : N) : ascii :=
  default "0"%char (String.get (N.to_nat n) "0123456789abcdef").

(** [\uXXXX], four lower-case hexadecimal digits. *)
Definition json_u (n : N) : string :=
  "\u" +:+ String (hex_digit (n / 4096 mod 16))
             (String (hex_digit (n / 256 mod 16))
                (String (hex_digit (n / 16 mod 16))
                   (String (hex_digit (n mod 16)) EmptyString))).

(** The escape of one code point in [json.dump], whose [ensure_ascii] is
    left at its default: the quote, the backslash and the five control
    characters that have a short form; every other character outside the
    printable ASCII range as [\uXXXX], above U+FFFF as a surrogate pair. *)
Definition json_escape_code (n : N) : string :=
  if (n =? 34)%N then "\" +:+ dq
  else if (n =? 92)%N then "\\"
  else if (n =? 8)%N then "\b"
  else if (n =? 12)%N then "\f"
  else if (n =? 10)%N then "\n"
  else if (n =? 13)%N then "\r"
  else if (n =? 9)%N then "\t"
  else if ((32 <=? n) && (n <=? 126))%N then String (ascii_of_N n) EmptyString
  else if (n <? 65536)%N then json_u n
  else json_u (55296 + (n - 65536) / 1024) +:+ json_u (56320 + (n - 65536) mod 1024).

Definition json_escape (s : string) : string :=
  String.concat "" (map json_escape_code (code_points s)).

Definition json_quote (s : string) : string := dq +:+ json_escape s +:+ dq.

Fixpoint spaces (n : nat) : string :=
  match n with
  | O => EmptyString
  | S n' => String " "%char (spaces n')
  end.

Definition newline : string := String "010"%char EmptyString.

(** [json.dumps(v, indent=2)] at nesting depth [d]: one member per line,
    [", "]-free, key and value separated by [": "]. *)
Fixpoint json_dumps_at (d : nat) (v : json) : string :=
  match v with
  | JBool true => "true"
  | JBool false => "false"
  | JInt z => pretty z
  | JStr s => json_quote s
  | JList [] => "[]"
  | JList (x :: l) =>
      "[" +:+ newline +:+ spaces (2 * S d) +:+ json_dumps_at (S d) x
      +:+ (fix items (l : list json) : string :=
             match l with
             | [] => EmptyString
             | y :: l' => "," +:+ newline +:+ spaces (2 * S d)
                          +:+ json_dumps_at (S d) y +:+ items l'
             end) l
      +:+ newline +:+ spaces (2 * d) +:+ "]"
  | JObj [] => "{}"
  | JObj ((k, x) :: kvs) =>
      "{" +:+ newline +:+ spaces (2 * S d) +:+ json_quote k +:+ ": "
      +:+ json_dumps_at (S d) x
      +:+ (fix members (kvs : list (string * json)) : string :=
             match kvs with
             | [] => EmptyString
             | (k', y) :: kvs' => "," +:+ newline +:+ spaces (2 * S d)
                                  +:+ json_quote k' +:+ ": "
                                  +:+ json_dumps_at (S d) y +:+ members kvs'
             end) kvs
      +:+ newline +:+ spaces (2 * d) +:+ "}"
  end.

Definition json_dumps (v : json) : string := json_dumps_at 0 v.

(** [json.dump(obj, temp_file, indent=2)] *)
Definition json_dump (v : json) (n : nat) : M unit := temp_write n (json_dumps v).

(** [d[k]] on a JSON object, and a path of such lookups. *)
Definition json_get (k : string) (v : json) : option json :=
  match v with
  | JObj kvs => snd <$> find (fun kv => bool_decide (fst kv = k)) kvs
  | _ => None
  end.

Fixpoint json_path (ks : list string) (v : json) : option json :=
  match ks with
  | [] => Some v
  | k :: ks' => match json_get k v with
                | Some v' => json_path ks' v'
                | None => None
                end
  end.

(** ** The manager object *)

Record Manager : Type := {
  base_path : path;
  mobile_dir : path;
  github_username : string;
  main_repo_name : string
}.

(** [MobileAccessSetupManager.__init__], the attributes the methods below
    read; [base] is [Path(__file__).parent]. *)
Definition init (cfg : config) (base : path) : res Manager :=
  match cfg_get cfg "GITHUB" "USERNAME", cfg_get cfg "GITHUB" "MAIN_REPO_NAME" with
  | Ok u, Ok r =>
      Ok {| base_path := base;
            mobile_dir := base ++ ["mobile_repositories"];
            github_username := py_str u;
            main_repo_name := py_str r |}
  | Raise e, _ => Raise e
  | _, Raise e => Raise e
  end.

(** [str(p)] for a path. *)
Definition path_str (p : path) : string :=
  String.concat "" (map (fun c => "/" +:+ c) p).

(** ** Templates *)

(** The f-string [readme_content] of [create_recommended_subdirectory_structure]. *)
Definition directory_readme_template (dir_name description : string) : list seg :=
  [ Lit ("# ");
    Expr (Ok (title dir_name));
    Lit ("

");
    Expr (Ok description);
    Lit ("

## Mobile Access

This directory is optimized for mobile access and remote management.

## Quick Start

```bash
# Navigate to this directory
cd ");
    Expr (Ok dir_name);
    Lit ("

# View available files
ls -la
```

## Mobile Optimization

- Compressed file formats
- Optimized for mobile viewing
- Remote access enabled
- Mobile-friendly documentation
") ].

(** The f-string [readme_content] of [create_mobile_readme]. *)
Definition readme_template (self : Manager) (cfg : config) : list seg :=
  [ Lit ("# IZA OS Ecosystem - Mobile Access

**Autonomous Venture Studio - $724M+ Ecosystem**

## 🚀 Quick Start (Mobile)

### Prerequisites
- Python 3.9+
- Git
- Mobile device with internet access

### Installation

```bash
# Clone the repository
git clone https://github.com/");
    Expr (Ok (github_username self));
    Lit ("/");
    Expr (Ok (main_repo_name self));
    Lit (".git
cd ");
    Expr (Ok (main_repo_name self));
    Lit ("

# Install dependencies
pip install -r requirements.txt

# Run mobile setup
chmod +x mobile_setup.sh
./mobile_setup.sh
```

### Mobile Access

The ecosystem is optimized for mobile access with the following features:

- **Mobile Dashboard**: ");
    Expr (res_map py_str (cfg_get cfg "URLS" "MOBILE_DASHBOARD"));
    Lit (" (Mobile Optimized)
- **API Endpoints**: ");
    Expr (res_map py_str (cfg_get cfg "URLS" "API_ENDPOINTS"));
    Lit ("
- **Monitoring**: ");
    Expr (res_map py_str (cfg_get cfg "URLS" "MONITORING"));
    Lit ("
- **Research**: ");
    Expr (res_map py_str (cfg_get cfg "URLS" "RESEARCH"));
    Lit ("
- **GitHub Integration**: ");
    Expr (res_map py_str (cfg_get cfg "URLS" "GITHUB"));
    Lit ("

### Ecosystem Overview

- **Total Entities**: 730+
- **Business Value**: $724M+
- **Automation Level**: 95%
- **Revenue Potential**: $300M ARR
- **Mobile Optimized**: ✅

### Key Components

#### Core Systems
- **IZA OS Components**: 7 core components ($16.8M value)
- **Business Entities**: 382 businesses ($221.3M value)
- **Frontend Entities**: 26 mobile-optimized projects
- **Repository Entities**: 204 repositories ($15.4M value)

#### Integrations
- **MCP Servers**: Apple Notes, Obsidian, Jupyter
- **Research Processing**: 25 papers ($28M enhancement)
- **GitHub Integration**: 530 repositories across 5 accounts
- **Docker Containers**: 730 containers with port allocations

#### Mobile Features
- **Responsive Design**: All dashboards mobile-optimized
- **Touch-Friendly**: Mobile-first interface design
- **Offline Support**: Core functionality available offline
- **Push Notifications**: Real-time alerts and updates
- **Mobile API**: RESTful API optimized for mobile clients

### Quick Commands

```bash
# Start mobile-optimized server
python mobile_server.py

# Check system status
python check_status.py

# View mobile dashboard
open ");
    Expr (res_map py_str (cfg_get cfg "URLS" "MOBILE_DASHBOARD"));
    Lit ("

# Access mobile API
curl ");
    Expr (res_map py_str (cfg_get cfg "URLS" "API_ENDPOINTS"));
    Lit ("status
```

### Mobile Dashboard Access

The mobile dashboard provides:

- **Real-time Monitoring**: System health and performance
- **Entity Management**: Manage all 730+ entities
- **Revenue Tracking**: Monitor $300M ARR potential
- **Research Insights**: Access processed research data
- **GitHub Integration**: Repository management
- **MCP Services**: Apple Notes, Obsidian, Jupyter access

### Support

For mobile access support:
- **Documentation**: See `docs/` directory
- **Mobile Guide**: See `mobile/` directory
- **API Reference**: See `api/` directory

### License

Autonomous Venture Studio - All Rights Reserved

---

**Mobile Access Enabled** ✅  
**Ecosystem Value**: $724M+  
**Automation Level**: 95%  
**Mobile Optimized**: Yes
") ].

(** [requirements_content], a plain string. *)
Definition requirements_content : string :=
  "# Mobile-Optimized Requirements
# Autonomous Venture Studio - Mobile Access

# Core Framework
flask==2.3.3
gunicorn==21.2.0

# Database & Caching
redis==4.6.0
sqlalchemy==2.0.21

# Task Queue
celery==5.3.1

# HTTP & API
requests==2.31.0
flask-cors==4.0.0
flask-restful==0.3.10

# Configuration
python-dotenv==1.0.0
pyyaml==6.0.1

# Monitoring & Logging
psutil==5.9.6
loguru==0.7.2

# Mobile Optimization
flask-compress==1.13
flask-caching==2.1.0

# Data Processing
pandas==2.1.1
numpy==1.24.3

# Security
cryptography==41.0.4
flask-jwt-extended==4.5.2

# Development
pytest==7.4.2
black==23.7.0
flake8==6.0.0

# Mobile-Specific
flask-mobile==0.1.0
user-agents==2.2.0
".

(** [mobile_docs_content]: a plain string, not an f-string, so the
    brace expressions in it are text. *)
Definition mobile_docs_content : string :=
  "# Mobile Setup Documentation

## Mobile Access Setup

This document provides instructions for setting up mobile access to the Autonomous Venture Studio ecosystem.

### Prerequisites

1. **Python 3.9+** installed
2. **Git** installed
3. **Mobile device** with internet access
4. **GitHub account** access

### Installation Steps

1. **Clone Repository**
   ```bash
   git clone https://github.com/worldwidebro/iza-os-ecosystem.git
   cd iza-os-ecosystem
   ```

2. **Install Dependencies**
   ```bash
   pip install -r requirements.txt
   ```

3. **Run Mobile Setup**
   ```bash
   chmod +x mobile_setup.sh
   ./mobile_setup.sh
   ```

4. **Start Mobile Server**
   ```bash
   python mobile_server.py
   ```

### Mobile Access Points

- **Main Dashboard**: "
  +:+ placeholder "URLS" "MOBILE_DASHBOARD"
  +:+ "
- **API Endpoints**: "
  +:+ placeholder "URLS" "API_ENDPOINTS"
  +:+ "
- **Monitoring**: "
  +:+ placeholder "URLS" "MONITORING"
  +:+ "
- **Research**: "
  +:+ placeholder "URLS" "RESEARCH"
  +:+ "
- **GitHub**: "
  +:+ placeholder "URLS" "GITHUB"
  +:+ "

### Mobile Features

- Responsive design for all screen sizes
- Touch-friendly interface
- Offline functionality
- Push notifications
- Mobile-optimized API

### Troubleshooting

See `docs/troubleshooting.md` for common issues and solutions.

### Support

For mobile access support, contact the development team.
".

(** [setup_script_content]: a plain string, not an f-string. *)
Definition setup_script_content : string :=
  "#!/bin/bash
# Mobile Setup Script for Autonomous Venture Studio
# IZA OS Ecosystem - Mobile Access

echo " +:+ dq +:+ "🚀 Setting up mobile access for Autonomous Venture Studio..." +:+ dq +:+ "
echo " +:+ dq +:+ "============================================================" +:+ dq +:+ "

# Check Python version
python_version=$(python3 --version 2>&1)
echo " +:+ dq +:+ "Python version: $python_version" +:+ dq +:+ "

# Install dependencies
echo " +:+ dq +:+ "📦 Installing dependencies..." +:+ dq +:+ "
pip install -r requirements.txt

# Set up environment
echo " +:+ dq +:+ "🔧 Setting up environment..." +:+ dq +:+ "
export FLASK_ENV=production
export MOBILE_OPTIMIZATION=true
export ECOSYSTEM_MODE=mobile

# Create necessary directories
echo " +:+ dq +:+ "📁 Creating directories..." +:+ dq +:+ "
mkdir -p logs
mkdir -p data
mkdir -p config
mkdir -p mobile/cache

# Set permissions
echo " +:+ dq +:+ "🔐 Setting permissions..." +:+ dq +:+ "
chmod +x scripts/*.py
chmod +x mobile/*.py

# Initialize mobile configuration
echo " +:+ dq +:+ "⚙️ Initializing mobile configuration..." +:+ dq +:+ "
python scripts/init_mobile_config.py

# Start mobile-optimized server
echo " +:+ dq +:+ "🌐 Starting mobile-optimized server..." +:+ dq +:+ "
echo " +:+ dq +:+ "Mobile Dashboard: "
  +:+ placeholder "URLS" "MOBILE_DASHBOARD"
  +:+ dq +:+ "
echo " +:+ dq +:+ "API Endpoints: "
  +:+ placeholder "URLS" "API_ENDPOINTS"
  +:+ dq +:+ "
echo " +:+ dq +:+ "Monitoring: "
  +:+ placeholder "URLS" "MONITORING"
  +:+ dq +:+ "
echo " +:+ dq +:+ "Research: "
  +:+ placeholder "URLS" "RESEARCH"
  +:+ dq +:+ "
echo " +:+ dq +:+ "GitHub: "
  +:+ placeholder "URLS" "GITHUB"
  +:+ dq +:+ "
echo " +:+ dq +:+ dq +:+ "
echo " +:+ dq +:+ "✅ Mobile access setup complete!" +:+ dq +:+ "
echo " +:+ dq +:+ "📱 Open http://localhost:8000 in your mobile browser" +:+ dq +:+ "
echo " +:+ dq +:+ dq +:+ "
echo " +:+ dq +:+ "Press Ctrl+C to stop the server" +:+ dq +:+ "

# Start the mobile server
python mobile_server.py
".

(** [mobile_server_content]: a plain string, not an f-string. *)
Definition mobile_server_content : string :=
  "#!/usr/bin/env python3
" +:+ dq +:+ dq +:+ dq +:+ "
Mobile Server for Autonomous Venture Studio
IZA OS Ecosystem - Mobile Access
" +:+ dq +:+ dq +:+ dq +:+ "

import os
import sys
from flask import Flask, render_template, jsonify, request
from flask_cors import CORS
from flask_compress import Compress
import json
from datetime import datetime

app = Flask(__name__)
CORS(app)
Compress(app)

# Mobile optimization
app.config['COMPRESS_MIMETYPES'] = [
    'text/html', 'text/css', 'text/xml', 'application/json',
    'application/javascript', 'text/javascript'
]

@app.route('/')
def mobile_dashboard():
    " +:+ dq +:+ dq +:+ dq +:+ "Mobile-optimized dashboard." +:+ dq +:+ dq +:+ dq +:+ "
    return render_template('mobile_dashboard.html')

@app.route('/api/status')
def api_status():
    " +:+ dq +:+ dq +:+ dq +:+ "API status endpoint." +:+ dq +:+ dq +:+ dq +:+ "
    return jsonify({
        'status': 'active',
        'mobile_optimized': True,
        'ecosystem_value': 724000000,
        'total_entities': 730,
        'automation_level': 95.0,
        'timestamp': datetime.now().isoformat()
    })

@app.route('/api/entities')
def api_entities():
    " +:+ dq +:+ dq +:+ dq +:+ "Get all entities." +:+ dq +:+ dq +:+ dq +:+ "
    return jsonify({
        'business_entities': 382,
        'frontend_entities': 26,
        'repository_entities': 204,
        'mcp_servers': 5,
        'total': 730
    })

@app.route('/api/health')
def api_health():
    " +:+ dq +:+ dq +:+ dq +:+ "Health check endpoint." +:+ dq +:+ dq +:+ dq +:+ "
    return jsonify({
        'health': 'excellent',
        'uptime': '100%',
        'mobile_ready': True
    })

if __name__ == '__main__':
    print(" +:+ dq +:+ "🌐 Starting Mobile Server for Autonomous Venture Studio" +:+ dq +:+ ")
    print(" +:+ dq +:+ "📱 Mobile Dashboard: "
  +:+ placeholder "URLS" "MOBILE_DASHBOARD"
  +:+ dq +:+ ")
    print(" +:+ dq +:+ "🔗 API Endpoints: "
  +:+ placeholder "URLS" "API_ENDPOINTS"
  +:+ dq +:+ ")
    print(" +:+ dq +:+ "📊 Monitoring: "
  +:+ placeholder "URLS" "MONITORING"
  +:+ dq +:+ ")
    print(" +:+ dq +:+ "🔬 Research: "
  +:+ placeholder "URLS" "RESEARCH"
  +:+ dq +:+ ")
    print(" +:+ dq +:+ "📚 GitHub: "
  +:+ placeholder "URLS" "GITHUB"
  +:+ dq +:+ ")
    print(" +:+ dq +:+ dq +:+ ")
    print(" +:+ dq +:+ "✅ Mobile access ready!" +:+ dq +:+ ")
    
    app.run(host='0.0.0.0', port=CONFIG[" +:+ dq +:+ "PORTS" +:+ dq +:+ "][" +:+ dq +:+ "MOBILE_DASHBOARD" +:+ dq +:+ "], debug=False)
".

(** [dashboard_template], a plain string. *)
Definition dashboard_template : string :=
  "<!DOCTYPE html>
<html lang=" +:+ dq +:+ "en" +:+ dq +:+ ">
<head>
    <meta charset=" +:+ dq +:+ "UTF-8" +:+ dq +:+ ">
    <meta name=" +:+ dq +:+ "viewport" +:+ dq +:+ " content=" +:+ dq +:+ "width=device-width, initial-scale=1.0" +:+ dq +:+ ">
    <title>IZA OS Ecosystem - Mobile Dashboard</title>
    <style>
        body {
            font-family: -apple-system, BlinkMacSystemFont, 'Segoe UI', Roboto, sans-serif;
            margin: 0;
            padding: 20px;
            background: linear-gradient(135deg, #667eea 0%, #764ba2 100%);
            color: white;
            min-height: 100vh;
        }
        .container {
            max-width: 100%;
            margin: 0 auto;
        }
        .header {
            text-align: center;
            margin-bottom: 30px;
        }
        .stats-grid {
            display: grid;
            grid-template-columns: repeat(auto-fit, minmax(150px, 1fr));
            gap: 15px;
            margin-bottom: 30px;
        }
        .stat-card {
            background: rgba(255, 255, 255, 0.1);
            padding: 20px;
            border-radius: 10px;
            text-align: center;
            backdrop-filter: blur(10px);
        }
        .stat-value {
            font-size: 24px;
            font-weight: bold;
            margin-bottom: 5px;
        }
        .stat-label {
            font-size: 14px;
            opacity: 0.8;
        }
        .quick-actions {
            display: grid;
            grid-template-columns: repeat(auto-fit, minmax(120px, 1fr));
            gap: 15px;
            margin-bottom: 30px;
        }
        .action-btn {
            background: rgba(255, 255, 255, 0.2);
            border: none;
            padding: 15px;
            border-radius: 10px;
            color: white;
            font-size: 14px;
            cursor: pointer;
            transition: background 0.3s;
        }
        .action-btn:hover {
            background: rgba(255, 255, 255, 0.3);
        }
        .status-indicator {
            display: inline-block;
            width: 10px;
            height: 10px;
            border-radius: 50%;
            margin-right: 8px;
        }
        .status-healthy { background: #4CAF50; }
        .status-warning { background: #FF9800; }
        .status-critical { background: #F44336; }
    </style>
</head>
<body>
    <div class=" +:+ dq +:+ "container" +:+ dq +:+ ">
        <div class=" +:+ dq +:+ "header" +:+ dq +:+ ">
            <h1>🚀 IZA OS Ecosystem</h1>
            <p>Autonomous Venture Studio - Mobile Dashboard</p>
            <p><span class=" +:+ dq +:+ "status-indicator status-healthy" +:+ dq +:+ "></span>System Status: Active</p>
        </div>
        
        <div class=" +:+ dq +:+ "stats-grid" +:+ dq +:+ ">
            <div class=" +:+ dq +:+ "stat-card" +:+ dq +:+ ">
                <div class=" +:+ dq +:+ "stat-value" +:+ dq +:+ ">$724M+</div>
                <div class=" +:+ dq +:+ "stat-label" +:+ dq +:+ ">Ecosystem Value</div>
            </div>
            <div class=" +:+ dq +:+ "stat-card" +:+ dq +:+ ">
                <div class=" +:+ dq +:+ "stat-value" +:+ dq +:+ ">730+</div>
                <div class=" +:+ dq +:+ "stat-label" +:+ dq +:+ ">Total Entities</div>
            </div>
            <div class=" +:+ dq +:+ "stat-card" +:+ dq +:+ ">
                <div class=" +:+ dq +:+ "stat-value" +:+ dq +:+ ">95%</div>
                <div class=" +:+ dq +:+ "stat-label" +:+ dq +:+ ">Automation</div>
            </div>
            <div class=" +:+ dq +:+ "stat-card" +:+ dq +:+ ">
                <div class=" +:+ dq +:+ "stat-value" +:+ dq +:+ ">$300M</div>
                <div class=" +:+ dq +:+ "stat-label" +:+ dq +:+ ">ARR Potential</div>
            </div>
        </div>
        
        <div class=" +:+ dq +:+ "quick-actions" +:+ dq +:+ ">
            <button class=" +:+ dq +:+ "action-btn" +:+ dq +:+ " onclick=" +:+ dq +:+ "window.open('/api/status', '_blank')" +:+ dq +:+ ">📊 Status</button>
            <button class=" +:+ dq +:+ "action-btn" +:+ dq +:+ " onclick=" +:+ dq +:+ "window.open('/api/entities', '_blank')" +:+ dq +:+ ">🏢 Entities</button>
            <button class=" +:+ dq +:+ "action-btn" +:+ dq +:+ " onclick=" +:+ dq +:+ "window.open('/api/health', '_blank')" +:+ dq +:+ ">❤️ Health</button>
            <button class=" +:+ dq +:+ "action-btn" +:+ dq +:+ " onclick=" +:+ dq +:+ "window.open('"
  +:+ placeholder "URLS" "API_ENDPOINTS"
  +:+ "', '_blank')" +:+ dq +:+ ">🔗 API</button>
            <button class=" +:+ dq +:+ "action-btn" +:+ dq +:+ " onclick=" +:+ dq +:+ "window.open('"
  +:+ placeholder "URLS" "MONITORING"
  +:+ "', '_blank')" +:+ dq +:+ ">📈 Monitor</button>
            <button class=" +:+ dq +:+ "action-btn" +:+ dq +:+ " onclick=" +:+ dq +:+ "window.open('"
  +:+ placeholder "URLS" "RESEARCH"
  +:+ "', '_blank')" +:+ dq +:+ ">🔬 Research</button>
            <button class=" +:+ dq +:+ "action-btn" +:+ dq +:+ " onclick=" +:+ dq +:+ "window.open('"
  +:+ placeholder "URLS" "GITHUB"
  +:+ "', '_blank')" +:+ dq +:+ ">📚 GitHub</button>
        </div>
        
        <div class=" +:+ dq +:+ "header" +:+ dq +:+ ">
            <h3>📱 Mobile Access Ready</h3>
            <p>All systems optimized for mobile access</p>
        </div>
    </div>
    
    <script>
        // Auto-refresh status every 30 seconds
        setInterval(async () => {
            try {
                const response = await fetch('/api/status');
                const data = await response.json();
                console.log('Status updated:', data);
            } catch (error) {
                console.error('Status check failed:', error);
            }
        }, 30000);
    </script>
</body>
</html>".

(** The f-string [instructions] of [generate_mobile_setup_instructions]. *)
Definition instructions_template (self : Manager) (cfg : config) : list seg :=
  [ Lit ("# Mobile Access Setup Instructions

## Autonomous Venture Studio - IZA OS Ecosystem

### Quick Setup (Mobile)

1. **Clone Repository**
   ```bash
   git clone https://github.com/");
    Expr (Ok (github_username self));
    Lit ("/");
    Expr (Ok (main_repo_name self));
    Lit (".git
   cd ");
    Expr (Ok (main_repo_name self));
    Lit ("
   ```

2. **Install Dependencies**
   ```bash
   pip install -r requirements.txt
   ```

3. **Run Mobile Setup**
   ```bash
   chmod +x mobile_setup.sh
   ./mobile_setup.sh
   ```

4. **Access Mobile Dashboard**
   - Open http://localhost:8000 in your mobile browser
   - All features optimized for mobile access

### Mobile Access Points

- **Main Dashboard**: ");
    Expr (res_map py_str (cfg_get cfg "URLS" "MOBILE_DASHBOARD"));
    Lit ("
- **API Endpoints**: ");
    Expr (res_map py_str (cfg_get cfg "URLS" "API_ENDPOINTS"));
    Lit ("
- **Monitoring**: ");
    Expr (res_map py_str (cfg_get cfg "URLS" "MONITORING"));
    Lit ("
- **Research**: ");
    Expr (res_map py_str (cfg_get cfg "URLS" "RESEARCH"));
    Lit ("
- **GitHub Integration**: ");
    Expr (res_map py_str (cfg_get cfg "URLS" "GITHUB"));
    Lit ("

### Mobile Features

✅ Responsive design for all screen sizes  
✅ Touch-friendly interface  
✅ Offline functionality  
✅ Push notifications  
✅ Mobile-optimized API  
✅ Compressed data transfer  
✅ Mobile caching  

### Ecosystem Overview

- **Total Value**: $724M+
- **Entities**: 730+
- **Automation**: 95%
- **Revenue Potential**: $300M ARR
- **Mobile Ready**: ✅

### Support

For mobile access support, see `docs/mobile_setup.md`

---
**Mobile Access Enabled** ✅
") ].

(** ** The methods of [MobileAccessSetupManager] *)

(** [os.strerror]: the messages of the C library for the error numbers. *)
Definition strerror_table : list (string * string) :=
  [ ("1", "Operation not permitted"); ("2", "No such file or directory");
    ("3", "No such process"); ("4", "Interrupted system call");
    ("5", "Input/output error"); ("6", "No such device or address");
    ("7", "Argument list too long"); ("8", "Exec format error");
    ("9", "Bad file descriptor"); ("10", "No child processes");
    ("11", "Resource temporarily unavailable"); ("12", "Cannot allocate memory");
    ("13", "Permission denied"); ("14", "Bad address");
    ("15", "Block device required"); ("16", "Device or resource busy");
    ("17", "File exists"); ("18", "Invalid cross-device link");
    ("19", "No such device"); ("20", "Not a directory"); ("21", "Is a directory");
    ("22", "Invalid argument"); ("23", "Too many open files in system");
    ("24", "Too many open files"); ("25", "Inappropriate ioctl for device");
    ("26", "Text file busy"); ("27", "File too large");
    ("28", "No space left on device"); ("29", "Illegal seek");
    ("30", "Read-only file system"); ("31", "Too many links"); ("32", "Broken pipe");
    ("33", "Numerical argument out of domain");
    ("34", "Numerical result out of range"); ("35", "Resource deadlock avoided");
    ("36", "File name too long"); ("37", "No locks available");
    ("38", "Function not implemented"); ("39", "Directory not empty");
    ("40", "Too many levels of symbolic links"); ("42", "No message of desired type");
    ("43", "Identifier removed"); ("44", "Channel number out of range");
    ("45", "Level 2 not synchronized"); ("46", "Level 3 halted");
    ("47", "Level 3 reset"); ("48", "Link number out of range");
    ("49", "Protocol driver not attached"); ("50", "No CSI structure available");
    ("51", "Level 2 halted"); ("52", "Invalid exchange");
    ("53", "Invalid request descriptor"); ("54", "Exchange full"); ("55", "No anode");
    ("56", "Invalid request code"); ("57", "Invalid slot");
    ("59", "Bad font file format"); ("60", "Device not a stream");
    ("61", "No data available"); ("62", "Timer expired");
    ("63", "Out of streams resources"); ("64", "Machine is not on the network");
    ("65", "Package not installed"); ("66", "Object is remote");
    ("67", "Link has been severed"); ("68", "Advertise error");
    ("69", "Srmount error"); ("70", "Communication error on send");
    ("71", "Protocol error"); ("72", "Multihop attempted");
    ("73", "RFS specific error"); ("74", "Bad message");
    ("75", "Value too large for defined data type");
    ("76", "Name not unique on network"); ("77", "File descriptor in bad state");
    ("78", "Remote address changed"); ("79", "Can not access a needed shared library");
    ("80", "Accessing a corrupted shared library");
    ("81", ".lib section in a.out corrupted");
    ("82", "Attempting to link in too many shared libraries");
    ("83", "Cannot exec a shared library directly");
    ("84", "Invalid or incomplete multibyte or wide character");
    ("85", "Interrupted system call should be restarted");
    ("86", "Streams pipe error"); ("87", "Too many users");
    ("88", "Socket operation on non-socket"); ("89", "Destination address required");
    ("90", "Message too long"); ("91", "Protocol wrong type for socket");
    ("92", "Protocol not available"); ("93", "Protocol not supported");
    ("94", "Socket type not supported"); ("95", "Operation not supported");
    ("96", "Protocol family not supported");
    ("97", "Address family not supported by protocol");
    ("98", "Address already in use"); ("99", "Cannot assign requested address");
    ("100", "Network is down"); ("101", "Network is unreachable");
    ("102", "Network dropped connection on reset");
    ("103", "Software caused connection abort"); ("104", "Connection reset by peer");
    ("105", "No buffer space available");
    ("106", "Transport endpoint is already connected");
    ("107", "Transport endpoint is not connected");
    ("108", "Cannot send after transport endpoint shutdown");
    ("109", "Too many references: cannot splice"); ("110", "Connection timed out");
    ("111", "Connection refused"); ("112", "Host is down");
    ("113", "No route to host"); ("114", "Operation already in progress");
    ("115", "Operation now in progress"); ("116", "Stale file handle");
    ("117", "Structure needs cleaning"); ("118", "Not a XENIX named type file");
    ("119", "No XENIX semaphores available"); ("120", "Is a named type file");
    ("121", "Remote I/O error"); ("122", "Disk quota exceeded");
    ("123", "No medium found"); ("124", "Wrong medium type");
    ("125", "Operation canceled"); ("126", "Required key not available");
    ("127", "Key has expired"); ("128", "Key has been revoked");
    ("129", "Key was rejected by service"); ("130", "Owner died");
    ("131", "State not recoverable"); ("132", "Operation not possible due to RF-kill");
    ("133", "Memory page has hardware error") ].

Definition strerror (errno : string) : string :=
  match find (fun kv => bool_decide (kv.1 = errno)) strerror_table with
  | Some kv => kv.2
  | None => "Unknown error " +:+ errno
  end.

(** The members of [signal.Signals]. *)
Definition signal_table : list (nat * string) :=
  [ (1, "SIGHUP"); (2, "SIGINT"); (3, "SIGQUIT"); (4, "SIGILL"); (5, "SIGTRAP");
    (6, "SIGABRT"); (7, "SIGBUS"); (8, "SIGFPE"); (9, "SIGKILL"); (10, "SIGUSR1");
    (11, "SIGSEGV"); (12, "SIGUSR2"); (13, "SIGPIPE"); (14, "SIGALRM");
    (15, "SIGTERM"); (16, "SIGSTKFLT"); (17, "SIGCHLD"); (18, "SIGCONT");
    (19, "SIGSTOP"); (20, "SIGTSTP"); (21, "SIGTTIN"); (22, "SIGTTOU"); (23, "SIGURG");
    (24, "SIGXCPU"); (25, "SIGXFSZ"); (26, "SIGVTALRM"); (27, "SIGPROF");
    (28, "SIGWINCH"); (29, "SIGIO"); (30, "SIGPWR"); (31, "SIGSYS"); (34, "SIGRTMIN");
    (64, "SIGRTMAX") ].

(** [repr(s)] of a string: in single quotes, or in double quotes when the
    text has a single quote and no double quote; the backslash, the quote
    in use and the control characters are escaped.  Characters beyond
    ASCII are kept as they are, which is what [repr] does with the
    printable ones. *)
Definition has_char (c : ascii) (s : string) : bool :=
  existsb (fun a => bool_decide (a = c)) (list_ascii_of_string s).

Definition hex2 (n : N) : string :=
  String (hex_digit (n / 16 mod 16)) (String (hex_digit (n mod 16)) EmptyString).

Definition py_repr_char (q a : ascii) : string :=
  let n := N_of_ascii a in
  if bool_decide (a = q) || (n =? 92)%N then String "\"%char (String a EmptyString)
  else if (n =? 9)%N then "\t"
  else if (n =? 10)%N then "\n"
  else if (n =? 13)%N then "\r"
  else if ((n <? 32) || (n =? 127))%N then "\x" +:+ hex2 n
  else String a EmptyString.

Definition py_repr (s : string) : string :=
  let q := if has_char "'"%char s && negb (has_char "034"%char s)
           then "034"%char else "'"%char in
  String q (String.concat "" (map (py_repr_char q) (list_ascii_of_string s)))
  +:+ String q EmptyString.

(** [repr] of a list of strings. *)
Definition py_repr_list (l : list string) : string :=
  "[" +:+ String.concat ", " (map py_repr l) +:+ "]".

(** [str(e)], as it appears in a log message.  For the errors of a
    file-system call Python appends the path the call was given
    ([: '/srv/x']); the exceptions of the model do not carry it, and the
    message is the one without it.  The statements below use [exc_str e]
    as the name of the message and do not depend on its text. *)
Definition exc_str (e : exc) : string :=
  match e with
  | OSError errno => "[Errno " +:+ errno +:+ "] " +:+ strerror errno
  | FileExistsError => "[Errno 17] File exists"
  | NotADirectoryError => "[Errno 20] Not a directory"
  | FileNotFoundError => "[Errno 2] No such file or directory"
  | ShutilError => "Destination path already exists"
  | UnicodeEncodeError => "'utf-8' codec can't encode characters"
  | KeyError k => py_repr k
  | CalledProcessError cmd code =>
      if (code <? 0)%Z then
        match find (fun kv => bool_decide (Z.of_nat kv.1 = (- code)%Z)) signal_table with
        | Some kv => "Command '" +:+ py_repr_list cmd +:+ "' died with <Signals."
                     +:+ kv.2 +:+ ": " +:+ pretty (- code)%Z +:+ ">."
        | None => "Command '" +:+ py_repr_list cmd +:+ "' died with unknown signal "
                  +:+ pretty (- code)%Z +:+ "."
        end
      else "Command '" +:+ py_repr_list cmd +:+ "' returned non-zero exit status "
           +:+ pretty code +:+ "."
  end.

(** The components of a path string, as [pathlib] parses it: the pieces
    between the slashes, without the empty ones and without ["."];
    [repo_path / "core/"] is [repo_path ++ ["core"]], and [repo_path / "."]
    is [repo_path]. *)
Definition component (cur : string) : list string :=
  if bool_decide (cur = "") || bool_decide (cur = ".") then [] else [cur].

Fixpoint components_from (cur : string) (s : string) : list string :=
  match s with
  | EmptyString => component cur
  | String c s' =>
      if bool_decide (c = "/"%char)
      then component cur ++ components_from "" s'
      else components_from (cur +:+ String c EmptyString) s'
  end.
Definition components (s : string) : list string := components_from "" s.

(** [p / s]: an absolute [s] replaces [p]. *)
Definition path_div (p : path) (s : string) : path :=
  match s with
  | String "/"%char _ => components s
  | _ => p ++ components s
  end.
Infix "//" := path_div (at level 40, left associativity) : py_scope.

(** The dictionary [subdirectories], in its insertion order. *)
Definition subdirectories : list (string * string) :=
  [ ("core/", "Core autonomous venture studio components");
    ("businesses/", "Business entity implementations and configurations");
    ("integrations/", "External system integrations and APIs");
    ("dashboards/", "Monitoring and control dashboards");
    ("research/", "Research processing components and data");
    ("mobile/", "Mobile-specific optimizations and configurations");
    ("api/", "REST API endpoints and services");
    ("docs/", "Documentation and setup guides");
    ("scripts/", "Automation and deployment scripts");
    ("config/", "Configuration files and settings");
    ("data/", "Data storage and processing");
    ("logs/", "System logs and monitoring data") ].

(** The body of the loop of [create_recommended_subdirectory_structure]. *)
Definition expand_entry (repo_path : path) (entry : string * string) : M unit :=
  let '(dir_name, description) := entry in
  let dir_path := repo_path // dir_name in
  mkdir_parents_exist_ok dir_path ;;
  let readme_path := dir_path // "README.md" in
  readme_content <- lift (fstring (directory_readme_template dir_name description)) ;;
  atomic_write readme_path readme_content ;;
  let gitkeep_path := dir_path // ".gitkeep" in
  touch gitkeep_path.

(** The [try] block of [create_recommended_subdirectory_structure], for any
    directory spec. *)
Definition expand_try (spec : list (string * string)) (repo_path : path) : M unit :=
  logger_info "Creating recommended subdirectory structure" ;;
  for_each spec (expand_entry repo_path) ;;
  logger_info "Created recommended subdirectory structure".

(** [create_recommended_subdirectory_structure], for any directory spec. *)
Definition expand (spec : list (string * string)) (repo_path : path) : M unit :=
  TRY
    expand_try spec repo_path
  EXCEPT e =>
    logger_error ("Error creating subdirectory structure: " +:+ exc_str e).

Definition create_recommended_subdirectory_structure (repo_path : path) : M unit :=
  expand subdirectories repo_path.

Section Methods.

Variable self : Manager.
Variable cfg : config.

(** The [try] block of [create_mobile_readme]. *)
Definition create_mobile_readme_try (repo_path : path) : M unit :=
  logger_info "Creating mobile-optimized README" ;;
  readme_content <- lift (fstring (readme_template self cfg)) ;;
  let readme_path := repo_path // "README.md" in
  atomic_write readme_path readme_content ;;
  logger_info "Created mobile-optimized README".

Definition create_mobile_readme (repo_path : path) : M unit :=
  TRY
    create_mobile_readme_try repo_path
  EXCEPT e =>
    logger_error ("Error creating mobile README: " +:+ exc_str e).

(** The [try] block of [create_mobile_requirements]. *)
Definition create_mobile_requirements_try (repo_path : path) : M unit :=
  logger_info "Creating mobile requirements" ;;
  let requirements_path := repo_path // "requirements.txt" in
  atomic_write requirements_path requirements_content ;;
  let mobile_docs_path := repo_path // "docs" // "mobile_setup.md" in
  mkdir_parents_exist_ok (parent mobile_docs_path) ;;
  atomic_write mobile_docs_path mobile_docs_content ;;
  logger_info "Created mobile requirements and documentation".

Definition create_mobile_requirements (repo_path : path) : M unit :=
  TRY
    create_mobile_requirements_try repo_path
  EXCEPT e =>
    logger_error ("Error creating mobile requirements: " +:+ exc_str e).

(** The [try] block of [create_mobile_setup_script]. *)
Definition create_mobile_setup_script_try (repo_path : path) : M unit :=
  logger_info "Creating mobile setup script" ;;
  let setup_path := repo_path // "mobile_setup.sh" in
  atomic_write setup_path setup_script_content ;;
  os_chmod setup_path mode_755 ;;
  let mobile_server_path := repo_path // "mobile_server.py" in
  atomic_write mobile_server_path mobile_server_content ;;
  os_chmod mobile_server_path mode_755 ;;
  logger_info "Created mobile setup and server scripts".

Definition create_mobile_setup_script (repo_path : path) : M unit :=
  TRY
    create_mobile_setup_script_try repo_path
  EXCEPT e =>
    logger_error ("Error creating mobile setup script: " +:+ exc_str e).

(** The dictionary [dashboard_config]: the members are evaluated in order,
    the clock last. *)
Definition dashboard_config : M json :=
  port_dashboard <- lift (cfg_get cfg "PORTS" "MOBILE_DASHBOARD") ;;
  port_api <- lift (cfg_get cfg "PORTS" "API_ENDPOINTS") ;;
  port_monitoring <- lift (cfg_get cfg "PORTS" "MONITORING") ;;
  port_research <- lift (cfg_get cfg "PORTS" "RESEARCH") ;;
  port_github <- lift (cfg_get cfg "PORTS" "GITHUB") ;;
  start_port <- lift (cfg_get cfg "PORTS" "START_PORT") ;;
  end_port <- lift (cfg_get cfg "PORTS" "END_PORT") ;;
  total_ports <- lift (cfg_get cfg "PORTS" "TOTAL_PORTS") ;;
  created_at <- datetime_now_isoformat ;;
  ret (JObj
    [ ("mobile_dashboard", JObj
         [ ("enabled", JBool true);
           ("port", json_of_cfgval port_dashboard);
           ("mobile_optimized", JBool true);
           ("responsive_design", JBool true);
           ("touch_friendly", JBool true) ]);
      ("api_endpoints", JObj
         [ ("main_api", JObj
              [ ("port", json_of_cfgval port_api);
                ("mobile_optimized", JBool true);
                ("compression", JBool true);
                ("caching", JBool true) ]);
           ("monitoring", JObj
              [ ("port", json_of_cfgval port_monitoring);
                ("mobile_dashboard", JBool true);
                ("real_time_updates", JBool true) ]);
           ("research", JObj
              [ ("port", json_of_cfgval port_research);
                ("mobile_access", JBool true);
                ("offline_support", JBool true) ]);
           ("github", JObj
              [ ("port", json_of_cfgval port_github);
                ("mobile_interface", JBool true);
                ("repository_access", JBool true) ]) ]);
      ("mobile_features", JObj
         [ ("offline_support", JBool true);
           ("push_notifications", JBool true);
           ("mobile_api", JBool true);
           ("responsive_images", JBool true);
           ("touch_gestures", JBool true) ]);
      ("port_range", JObj
         [ ("start", json_of_cfgval start_port);
           ("end", json_of_cfgval end_port);
           ("total_ports", json_of_cfgval total_ports);
           ("mobile_allocated", JBool true) ]);
      ("created_at", JStr created_at) ]).

(** The [try] block of [create_mobile_dashboard_config]. *)
Definition create_mobile_dashboard_config_try (repo_path : path) : M unit :=
  logger_info "Setting up mobile dashboard configuration" ;;
  dashboard_config <- dashboard_config ;;
  let config_path := repo_path // "config" // "mobile_dashboard_config.json" in
  mkdir_parents_exist_ok (parent config_path) ;;
  atomic_write_with config_path (json_dump dashboard_config) ;;
  let template_path := repo_path // "templates" // "mobile_dashboard.html" in
  mkdir_parents_exist_ok (parent template_path) ;;
  atomic_write template_path dashboard_template ;;
  logger_info "Set up mobile dashboard configuration".

Definition create_mobile_dashboard_config (repo_path : path) : M unit :=
  TRY
    create_mobile_dashboard_config_try repo_path
  EXCEPT e =>
    logger_error ("Error setting up mobile dashboard config: " +:+ exc_str e).

Definition git_init : list string := ["git"; "init"].
Definition git_add : list string := ["git"; "add"; "."].
Definition git_commit : list string :=
  ["git"; "commit"; "-m"; "Initial commit - Mobile Access Setup"].
Definition git_remote_add (remote_url : string) : list string :=
  ["git"; "remote"; "add"; "origin"; remote_url].

Definition remote_url : string :=
  "https://github.com/" +:+ github_username self +:+ "/" +:+ main_repo_name self +:+ ".git".

(** The [try] block of [create_main_github_repository]. *)
Definition create_main_github_repository_try : M bool :=
  logger_info ("Creating main GitHub repository: " +:+ main_repo_name self) ;;
  mkdir_parents_exist_ok (mobile_dir self) ;;
  let main_repo_path := mobile_dir self // main_repo_name self in
  mkdir_parents_exist_ok main_repo_path ;;
  subprocess_run git_init main_repo_path ;;
  create_recommended_subdirectory_structure main_repo_path ;;
  create_mobile_readme main_repo_path ;;
  create_mobile_requirements main_repo_path ;;
  create_mobile_setup_script main_repo_path ;;
  create_mobile_dashboard_config main_repo_path ;;
  subprocess_run git_add main_repo_path ;;
  subprocess_run git_commit main_repo_path ;;
  subprocess_run (git_remote_add remote_url) main_repo_path ;;
  logger_info ("Created main repository structure: " +:+ path_str main_repo_path) ;;
  ret true.

Definition create_main_github_repository : M bool :=
  TRY
    create_main_github_repository_try
  EXCEPT e =>
    logger_error ("Error creating main GitHub repository: " +:+ exc_str e) ;;
    ret false.

(** The [try] block of [generate_mobile_setup_instructions]. *)
Definition generate_mobile_setup_instructions_try : M string :=
  logger_info "Generating mobile setup instructions" ;;
  instructions <- lift (fstring (instructions_template self cfg)) ;;
  let instructions_path := mobile_dir self // "MOBILE_SETUP_INSTRUCTIONS.md" in
  atomic_write instructions_path instructions ;;
  logger_info "Generated mobile setup instructions" ;;
  ret instructions.

Definition generate_mobile_setup_instructions : M string :=
  TRY
    generate_mobile_setup_instructions_try
  EXCEPT e =>
    logger_error ("Error generating mobile setup instructions: " +:+ exc_str e) ;;
    ret "".

Definition generate_mobile_completion_report : M json :=
  timestamp <- datetime_now_isoformat ;;
  main_dashboard <- lift (cfg_get cfg "URLS" "MOBILE_DASHBOARD") ;;
  api_endpoints <- lift (cfg_get cfg "URLS" "API_ENDPOINTS") ;;
  monitoring <- lift (cfg_get cfg "URLS" "MONITORING") ;;
  research <- lift (cfg_get cfg "URLS" "RESEARCH") ;;
  github <- lift (cfg_get cfg "URLS" "GITHUB") ;;
  start_port <- lift (cfg_get cfg "PORTS" "START_PORT") ;;
  end_port <- lift (cfg_get cfg "PORTS" "END_PORT") ;;
  total_ports <- lift (cfg_get cfg "PORTS" "TOTAL_PORTS") ;;
  ret (JObj
    [ ("timestamp", JStr timestamp);
      ("mobile_access_enabled", JBool true);
      ("main_repository_created", JBool true);
      ("subdirectory_structure", JBool true);
      ("mobile_optimization", JBool true);
      ("dashboard_access", JBool true);
      ("api_endpoints", JBool true);
      ("mobile_features", JObj
         [ ("responsive_design", JBool true);
           ("touch_friendly", JBool true);
           ("offline_support", JBool true);
           ("push_notifications", JBool true);
           ("mobile_api", JBool true);
           ("compression", JBool true);
           ("caching", JBool true) ]);
      ("access_points", JObj
         [ ("main_dashboard", json_of_cfgval main_dashboard);
           ("api_endpoints", json_of_cfgval api_endpoints);
           ("monitoring", json_of_cfgval monitoring);
           ("research", json_of_cfgval research);
           ("github", json_of_cfgval github) ]);
      ("port_allocation", JObj
         [ ("start_port", json_of_cfgval start_port);
           ("end_port", json_of_cfgval end_port);
           ("total_ports", json_of_cfgval total_ports);
           ("mobile_allocated", JBool true) ]);
      ("repository_info", JObj
         [ ("name", JStr (main_repo_name self));
           ("github_url", JStr ("https://github.com/" +:+ github_username self
                                +:+ "/" +:+ main_repo_name self));
           ("local_path", JStr (path_str (mobile_dir self // main_repo_name self)));
           ("mobile_ready", JBool true) ]);
      ("next_steps", JList
         [ JStr "Execute Complete Integration Resolution";
           JStr "Final System Verification";
           JStr "Mobile Access Testing" ]) ]).

Definition execute_mobile_access_setup : M json :=
  logger_info "Starting Mobile Access Setup Manager" ;;
  TRY
    _ <- create_main_github_repository ;;
    _ <- generate_mobile_setup_instructions ;;
    report <- generate_mobile_completion_report ;;
    logger_info "Mobile Access Setup executed successfully" ;;
    logger_info ("Created main repository: " +:+ main_repo_name self) ;;
    logger_info "Mobile access enabled for all 730+ entities" ;;
    dashboard_url <- lift (cfg_get cfg "URLS" "MOBILE_DASHBOARD") ;;
    logger_info ("Dashboard accessible at " +:+ py_str dashboard_url) ;;
    ret report
  EXCEPT e =>
    logger_error ("Error during mobile access setup: " +:+ exc_str e) ;;
    timestamp <- datetime_now_isoformat ;;
    ret (JObj
      [ ("timestamp", JStr timestamp);
        ("status", JStr "error");
        ("error", JStr (exc_str e));
        ("mobile_access_status", JStr "failed") ]).

End Methods.

(** ** Substring search, used to inspect generated text *)

Fixpoint starts_with (p s : string) : bool :=
  match p, s with
  | EmptyString, _ => true
  | String a p', String b s' => bool_decide (a = b) && starts_with p' s'
  | String _ _, EmptyString => false
  end.

Fixpoint contains (p s : string) : bool :=
  starts_with p s ||
  match s with
  | EmptyString => false
  | String _ s' => contains p s'
  end.

(** * Notions used in the statements *)

(** ** Relations between the world before and after a computation *)

Definition preserves {A} (R : World → World → Prop) (m : M A) : Prop :=
  ∀ w, R w (m w).2.

(** A computation that touches the file system only: the environment is
    unchanged and the trace grows by operations other than a subprocess. *)
Definition is_fs_op (o : op) : bool :=
  match o with
  | OpRun _ _ => false
  | _ => true
  end.

Definition fs_only (w w' : World) : Prop :=
  env w' = env w ∧ ∃ t, trace w' = trace w ++ t ∧ forallb is_fs_op t = true.

(** A computation that returns normally from every world. *)
Definition returns_normally {A} (m : M A) : Prop := ∀ w, ∃ a, (m w).1 = Ok a.

(** ** The phases of [create_main_github_repository]

    The statements of its [try] block, grouped: the two [mkdir] and
    [git init]; the five generator methods; what each group puts in the
    trace when nothing fails. *)

Definition main_repo_path (self : Manager) : path :=
  mobile_dir self // main_repo_name self.

Definition preamble (self : Manager) : M unit :=
  logger_info ("Creating main GitHub repository: " +:+ main_repo_name self) ;;
  mkdir_parents_exist_ok (mobile_dir self) ;;
  mkdir_parents_exist_ok (main_repo_path self) ;;
  subprocess_run git_init (main_repo_path self).

Definition generators (self : Manager) (cfg : config) : M unit :=
  create_recommended_subdirectory_structure (main_repo_path self) ;;
  create_mobile_readme self cfg (main_repo_path self) ;;
  create_mobile_requirements (main_repo_path self) ;;
  create_mobile_setup_script (main_repo_path self) ;;
  create_mobile_dashboard_config cfg (main_repo_path self).

Definition preamble_ops (self : Manager) : list op :=
  [ OpMkdir (mobile_dir self);
    OpMkdir (main_repo_path self);
    OpRun git_init (main_repo_path self) ].

Definition vcs_ops (self : Manager) : list op :=
  [ OpRun git_add (main_repo_path self);
    OpRun git_commit (main_repo_path self);
    OpRun (git_remote_add (remote_url self)) (main_repo_path self) ].

(** The statements after the generators: stage, commit, add the remote. *)
Definition vcs_tail (self : Manager) : M bool :=
  subprocess_run git_add (main_repo_path self) ;;
  subprocess_run git_commit (main_repo_path self) ;;
  subprocess_run (git_remote_add (remote_url self)) (main_repo_path self) ;;
  logger_info ("Created main repository structure: " +:+ path_str (main_repo_path self)) ;;
  ret true.

(** The operations of [ops] that are attempted when they are run one after
    the other from time [t], each only if the one before it did not fail;
    and whether none of them fails. *)
Fixpoint attempted (o : nat → op → option fault) (t : nat) (ops : list op) : list op :=
  match ops with
  | [] => []
  | x :: ops' => x :: match o t x with
                      | Some _ => []
                      | None => attempted o (S t) ops'
                      end
  end.

Fixpoint all_succeed (o : nat → op → option fault) (t : nat) (ops : list op) : bool :=
  match ops with
  | [] => true
  | x :: ops' => match o t x with
                 | Some _ => false
                 | None => all_succeed o (S t) ops'
                 end
  end.

(** The oracle of [w] never makes a subprocess fail. *)
Definition git_works (w : World) : Prop :=
  ∀ t args cwd, oracle (env w) t (OpRun args cwd) = None.

(** The oracle of [w] never makes anything fail. *)
Definition no_faults (w : World) : Prop :=
  ∀ t o, oracle (env w) t o = None.

(** [method] runs [body], and when [body] raises it logs the exception
    under [msg] and returns normally. *)
Definition caught_and_logged (body method : M unit) (msg : string) : Prop :=
  ∀ w, match body w with
       | (Ok _, w1) => method w = (Ok tt, w1)
       | (Raise e, w1) => method w = (Ok tt, add_log ERROR (msg +:+ exc_str e) w1)
       end.

(** ** Example worlds *)

Definition example_manager : Manager :=
  {| base_path := ["srv"];
     mobile_dir := ["srv"; "mobile_repositories"];
     github_username := "worldwidebro";
     main_repo_name := "iza-os-ecosystem" |}.

Definition example_repo : path := ["srv"; "mobile_repositories"; "iza-os-ecosystem"].

Definition no_fault : nat → op → option fault := fun _ _ => None.

(** An empty file system under a given oracle and clock; the temporary
    directory is on device [tmp] and everything else on device 0. *)
Definition empty_world (o : nat → op → option fault) (c : nat → string) (tmp : nat) : World :=
  {| dirs := ∅; files := ∅; tmpfiles := ∅; trace := []; log := []; tick := 0;
     env := {| oracle := o; clock := c; tmp_dev := tmp; dev_of := fun _ => 0 |} |}.

Definition noon : nat → string := fun _ => "2024-01-01T12:00:00".

Definition quiet_world : World := empty_world no_fault noon 0.

(** The disk is full: no temporary file can be created or written. *)
Definition disk_full : nat → op → option fault :=
  fun _ o => match o with
             | OpTempCreate | OpTempWrite _ _ => Some (Fault (OSError "28") 0)
             | _ => None
             end.

(** The order the specification declares: every file-system operation of
    the bootstrap comes before the first version-control step. *)
Fixpoint artifacts_before_vcs (t : list op) : bool :=
  match t with
  | [] => true
  | o :: t' => if is_fs_op o then artifacts_before_vcs t'
               else forallb (fun o' => negb (is_fs_op o')) t'
  end.

(** [git commit] exits with status 1; everything else succeeds. *)
Definition commit_fails : nat → op → option fault :=
  fun _ o => match o with
             | OpRun args _ =>
                 if bool_decide (args = git_commit)
                 then Some (Fault (CalledProcessError git_commit 1) 0)
                 else None
             | _ => None
             end.

(** The subprocess commands of a trace, in order. *)
Definition commands (t : list op) : list (list string) :=
  omap (fun o => match o with OpRun args _ => Some args | _ => None end) t.

(** The error messages of a log, in order. *)
Definition errors (l : list (level * string)) : list string :=
  omap (fun e => match e with (ERROR, s) => Some s | _ => None end) l.

(** The six top-level feature flags of a completion report. *)
Definition report_flags (r : json) : list (option json) :=
  map (fun k => json_get k r)
    [ "mobile_access_enabled"; "main_repository_created"; "subdirectory_structure";
      "mobile_optimization"; "dashboard_access"; "api_endpoints" ].

Definition next_steps : json :=
  JList [ JStr "Execute Complete Integration Resolution";
          JStr "Final System Verification";
          JStr "Mobile Access Testing" ].

Definition dashboard_config_path (repo_path : path) : path :=
  repo_path // "config" // "mobile_dashboard_config.json".

(** ** Failures of single operations

    [k] counts the operations from the current one: the oracle is asked at
    time [k + tick w]. *)

Definition fails_at (w : World) (k : nat) (o : op) (e : exc) : Prop :=
  ∃ f, oracle (env w) (k + tick w) o = Some f ∧ f_exc f = e.

Definition succeeds_at (w : World) (k : nat) (o : op) : Prop :=
  oracle (env w) (k + tick w) o = None.

(** A failure with [e] while [atomic_write], started in [w], writes
    [content]: the temporary file is created, and then either the write fails,
    or the write succeeds and the close (which flushes) fails.  The unlink
    of the clean-up is not made to fail. *)
Definition content_write_fails (w : World) (content : string) (e : exc) : Prop :=
  let n := fresh (dom (tmpfiles w)) in
  succeeds_at w 0 OpTempCreate
  ∧ ((fails_at w 1 (OpTempWrite n content) e ∧ succeeds_at w 2 (OpUnlinkTemp n))
     ∨ (succeeds_at w 1 (OpTempWrite n content) ∧ fails_at w 2 (OpTempClose n) e
        ∧ succeeds_at w 3 (OpUnlinkTemp n))).

(** The operations on a temporary file that leave every other path alone. *)
Definition is_temp_op (o : op) : bool :=
  match o with
  | OpTempCreate | OpTempWrite _ _ | OpTempClose _ | OpUnlinkTemp _ => true
  | _ => false
  end.

(** The disk fills up when two characters of a write have reached the
    temporary file. *)
Definition disk_fills_midway : nat → op → option fault :=
  fun _ o => match o with
             | OpTempWrite _ _ => Some (Fault (OSError "28") 2)
             | _ => None
             end.

(** A world with a previous version of a file at [example_repo/README.md]. *)
Definition world_with_readme (o : nat → op → option fault) (tmp : nat) : World :=
  {| dirs := list_to_set (prefixes example_repo);
     files := {[ example_repo ++ ["README.md"] := File "previous content" mode_644 ]};
     tmpfiles := ∅; trace := []; log := []; tick := 0;
     env := {| oracle := o; clock := noon; tmp_dev := tmp; dev_of := fun _ => 0 |} |}.

(** What a successful [atomic_write] leaves in the trace: a single rename
    when the temporary directory and the target are on one device, and
    otherwise a failed rename followed by a copy into the target and an
    unlink. *)
Definition same_device (w : World) (target : path) : bool :=
  bool_decide (tmp_dev (env w) = dev_of (env w) target).

Definition atomic_write_ops (w : World) (target : path) (content : string) : list op :=
  let n := fresh (dom (tmpfiles w)) in
  if same_device w target
  then [OpTempCreate; OpTempWrite n content; OpTempClose n; OpRename n target]
  else [OpTempCreate; OpTempWrite n content; OpTempClose n; OpRename n target;
        OpCopy n target; OpUnlinkTemp n].

(** The copy into the target fails after three characters. *)
Definition copy_interrupted : nat → op → option fault :=
  fun _ o => match o with
             | OpCopy _ _ => Some (Fault (OSError "28") 3)
             | _ => None
             end.

(** The repository directory exists and is empty. *)
Definition repo_world (o : nat → op → option fault) (c : nat → string) (tmp : nat) : World :=
  {| dirs := list_to_set (prefixes example_repo);
     files := ∅; tmpfiles := ∅; trace := []; log := []; tick := 0;
     env := {| oracle := o; clock := c; tmp_dev := tmp; dev_of := fun _ => 0 |} |}.

(** The write of the documentation of the second entry fails (the ninth
    operation of the expansion: the first entry takes six, then come the
    [mkdir] of the second and the creation of its temporary file); nothing
    else does. *)
Definition second_write_fails : nat → op → option fault :=
  fun t o => match o with
             | OpTempWrite _ _ => if bool_decide (t = 8) then Some (Fault (OSError "28") 0) else None
             | _ => None
             end.

(** A configuration context without [CONFIG["URLS"]["MOBILE_DASHBOARD"]]. *)
Definition CONFIG_without_dashboard_url : config :=
  alter (delete "MOBILE_DASHBOARD") "URLS" CONFIG.

Definition midnight : nat → string := fun _ => "2024-01-02T00:00:00".

(** The text that [create_mobile_dashboard_config] hands to the writer:
    [json.dump] of the dictionary. *)
Definition rendered_dashboard_config (cfg : config) : M string :=
  dashboard_config <- dashboard_config cfg ;;
  ret (json_dumps dashboard_config).

(** ** Directory specs

    A directory name of the spec is simple when it has no NUL character
    (which no file name can have), is relative and has one component, which
    is not [".."], as all the names of [subdirectories] are: it names a
    directory right under the root of the expansion. *)
Definition simple_name (d : string) : bool :=
  negb (has_char "000"%char d)
  && match d with
     | String "/"%char _ => false
     | _ => match components d with
            | [c] => negb (bool_decide (c = ".."))
            | _ => false
            end
     end.

Definition simple_spec (spec : list (string * string)) : Prop :=
  Forall (fun e => simple_name e.1 = true) spec
  ∧ NoDup (map (fun e => components e.1) spec).

(** The text of the documentation file of an entry. *)
Definition directory_readme (dir_name description : string) : string :=
  match fstring (directory_readme_template dir_name description) with
  | Ok content => content
  | Raise _ => ""
  end.

(** The files after [Path.touch(p)], given the directories and the files
    before it. *)
Definition touched (D : gset path) (F : gmap path file) (p : path) : gmap path file :=
  if bool_decide (p ∈ D) || bool_decide (is_Some (F !! p)) then F
  else <[p := File "" mode_644]> F.

(** The expansion of [spec] under [repo_path] can proceed in [w]: no
    regular file is in the way of a directory, and no directory is in the
    way of a documentation file. *)
Definition expandable (spec : list (string * string)) (repo_path : path) (w : World) : Prop :=
  ∀ e, e ∈ spec →
    (∀ q, q ∈ prefixes (repo_path // e.1) → files w !! q = None)
    ∧ (repo_path // e.1 // "README.md") ∉ dirs w.

(** The entry [e] is in place in [w]. *)
Definition in_place (repo_path : path) (w : World) (e : string * string) : Prop :=
  (∀ q, q ∈ prefixes (repo_path // e.1) → q ∈ dirs w ∧ files w !! q = None)
  ∧ files w !! (repo_path // e.1 // "README.md")
    = Some (File (directory_readme e.1 e.2) mode_600)
  ∧ path_exists w (repo_path // e.1 // ".gitkeep") = true
  ∧ (repo_path // e.1 // "README.md") ∉ dirs w.

(** ** Footprints

    [within D F w w']: the world [w'] differs from [w] at most by
    directories of [D] that were made and by the files at the paths of [F];
    the environment is the same. *)
Definition within (D F : list path) (w w' : World) : Prop :=
  env w' = env w
  ∧ dirs w ⊆ dirs w'
  ∧ (∀ q, q ∈ dirs w' → q ∈ dirs w ∨ q ∈ D)
  ∧ (∀ p, p ∉ F → files w' !! p = files w !! p).

(** The directories and the files that the expansion of an entry can make. *)
Definition entry_dirs (repo_path : path) (e : string * string) : list path :=
  prefixes (repo_path // e.1).

Definition entry_files (repo_path : path) (e : string * string) : list path :=
  [repo_path // e.1 // "README.md"; repo_path // e.1 // ".gitkeep"].

(** Nothing at or below the directory of the entry [e] differs between [w]
    and [w']. *)
Definition untouched (repo_path : path) (w w' : World) (e : string * string) : Prop :=
  ∀ p, (repo_path // e.1) `prefix_of` p →
       (p ∈ dirs w' ↔ p ∈ dirs w) ∧ files w' !! p = files w !! p.

(** ** Rendered texts

    The texts handed to [temp_file.write] or [json.dump], in order. *)
Definition writes (t : list op) : list string :=
  omap (fun o => match o with OpTempWrite _ s => Some s | _ => None end) t.

Definition is_write (o : op) : bool :=
  match o with
  | OpTempWrite _ _ => true
  | _ => false
  end.

(** A computation that hands nothing to the writer. *)
Definition same_writes (w w' : World) : Prop := writes (trace w') = writes (trace w).

(** [m] renders [L]: when it returns it has handed exactly the texts [L] to
    the writer, in order, and when it raises the first ones of them. *)
Definition renders {A} (L : list string) (m : M A) : Prop :=
  ∀ w, match m w with
       | (Ok _, w') => writes (trace w') = writes (trace w) ++ L
       | (Raise _, w') =>
           ∃ k, writes (trace w') = writes (trace w) ++ k ∧ k `prefix_of` L
       end.

(** The texts of a rendering that may raise. *)
Definition texts (r : res string) : list string :=
  match r with
  | Ok s => [s]
  | Raise _ => []
  end.

(** The dashboard dictionary, as a function of the context and of the
    reading of the clock. *)
Definition dashboard_config_at (cfg : config) (now : string) : res json :=
  (dashboard_config cfg (empty_world no_fault (fun _ => now) 0)).1.

Definition dashboard_texts (cfg : config) (now : string) : list string :=
  match dashboard_config_at cfg now with
  | Ok dashboard_config => [json_dumps dashboard_config; dashboard_template]
  | Raise _ => []
  end.

(** * Notions for the further properties *)

(** The five keys of [CONFIG["URLS"]] that the f-string templates refer to. *)
Definition url_keys : list string :=
  ["MOBILE_DASHBOARD"; "API_ENDPOINTS"; "MONITORING"; "RESEARCH"; "GITHUB"].

Definition instructions_path (self : Manager) : path :=
  mobile_dir self // "MOBILE_SETUP_INSTRUCTIONS.md".

(** The text of a rendering that succeeded. *)
Definition rendered (r : res string) : string :=
  match r with
  | Ok s => s
  | Raise _ => ""
  end.

(** The mobile directory exists and is empty. *)
Definition mobile_dir_world : World :=
  {| dirs := list_to_set (prefixes (mobile_dir example_manager));
     files := ∅; tmpfiles := ∅; trace := []; log := []; tick := 0;
     env := {| oracle := no_fault; clock := noon; tmp_dev := 0; dev_of := fun _ => 0 |} |}.

Definition dashboard_template_path (repo_path : path) : path :=
  repo_path // "templates" // "mobile_dashboard.html".

(** What one entry of the spec does to the directories and files, when
    nothing fails and nothing is in the way. *)
Definition entry_tree (repo_path : path) (T : gset path * gmap path file)
    (e : string * string) : gset path * gmap path file :=
  let dir_path := repo_path // e.1 in
  let D := T.1 ∪ list_to_set (prefixes dir_path) in
  (D, touched D (<[dir_path // "README.md" := File (directory_readme e.1 e.2) mode_600]> T.2)
        (dir_path // ".gitkeep")).

(** The four git commands of the bootstrap, in order. *)
Definition bootstrap_commands (self : Manager) : list (list string) :=
  [git_init; git_add; git_commit; git_remote_add (remote_url self)].

(** A regular file sits where the mobile directory should be. *)
Definition blocked_world : World :=
  {| dirs := list_to_set (prefixes (base_path example_manager));
     files := {[ mobile_dir example_manager := File "" mode_644 ]};
     tmpfiles := ∅; trace := []; log := []; tick := 0;
     env := {| oracle := no_fault; clock := noon; tmp_dev := 0; dev_of := fun _ => 0 |} |}.

(** The record that [execute_mobile_access_setup] returns from its
    [except] branch. *)
Definition error_report (timestamp : string) (e : exc) : json :=
  JObj [ ("timestamp", JStr timestamp);
         ("status", JStr "error");
         ("error", JStr (exc_str e));
         ("mobile_access_status", JStr "failed") ].

(** The keys of the context that [generate_mobile_completion_report]
    reads, in the order it reads them. *)
Definition report_keys : list (string * string) :=
  [ ("URLS", "MOBILE_DASHBOARD"); ("URLS", "API_ENDPOINTS"); ("URLS", "MONITORING");
    ("URLS", "RESEARCH"); ("URLS", "GITHUB");
    ("PORTS", "START_PORT"); ("PORTS", "END_PORT"); ("PORTS", "TOTAL_PORTS") ].

Definition has_key (cfg : config) (sk : string * string) : bool :=
  match cfg_get cfg sk.1 sk.2 with
  | Ok _ => true
  | Raise _ => false
  end.

(** Neither the write nor the unlink of the clean-up succeeds. *)
Definition write_and_unlink_fail : nat → op → option fault :=
  fun _ o => match o with
             | OpTempWrite _ _ => Some (Fault (OSError "28") 2)
             | OpUnlinkTemp _ => Some (Fault (OSError "13") 0)
             | _ => None
             end.

(** * Reasoning principles *)

Section Preserves.

Context (R : World → World → Prop) `{!PreOrder R}.

Lemma preserves_ret {A} (a : A) : preserves R (ret a).
Proof. intros w. done. Qed.

Lemma preserves_raise {A} (e : exc) : preserves R (raise (A := A) e).
Proof. intros w. done. Qed.

Lemma preserves_lift {A} (r : res A) : preserves R (lift r).
Proof. intros w. done. Qed.

Lemma preserves_get {A} (f : World → A) : preserves R (get f).
Proof. intros w. done. Qed.

Lemma preserves_bind {A B} (m : M A) (k : A → M B) :
  preserves R m → (∀ a, preserves R (k a)) → preserves R (bind m k).
Proof.
  intros Hm Hk w. unfold bind. specialize (Hm w).
  destruct (m w) as [[a|e] w1]; simpl in *; [|done].
  by etrans; [exact Hm | apply Hk].
Qed.

Lemma preserves_try {A} (m : M A) (h : exc → M A) :
  preserves R m → (∀ e, preserves R (h e)) → preserves R (try_except m h).
Proof.
  intros Hm Hh w. unfold try_except. specialize (Hm w).
  destruct (m w) as [[a|e] w1]; simpl in *; [done|].
  by etrans; [exact Hm | apply Hh].
Qed.

Lemma preserves_try_OSError {A} (m h : M A) :
  preserves R m → preserves R h → preserves R (try_except_OSError m h).
Proof.
  intros Hm Hh w. unfold try_except_OSError. specialize (Hm w).
  destruct (m w) as [[a|e] w1]; simpl in *; [done|].
  destruct (is_OSError e); [|done].
  by etrans; [exact Hm | apply Hh].
Qed.

Lemma preserves_for_each {A} (l : list A) (body : A → M unit) :
  (∀ x, preserves R (body x)) → preserves R (for_each l body).
Proof.
  intros Hb. induction l as [|x l IH]; simpl.
  - apply preserves_ret.
  - apply preserves_bind; [apply Hb | intros _; exact IH].
Qed.

End Preserves.

#[local] Instance fs_only_preorder : PreOrder fs_only.
Proof.
  split.
  - intros w. split; [done|]. exists []. by rewrite app_nil_r.
  - intros w1 w2 w3 [He1 (t1 & Ht1 & Hf1)] [He2 (t2 & Ht2 & Hf2)].
    split; [congruence|].
    exists (t1 ++ t2). rewrite Ht2, Ht1, <- app_assoc. split; [done|].
    rewrite forallb_app, Hf1, Hf2. done.
Qed.

Create HintDb py discriminated.

Lemma fs_only_perform o : is_fs_op o = true → preserves fs_only (perform o).
Proof.
  intros Ho w. split; [done|]. exists [o]. simpl. by rewrite Ho.
Qed.

Lemma fs_only_modify (f : World → World) :
  (∀ w, env (f w) = env w) → (∀ w, trace (f w) = trace w) →
  preserves fs_only (modify f).
Proof.
  intros He Ht w. split; [apply He|]. exists []. simpl. by rewrite Ht, app_nil_r.
Qed.

Lemma fs_only_attempt o : is_fs_op o = true → preserves fs_only (attempt o).
Proof.
  intros Ho. unfold attempt. apply preserves_bind; [apply _ | by apply fs_only_perform |].
  intros [f|]; [apply preserves_raise | apply preserves_ret]; apply _.
Qed.

#[local] Instance same_writes_preorder : PreOrder same_writes.
Proof. split; unfold same_writes; [done | intros ???; congruence]. Qed.

Lemma writes_snoc t o : writes (t ++ [o]) = writes t ++ writes [o].
Proof. unfold writes. by rewrite omap_app. Qed.

Lemma writes_snoc_other t o : is_write o = false → writes (t ++ [o]) = writes t.
Proof. intros Ho. rewrite writes_snoc. destruct o; try done; by rewrite app_nil_r. Qed.

Lemma same_writes_perform o : is_write o = false → preserves same_writes (perform o).
Proof. intros Ho w. by apply writes_snoc_other. Qed.

Lemma same_writes_modify (f : World → World) :
  (∀ w, trace (f w) = trace w) → preserves same_writes (modify f).
Proof. intros Ht w. unfold same_writes. simpl. by rewrite Ht. Qed.

Lemma same_writes_attempt o : is_write o = false → preserves same_writes (attempt o).
Proof.
  intros Ho. unfold attempt. apply preserves_bind; [apply _ | by apply same_writes_perform |].
  intros [f|]; [apply preserves_raise | apply preserves_ret]; apply _.
Qed.

(** Breaks a computation down to its system operations. *)
Ltac step_preserves :=
  match goal with
  | |- preserves _ (bind _ _) => apply preserves_bind; [apply _ | | intros ?]
  | |- preserves _ (try_except _ _) => apply preserves_try; [apply _ | | intros ?]
  | |- preserves _ (try_except_OSError _ _) => apply preserves_try_OSError; [apply _ | | ]
  | |- preserves _ (for_each _ _) => apply preserves_for_each; [apply _ | intros ?]
  | |- preserves _ (ret _) => apply preserves_ret; apply _
  | |- preserves _ (raise _) => apply preserves_raise; apply _
  | |- preserves _ (lift _) => apply preserves_lift; apply _
  | |- preserves _ (get _) => apply preserves_get; apply _
  | |- preserves fs_only (modify _) => apply fs_only_modify; done
  | |- preserves fs_only (perform _) => apply fs_only_perform; done
  | |- preserves fs_only (attempt _) => apply fs_only_attempt; done
  | |- preserves same_writes (modify _) => apply same_writes_modify; done
  | |- preserves same_writes (perform _) => apply same_writes_perform; done
  | |- preserves same_writes (attempt _) => apply same_writes_attempt; done
  | |- preserves _ (match ?x with _ => _ end) => destruct x
  | |- preserves _ (if ?x then _ else _) => destruct x
  | |- preserves _ (let _ := _ in _) => simpl
  | |- preserves _ _ => solve [auto with py]
  end.

Ltac solve_preserves := repeat step_preserves.

Lemma fs_only_logger_info s : preserves fs_only (logger_info s).
Proof. unfold logger_info. solve_preserves. Qed.

Lemma fs_only_logger_error s : preserves fs_only (logger_error s).
Proof. unfold logger_error. solve_preserves. Qed.

Lemma fs_only_datetime_now : preserves fs_only datetime_now_isoformat.
Proof. intros w. split; [done|]. exists []. simpl. by rewrite app_nil_r. Qed.

#[local] Hint Resolve fs_only_logger_info fs_only_logger_error fs_only_datetime_now : py.

Lemma fs_only_mkdir p : preserves fs_only (mkdir_parents_exist_ok p).
Proof. unfold mkdir_parents_exist_ok. solve_preserves. Qed.

Lemma fs_only_NamedTemporaryFile : preserves fs_only NamedTemporaryFile.
Proof. unfold NamedTemporaryFile. solve_preserves. Qed.

Lemma fs_only_temp_write n s : preserves fs_only (temp_write n s).
Proof. unfold temp_write. solve_preserves. Qed.

Lemma fs_only_temp_close n : preserves fs_only (temp_close n).
Proof. unfold temp_close. solve_preserves. Qed.

Lemma fs_only_os_unlink_tmp n : preserves fs_only (os_unlink_tmp n).
Proof.
  unfold os_unlink_tmp, os_path_exists_tmp. solve_preserves.
Qed.

Lemma fs_only_os_rename_tmp n dst : preserves fs_only (os_rename_tmp n dst).
Proof. unfold os_rename_tmp. solve_preserves. Qed.

Lemma fs_only_shutil_copy2_tmp n dst : preserves fs_only (shutil_copy2_tmp n dst).
Proof. unfold shutil_copy2_tmp. solve_preserves. Qed.

#[local] Hint Resolve fs_only_mkdir fs_only_NamedTemporaryFile fs_only_temp_write
  fs_only_temp_close fs_only_os_unlink_tmp fs_only_os_rename_tmp
  fs_only_shutil_copy2_tmp : py.

Lemma fs_only_shutil_move_tmp n dst : preserves fs_only (shutil_move_tmp n dst).
Proof. unfold shutil_move_tmp. solve_preserves. Qed.

Lemma fs_only_touch p : preserves fs_only (touch p).
Proof. unfold touch. solve_preserves. Qed.

Lemma fs_only_os_chmod p mode : preserves fs_only (os_chmod p mode).
Proof. unfold os_chmod. solve_preserves. Qed.

#[local] Hint Resolve fs_only_shutil_move_tmp fs_only_touch fs_only_os_chmod : py.

Lemma fs_only_atomic_write_with target fill :
  (∀ n, preserves fs_only (fill n)) → preserves fs_only (atomic_write_with target fill).
Proof.
  intros Hfill. unfold atomic_write_with, os_path_exists_tmp. solve_preserves.
Qed.

Lemma fs_only_atomic_write target content : preserves fs_only (atomic_write target content).
Proof. apply fs_only_atomic_write_with. intros n. apply fs_only_temp_write. Qed.

#[local] Hint Resolve fs_only_atomic_write : py.

Lemma fs_only_expand_entry repo entry : preserves fs_only (expand_entry repo entry).
Proof. unfold expand_entry. destruct entry. solve_preserves. Qed.

#[local] Hint Resolve fs_only_expand_entry : py.

Lemma fs_only_expand spec repo : preserves fs_only (expand spec repo).
Proof. unfold expand, expand_try. solve_preserves. Qed.

Lemma fs_only_create_recommended_subdirectory_structure repo :
  preserves fs_only (create_recommended_subdirectory_structure repo).
Proof. apply fs_only_expand. Qed.

Lemma fs_only_create_mobile_readme self cfg repo :
  preserves fs_only (create_mobile_readme self cfg repo).
Proof. unfold create_mobile_readme, create_mobile_readme_try. solve_preserves. Qed.

Lemma fs_only_create_mobile_requirements repo :
  preserves fs_only (create_mobile_requirements repo).
Proof. unfold create_mobile_requirements, create_mobile_requirements_try. solve_preserves. Qed.

Lemma fs_only_create_mobile_setup_script repo :
  preserves fs_only (create_mobile_setup_script repo).
Proof. unfold create_mobile_setup_script, create_mobile_setup_script_try. solve_preserves. Qed.

Lemma fs_only_dashboard_config cfg : preserves fs_only (dashboard_config cfg).
Proof. unfold dashboard_config. solve_preserves. Qed.

#[local] Hint Resolve fs_only_dashboard_config : py.

Lemma fs_only_create_mobile_dashboard_config cfg repo :
  preserves fs_only (create_mobile_dashboard_config cfg repo).
Proof.
  unfold create_mobile_dashboard_config, create_mobile_dashboard_config_try. solve_preserves.
  apply fs_only_atomic_write_with. intros n. apply fs_only_temp_write.
Qed.

(** ** Computations that never raise *)

Lemma try_except_returns {A} (m : M A) (h : exc → M A) :
  (∀ e, returns_normally (h e)) → returns_normally (try_except m h).
Proof.
  intros Hh w. unfold try_except.
  destruct (m w) as [[a|e] w1]; [by exists a | apply Hh].
Qed.

Lemma logger_error_returns s : returns_normally (logger_error s).
Proof. intros w. by exists tt. Qed.

Lemma expand_returns spec repo : returns_normally (expand spec repo).
Proof. apply try_except_returns. intros e. apply logger_error_returns. Qed.

Lemma create_recommended_subdirectory_structure_returns repo :
  returns_normally (create_recommended_subdirectory_structure repo).
Proof. apply expand_returns. Qed.

Lemma create_mobile_readme_returns self cfg repo :
  returns_normally (create_mobile_readme self cfg repo).
Proof. apply try_except_returns. intros e. apply logger_error_returns. Qed.

Lemma create_mobile_requirements_returns repo :
  returns_normally (create_mobile_requirements repo).
Proof. apply try_except_returns. intros e. apply logger_error_returns. Qed.

Lemma create_mobile_setup_script_returns repo :
  returns_normally (create_mobile_setup_script repo).
Proof. apply try_except_returns. intros e. apply logger_error_returns. Qed.

Lemma create_mobile_dashboard_config_returns cfg repo :
  returns_normally (create_mobile_dashboard_config cfg repo).
Proof. apply try_except_returns. intros e. apply logger_error_returns. Qed.

Lemma create_main_github_repository_returns self cfg :
  returns_normally (create_main_github_repository self cfg).
Proof. apply try_except_returns. intros e w. by exists false. Qed.

Lemma generate_mobile_setup_instructions_returns self cfg :
  returns_normally (generate_mobile_setup_instructions self cfg).
Proof. apply try_except_returns. intros e w. by exists ""%string. Qed.

Lemma returns_unit (m : M unit) w : returns_normally m → m w = (Ok tt, (m w).2).
Proof. intros H. destruct (H w) as [[] Ha]. destruct (m w) as [r w']. simpl in *. by subst. Qed.

Lemma bind_assoc {A B C} (m : M A) (f : A → M B) (g : B → M C) w :
  bind (bind m f) g w = bind m (fun a => bind (f a) g) w.
Proof. unfold bind. by destruct (m w) as [[a|e] w1]. Qed.

Lemma bind_ok {A B} (m : M A) (k : A → M B) w a w1 :
  m w = (Ok a, w1) → bind m k w = k a w1.
Proof. intros H. unfold bind. by rewrite H. Qed.

Lemma bind_raise {A B} (m : M A) (k : A → M B) w e w1 :
  m w = (Raise e, w1) → bind m k w = (Raise e, w1).
Proof. intros H. unfold bind. by rewrite H. Qed.

(** The generator methods, run in sequence, return normally and leave only
    file-system operations in the trace. *)
Lemma generators_returns self cfg : returns_normally (generators self cfg).
Proof.
  intros w. unfold generators.
  rewrite (bind_ok _ _ _ _ _ (returns_unit _ _ (create_recommended_subdirectory_structure_returns _))).
  rewrite (bind_ok _ _ _ _ _ (returns_unit _ _ (create_mobile_readme_returns _ _ _))).
  rewrite (bind_ok _ _ _ _ _ (returns_unit _ _ (create_mobile_requirements_returns _))).
  rewrite (bind_ok _ _ _ _ _ (returns_unit _ _ (create_mobile_setup_script_returns _))).
  apply create_mobile_dashboard_config_returns.
Qed.

Lemma fs_only_generators self cfg : preserves fs_only (generators self cfg).
Proof.
  unfold generators.
  repeat (apply preserves_bind; [apply _ | | intros _]);
    auto using fs_only_create_recommended_subdirectory_structure,
      fs_only_create_mobile_readme, fs_only_create_mobile_requirements,
      fs_only_create_mobile_setup_script, fs_only_create_mobile_dashboard_config.
Qed.

(** The [try] block of [create_main_github_repository], phase by phase. *)
Lemma create_main_github_repository_try_phases self cfg w :
  create_main_github_repository_try self cfg w =
  (preamble self ;; generators self cfg ;; vcs_tail self) w.
Proof.
  unfold create_main_github_repository_try, preamble, generators, vcs_tail.
  fold (main_repo_path self). unfold bind.
  repeat match goal with
         | |- context [match ?m ?v with _ => _ end] =>
             is_var v; destruct (m v) as [[?|?] ?]; try reflexivity
         end.
Qed.

Ltac run_monad :=
  unfold subprocess_run, mkdir_parents_exist_ok, attempt, perform, logger_info,
    logger_error, bind, get, modify, raise, ret, lift; simpl.

Lemma preamble_trace self w :
  match preamble self w with
  | (Ok _, w1) => trace w1 = trace w ++ preamble_ops self ∧ env w1 = env w
  | (Raise e, w1) =>
      ∃ pre, trace w1 = trace w ++ pre ∧ pre `prefix_of` preamble_ops self
             ∧ pre ≠ [] ∧ env w1 = env w
  end.
Proof.
  unfold preamble, preamble_ops. run_monad.
  repeat (case_match; simpl); simplify_eq; simpl; rewrite <- ?app_assoc; simpl;
    try (split; done);
    try (eexists; split; [reflexivity|]; split; [|done];
         first [ by eexists [_; _] | by eexists [_] | by eexists [] ]).
Qed.

Lemma vcs_tail_trace self w :
  match vcs_tail self w with
  | (Ok b, w1) => b = true ∧ trace w1 = trace w ++ vcs_ops self
  | (Raise e, w1) =>
      ∃ post, trace w1 = trace w ++ post ∧ post `prefix_of` vcs_ops self ∧ post ≠ []
  end.
Proof.
  unfold vcs_tail, vcs_ops. run_monad.
  repeat (case_match; simpl); simplify_eq; simpl; rewrite <- ?app_assoc; simpl;
    try (split; done);
    try (eexists; split; [reflexivity|]; split; [|done];
         first [ by eexists [_; _] | by eexists [_] | by eexists [] ]).
Qed.

Lemma vcs_tail_ok self w :
  git_works w → ∃ w1, vcs_tail self w = (Ok true, w1) ∧ trace w1 = trace w ++ vcs_ops self.
Proof.
  intros Hgit. unfold vcs_tail, vcs_ops. run_monad. rewrite !Hgit. simpl.
  eexists. split; [reflexivity|]. simpl. by rewrite <- !app_assoc.
Qed.

Lemma caught_and_logged_intro (body : M unit) (msg : string) :
  caught_and_logged body (TRY body EXCEPT e => logger_error (msg +:+ exc_str e)) msg.
Proof.
  intros w. unfold try_except. destruct (body w) as [[[]|e] w1]; reflexivity.
Qed.

Lemma returns_ok {A} (m : M A) w :
  returns_normally m → ∃ a, m w = (Ok a, (m w).2).
Proof. intros H. destruct (H w) as [a Ha]. exists a. destruct (m w). simpl in *. by subst. Qed.

(** Evaluates the lookups in the constant [CONFIG]. *)
Ltac eval_CONFIG :=
  repeat match goal with
         | |- context [cfg_get CONFIG ?s ?k] =>
             let v := eval vm_compute in (cfg_get CONFIG s k) in
             change (cfg_get CONFIG s k) with v
         end.

Lemma dashboard_config_CONFIG w :
  ∃ j, dashboard_config CONFIG w = (Ok j, advance w)
       ∧ json_path ["port_range"; "start"] j = Some (JInt 8000)
       ∧ json_path ["port_range"; "end"] j = Some (JInt 8601)
       ∧ json_path ["port_range"; "total_ports"] j = Some (JInt 602).
Proof.
  unfold dashboard_config. eval_CONFIG.
  unfold bind, lift, datetime_now_isoformat, ret.
  eexists. split; [reflexivity|]. by vm_compute.
Qed.

Lemma generate_mobile_completion_report_CONFIG self w :
  ∃ r, generate_mobile_completion_report self CONFIG w = (Ok r, advance w)
       ∧ json_path ["port_allocation"; "start_port"] r = Some (JInt 8000)
       ∧ json_path ["port_allocation"; "end_port"] r = Some (JInt 8601)
       ∧ json_path ["port_allocation"; "total_ports"] r = Some (JInt 602)
       ∧ report_flags r = replicate 6 (Some (JBool true))
       ∧ json_get "next_steps" r = Some next_steps.
Proof.
  unfold generate_mobile_completion_report. eval_CONFIG.
  unfold bind, lift, datetime_now_isoformat, ret.
  eexists. split; [reflexivity|]. by vm_compute.
Qed.

Lemma fresh_tmp_unused w : tmpfiles w !! fresh (dom (tmpfiles w)) = None.
Proof. apply not_elem_of_dom, is_fresh. Qed.

Lemma world_eq_files w f : f = files w → set_files f w = w.
Proof. intros ->. by destruct w. Qed.

Lemma tmp_removed (m : gmap nat file) n g x :
  m !! n = None → delete n (alter g n (<[n:=x]> m)) = m.
Proof. intros H. by rewrite delete_alter_eq, delete_insert_eq, delete_id. Qed.

Lemma tmp_exists (m : gmap nat file) n g x :
  bool_decide (is_Some (alter g n (<[n:=x]> m) !! n)) = true.
Proof. apply bool_decide_eq_true. rewrite lookup_alter_eq, lookup_insert_eq. by eexists. Qed.

Lemma is_dir_eq w' w p : dirs w' = dirs w → is_dir w' p = is_dir w p.
Proof. unfold is_dir. by intros ->. Qed.

Lemma is_file_eq w' w p : files w' = files w → is_file w' p = is_file w p.
Proof. unfold is_file. by intros ->. Qed.

Lemma parent_error_eq w' w p : files w' = files w → parent_error w' p = parent_error w p.
Proof.
  intros Hf. unfold parent_error, is_file. by rewrite Hf.
Qed.

Lemma is_OSError_parent_error w p : is_OSError (parent_error w p) = true.
Proof. unfold parent_error. by case_match. Qed.

(** Reads [is_dir] and [is_file] in the world [w] they depend on. *)
Ltac norm_fs w :=
  repeat match goal with
         | |- context [parent_error ?w' ?p] =>
             lazymatch w' with
             | w => fail
             | _ => rewrite (parent_error_eq w' w p) by reflexivity
             end
         | |- context [is_dir ?w' ?p] =>
             lazymatch w' with
             | w => fail
             | _ => rewrite (is_dir_eq w' w p) by reflexivity
             end
         | |- context [is_file ?w' ?p] =>
             lazymatch w' with
             | w => fail
             | _ => rewrite (is_file_eq w' w p) by reflexivity
             end
         end.

Ltac run := cbn -[fresh is_dir is_file path_exists].
Ltac run3 := cbn -[fresh is_dir is_file path_exists parent tmp_name parent_error].
Ltac run4 :=
  cbn -[fresh is_dir is_file path_exists parent tmp_name parent_error shutil_move_tmp].

(** Closes a goal whose premise is a run with the wrong outcome. *)
Ltac no_run := by (intros; simplify_eq).

Lemma tmp_lookup (m : gmap nat file) n g x :
  alter g n (<[n:=x]> m) !! n = Some (g x).
Proof. by rewrite lookup_alter_eq, lookup_insert_eq. Qed.

(** A successful [atomic_write]: nothing fails, the parent of the target is
    a directory and the target is not. *)
Lemma atomic_write_ok target content w :
  no_faults w →
  is_dir w (parent target) = true →
  is_dir w target = false →
  ∃ w', atomic_write target content w = (Ok tt, w')
        ∧ files w' = <[target := File content mode_600]> (files w)
        ∧ dirs w' = dirs w
        ∧ tmpfiles w' = tmpfiles w
        ∧ env w' = env w
        ∧ log w' = log w
        ∧ trace w' = trace w ++ atomic_write_ops w target content.
Proof.
  intros Hnf Hparent Htarget.
  pose proof (fresh_tmp_unused w) as Hfresh.
  unfold atomic_write_ops, same_device.
  set (n := fresh (dom (tmpfiles w))) in *.
  unfold atomic_write, atomic_write_with, NamedTemporaryFile, temp_write, temp_close,
    shutil_move_tmp, os_rename_tmp, shutil_copy2_tmp,
    os_path_exists_tmp, os_unlink_tmp, attempt, perform, try_except,
    try_except_OSError, bind, get, modify, ret, raise, append_tmp.
  run. rewrite !Hnf. run. fold n.
  norm_fs w. rewrite Htarget. run. rewrite !Hnf. run.
  rewrite tmp_lookup. norm_fs w. rewrite Hparent, Htarget. run.
  destruct (bool_decide (tmp_dev (env w) = dev_of (env w) target)) eqn:Hdev; run.
  - rewrite tmp_removed by done.
    eexists. split; [reflexivity|]. cbn. repeat split; try done.
    by rewrite <- !app_assoc.
  - rewrite !Hnf. run. rewrite tmp_lookup.
    norm_fs w. rewrite Hparent, Htarget. run. rewrite !Hnf. run.
    rewrite tmp_exists. run. rewrite tmp_removed by done.
    eexists. split; [reflexivity|]. cbn. repeat split; try done.
    by rewrite <- !app_assoc.
Qed.

Lemma for_each_app_raise {A} (pre post : list A) (x : A) body w w1 w2 e :
  for_each pre body w = (Ok tt, w1) →
  body x w1 = (Raise e, w2) →
  for_each (pre ++ x :: post) body w = (Raise e, w2).
Proof.
  revert w. induction pre as [|y pre IH]; intros w Hpre Hx; simpl in *.
  - unfold ret in Hpre. simplify_eq. by rewrite (bind_raise _ _ _ _ _ Hx).
  - unfold bind in *. destruct (body y w) as [[[]|e'] w']; [|done]. by apply IH.
Qed.

(** ** Paths *)

Lemma elem_of_prefixes_from pre rest q :
  q ∈ prefixes_from pre rest ↔ ∃ k, k ≠ [] ∧ k `prefix_of` rest ∧ q = pre ++ k.
Proof.
  revert pre. induction rest as [|c rest IH]; intros pre; simpl.
  - split; [by intros ?%elem_of_nil|].
    intros (k & Hk & Hpre & _). by apply prefix_nil_inv in Hpre.
  - rewrite elem_of_cons, IH. split.
    + intros [-> | (k & Hk & Hpre & ->)].
      * exists [c]. split; [done|]. split; [|done]. by apply prefix_cons, prefix_nil.
      * exists (c :: k). split; [done|]. split; [by apply prefix_cons|].
        by rewrite <- app_assoc.
    + intros (k & Hk & Hpre & ->). destruct k as [|c' k]; [done|].
      apply prefix_cons_inv_1 in Hpre as Hc. subst c'.
      apply prefix_cons_inv_2 in Hpre.
      destruct k as [|c' k]; [by left|].
      right. exists (c' :: k). split; [done|]. split; [done|].
      by rewrite <- app_assoc.
Qed.

Lemma elem_of_prefixes p q : q ∈ prefixes p ↔ q ≠ [] ∧ q `prefix_of` p.
Proof.
  unfold prefixes. rewrite elem_of_prefixes_from. simpl. split.
  - by intros (k & Hk & Hpre & ->).
  - intros [Hq Hpre]. by exists q.
Qed.

Lemma prefixes_self p : p ≠ [] → p ∈ prefixes p.
Proof. intros Hp. by apply elem_of_prefixes. Qed.

Lemma prefixes_length p q : q ∈ prefixes p → length q ≤ length p.
Proof. intros [_ Hpre]%elem_of_prefixes. by apply prefix_length. Qed.

Lemma path_div_simple repo d :
  simple_name d = true → ∃ c, repo // d = repo ++ [c] ∧ components d = [c].
Proof.
  unfold simple_name, path_div. intros [_ Hd]%andb_true_iff.
  assert (∃ c, components d = [c]) as [c Hc].
  { destruct d as [|a d]; [done|].
    destruct a as [[] [] [] [] [] [] [] []]; try done;
      (destruct (components _) as [|c [|??]]; [done | by exists c | done]). }
  exists c. split; [|done].
  destruct d as [|a d]; [done|].
  destruct a as [[] [] [] [] [] [] [] []]; try done; by rewrite Hc.
Qed.

Lemma path_div_readme p : p // "README.md" = p ++ ["README.md"].
Proof. reflexivity. Qed.

Lemma path_div_gitkeep p : p // ".gitkeep" = p ++ [".gitkeep"].
Proof. reflexivity. Qed.

(** ** Successful runs of the file operations *)

Lemma no_faults_env w w' : env w' = env w → no_faults w → no_faults w'.
Proof. unfold no_faults. by intros ->. Qed.

Lemma existsb_is_file_false w l :
  (∀ q, q ∈ l → files w !! q = None) → existsb (is_file w) l = false.
Proof.
  intros H. apply not_true_is_false. intros (q & Hq & Hfile)%existsb_exists.
  apply list_elem_of_In in Hq. unfold is_file in Hfile.
  apply bool_decide_eq_true in Hfile. rewrite (H q Hq) in Hfile. by destruct Hfile.
Qed.

Lemma is_file_None w p : files w !! p = None → is_file w p = false.
Proof. intros H. unfold is_file. rewrite H. by apply bool_decide_eq_false; intros []. Qed.

Lemma mkdir_ok p w :
  no_faults w → p ≠ [] →
  (∀ q, q ∈ prefixes p → files w !! q = None) →
  mkdir_parents_exist_ok p w
  = (Ok tt, set_dirs (dirs w ∪ list_to_set (prefixes p)) (step (OpMkdir p) w)).
Proof.
  intros Hnf Hp Hfree.
  unfold mkdir_parents_exist_ok, attempt, perform, bind, get, modify, ret, raise.
  run. rewrite Hnf. run. norm_fs w.
  rewrite is_file_None by (apply Hfree; by apply prefixes_self).
  by rewrite existsb_is_file_false by exact Hfree.
Qed.

Lemma touch_ok p w :
  no_faults w → is_dir w (parent p) = true →
  touch p w
  = (Ok tt, if path_exists w p then step (OpTouch p) w
            else set_files (<[p := File "" mode_644]> (files w)) (step (OpTouch p) w)).
Proof.
  intros Hnf Hparent.
  unfold touch, attempt, perform, bind, get, modify, ret, raise.
  run. rewrite Hnf. run. norm_fs w. rewrite Hparent. run.
  unfold path_exists. norm_fs w. by destruct (is_dir w p || is_file w p).
Qed.

Lemma parent_snoc (p : path) c : parent (p ++ [c]) = p.
Proof. apply removelast_last. Qed.

Lemma fstring_directory_readme d desc :
  fstring (directory_readme_template d desc) = Ok (directory_readme d desc).
Proof. reflexivity. Qed.

Lemma not_prefix_longer (p q : path) : length p < length q → q ∉ prefixes p.
Proof. intros Hlen Hq%prefixes_length. lia. Qed.

Lemma is_dir_union w p (l : list path) D :
  dirs w = D ∪ list_to_set l → p ∈ l → is_dir w p = true.
Proof.
  intros Hw Hp. unfold is_dir. rewrite Hw.
  apply orb_true_iff. right. apply bool_decide_eq_true.
  apply elem_of_union. right. by apply elem_of_list_to_set.
Qed.

Lemma is_dir_false w p : p ≠ [] → p ∉ dirs w → is_dir w p = false.
Proof.
  intros Hp Hd. unfold is_dir. apply orb_false_iff.
  split; by apply bool_decide_eq_false.
Qed.

Lemma path_exists_snoc w (p : path) c :
  path_exists w (p ++ [c])
  = bool_decide (p ++ [c] ∈ dirs w) || bool_decide (is_Some (files w !! (p ++ [c]))).
Proof.
  unfold path_exists, is_dir, is_file.
  rewrite (bool_decide_eq_false_2 (p ++ [c] = [])) by by destruct p.
  done.
Qed.

(** One entry of the spec, in a world where nothing fails and nothing is in
    the way. *)
Lemma expand_entry_ok repo d desc c w :
  repo // d = repo ++ [c] →
  no_faults w →
  (∀ q, q ∈ prefixes (repo ++ [c]) → files w !! q = None) →
  (repo ++ [c]) ++ ["README.md"] ∉ dirs w →
  ∃ w', expand_entry repo (d, desc) w = (Ok tt, w')
        ∧ dirs w' = dirs w ∪ list_to_set (prefixes (repo ++ [c]))
        ∧ files w'
          = touched (dirs w')
              (<[(repo ++ [c]) ++ ["README.md"]
                 := File (directory_readme d desc) mode_600]> (files w))
              ((repo ++ [c]) ++ [".gitkeep"])
        ∧ tmpfiles w' = tmpfiles w
        ∧ env w' = env w
        ∧ log w' = log w.
Proof.
  intros Hd Hnf Hfree Hreadme.
  unfold expand_entry. rewrite Hd, path_div_readme, path_div_gitkeep.
  set (dp := repo ++ [c]) in *.
  assert (dp ≠ []) as Hdp by (unfold dp; by destruct repo).
  rewrite (bind_ok _ _ _ _ _ (mkdir_ok dp w Hnf Hdp Hfree)).
  set (w2 := set_dirs _ _).
  rewrite fstring_directory_readme. unfold bind at 1, lift.
  destruct (atomic_write_ok (dp ++ ["README.md"]) (directory_readme d desc) w2)
    as (w3 & Hrun & Hfiles & Hdirs & Htmp & Henv & Hlog & _).
  { by apply (no_faults_env w). }
  { rewrite parent_snoc. by eapply is_dir_union, prefixes_self. }
  { apply is_dir_false; [by destruct dp|]. unfold w2; simpl.
    apply not_elem_of_union. split; [done|].
    rewrite elem_of_list_to_set. apply not_prefix_longer.
    rewrite length_app. simpl. lia. }
  rewrite (bind_ok _ _ _ _ _ Hrun).
  rewrite touch_ok.
  - eexists. split; [reflexivity|].
    rewrite path_exists_snoc. unfold touched.
    unfold w2 in Hfiles, Hdirs, Htmp, Henv, Hlog. simpl in Hfiles, Hdirs, Htmp, Henv, Hlog.
    rewrite Hfiles, Hdirs.
    destruct (bool_decide _ || bool_decide _) eqn:Hc; simpl;
      rewrite ?Hfiles, ?Hdirs, ?Htmp, ?Henv, ?Hlog, Hc; done.
  - by apply (no_faults_env w2); [|apply (no_faults_env w)].
  - rewrite parent_snoc. eapply is_dir_union; [|by apply prefixes_self].
    by rewrite Hdirs.
Qed.

(** ** The expansion of a directory spec *)

Lemma snoc_ne_prefix (repo : path) c c' x q :
  q ∈ prefixes (repo ++ [c']) → q ≠ (repo ++ [c]) ++ [x].
Proof.
  intros Hq%prefixes_length ->. rewrite !length_app in Hq. simpl in Hq. lia.
Qed.

Lemma readme_ne_gitkeep (p p' : path) : p ++ ["README.md"] ≠ p' ++ [".gitkeep"].
Proof. by intros [_ ?]%app_inj_tail. Qed.

Lemma readme_inj (repo : path) c c' :
  (repo ++ [c]) ++ ["README.md"] = (repo ++ [c']) ++ ["README.md"] → c = c'.
Proof. intros [H _]%app_inj_tail. by apply app_inj_tail in H as [_ ?]. Qed.

Lemma path_exists_mono w w' p :
  dirs w ⊆ dirs w' →
  (is_Some (files w !! p) → is_Some (files w' !! p)) →
  path_exists w p = true → path_exists w' p = true.
Proof.
  unfold path_exists, is_dir, is_file. intros Hd Hf.
  rewrite !orb_true_iff, !bool_decide_eq_true.
  intros [[?|?]|?]; [by left; left | by left; right; apply Hd | right; by apply Hf].
Qed.

(** What one entry does, in the form used below. *)
Lemma expand_entry_effect repo d desc c w :
  repo // d = repo ++ [c] →
  no_faults w →
  (∀ q, q ∈ prefixes (repo ++ [c]) → files w !! q = None) →
  (repo ++ [c]) ++ ["README.md"] ∉ dirs w →
  ∃ w', expand_entry repo (d, desc) w = (Ok tt, w')
        ∧ no_faults w' ∧ log w' = log w ∧ tmpfiles w' = tmpfiles w
        ∧ dirs w' = dirs w ∪ list_to_set (prefixes (repo ++ [c]))
        ∧ files w' !! ((repo ++ [c]) ++ ["README.md"])
          = Some (File (directory_readme d desc) mode_600)
        ∧ path_exists w' ((repo ++ [c]) ++ [".gitkeep"]) = true
        ∧ (∀ p, p ≠ (repo ++ [c]) ++ ["README.md"] →
                p ≠ (repo ++ [c]) ++ [".gitkeep"] ∨ is_Some (files w !! p) →
                files w' !! p = files w !! p).
Proof.
  intros Hd Hnf Hfree Hreadme.
  destruct (expand_entry_ok repo d desc c w Hd Hnf Hfree Hreadme)
    as (w' & Hrun & Hdirs & Hfiles & Htmp & Henv & Hlog).
  exists w'. split; [done|]. split; [by apply (no_faults_env w)|].
  split; [done|]. split; [done|]. split; [done|].
  set (rd := (repo ++ [c]) ++ ["README.md"]) in *.
  set (gk := (repo ++ [c]) ++ [".gitkeep"]) in *.
  assert (rd ≠ gk) as Hne by apply readme_ne_gitkeep.
  pose proof (path_exists_snoc w' (repo ++ [c]) ".gitkeep") as Hex. fold gk in Hex.
  unfold touched in Hfiles.
  destruct (bool_decide (gk ∈ dirs w') || bool_decide _) eqn:Hc.
  - rewrite Hfiles. split; [by rewrite lookup_insert_eq|]. split.
    + rewrite Hex, Hfiles.
      apply orb_true_iff in Hc as [Hc|Hc]; apply orb_true_iff; [by left | by right].
    + intros p Hp _. by rewrite lookup_insert_ne.
  - rewrite Hfiles. split; [by rewrite lookup_insert_ne, lookup_insert_eq|]. split.
    + rewrite Hex, Hfiles.
      apply orb_true_iff. right. apply bool_decide_eq_true.
      rewrite lookup_insert_eq. by eexists.
    + intros p Hp Hgk. apply orb_false_iff in Hc as [_ Hc].
      apply bool_decide_eq_false in Hc. rewrite lookup_insert_ne in Hc by done.
      destruct (decide (p = gk)) as [->|Hpg].
      * by destruct Hgk.
      * by rewrite !lookup_insert_ne.
Qed.

Lemma simple_entry repo (e : string * string) :
  simple_name e.1 = true → ∃ c, repo // e.1 = repo ++ [c] ∧ components e.1 = [c].
Proof. apply path_div_simple. Qed.

(** An entry that is run puts itself in place. *)
Lemma expand_entry_in_place repo e w :
  simple_name e.1 = true →
  no_faults w →
  (∀ q, q ∈ prefixes (repo // e.1) → files w !! q = None) →
  (repo // e.1 // "README.md") ∉ dirs w →
  ∃ w', expand_entry repo e w = (Ok tt, w')
        ∧ no_faults w' ∧ log w' = log w ∧ tmpfiles w' = tmpfiles w
        ∧ in_place repo w' e
        ∧ (∀ e0, simple_name e0.1 = true → components e0.1 ≠ components e.1 →
                 in_place repo w e0 → in_place repo w' e0)
        ∧ (∀ rest, expandable rest repo w →
                   Forall (fun e => simple_name e.1 = true) rest →
                   expandable rest repo w').
Proof.
  intros Hsimple Hnf Hfree Hreadme.
  destruct (simple_entry repo e Hsimple) as (c & Hd & Hc).
  destruct e as [d desc]. cbn [fst snd] in *.
  rewrite Hd, path_div_readme in *.
  destruct (expand_entry_effect repo d desc c w Hd Hnf Hfree Hreadme)
    as (w' & Hrun & Hnf' & Hlog & Htmp & Hdirs & Hrd & Hgk & Hframe).
  exists w'. repeat (split; [done|]). split; [|split].
  - unfold in_place. cbn [fst snd]. rewrite Hd, path_div_readme, path_div_gitkeep.
    split; [|split; [done|split; [done|]]].
    + intros q Hq. split.
      * rewrite Hdirs. apply elem_of_union. right. by apply elem_of_list_to_set.
      * rewrite Hframe; [by apply Hfree | by eapply snoc_ne_prefix |].
        left. by eapply snoc_ne_prefix.
    + rewrite Hdirs. apply not_elem_of_union. split; [done|].
      rewrite elem_of_list_to_set. intros Hq. by eapply snoc_ne_prefix.
  - intros [d0 desc0] Hs0 Hne (Hpre0 & Hrd0 & Hgk0 & Hnd0). cbn [fst snd] in *.
    destruct (simple_entry repo (d0, desc0) Hs0) as (c0 & Hd0 & Hc0). cbn [fst snd] in *.
    unfold in_place. cbn [fst snd].
    rewrite Hd0, path_div_readme, path_div_gitkeep in *.
    assert (c0 ≠ c) as Hcc by congruence.
    split; [|split; [|split]].
    + intros q Hq. destruct (Hpre0 q Hq) as [Hqd Hqf]. split.
      * rewrite Hdirs. apply elem_of_union. by left.
      * rewrite Hframe; [done | by eapply snoc_ne_prefix |].
        left. by eapply snoc_ne_prefix.
    + rewrite Hframe; [done | | by right; rewrite Hrd0].
      intros Heq. by apply readme_inj in Heq.
    + eapply path_exists_mono; [| |exact Hgk0].
      * rewrite Hdirs. apply union_subseteq_l.
      * intros Hsome. rewrite Hframe; [done | | by right].
        intros Heq. symmetry in Heq. by eapply readme_ne_gitkeep.
    + rewrite Hdirs. apply not_elem_of_union. split; [done|].
      rewrite elem_of_list_to_set. intros Hq. by eapply snoc_ne_prefix.
  - intros rest Hexp Hsimples [d0 desc0] Hin.
    destruct (Hexp _ Hin) as [Hfree0 Hnd0].
    rewrite Forall_forall in Hsimples. pose proof (Hsimples _ Hin) as Hs0.
    destruct (simple_entry repo (d0, desc0) Hs0) as (c0 & Hd0 & Hc0). cbn [fst snd] in *.
    rewrite Hd0, path_div_readme in *. split.
    + intros q Hq. rewrite Hframe; [by apply Hfree0 | by eapply snoc_ne_prefix |].
      left. by eapply snoc_ne_prefix.
    + rewrite Hdirs. apply not_elem_of_union. split; [done|].
      rewrite elem_of_list_to_set. intros Hq. by eapply snoc_ne_prefix.
Qed.

Lemma for_each_expand repo spec w :
  simple_spec spec → no_faults w → expandable spec repo w →
  ∃ w', for_each spec (expand_entry repo) w = (Ok tt, w')
        ∧ no_faults w' ∧ log w' = log w ∧ tmpfiles w' = tmpfiles w
        ∧ (∀ e0, simple_name e0.1 = true →
                 components e0.1 ∉ map (fun e => components e.1) spec →
                 in_place repo w e0 → in_place repo w' e0)
        ∧ (∀ e, e ∈ spec → in_place repo w' e).
Proof.
  revert w. induction spec as [|e rest IH]; intros w [Hsimple Hnodup] Hnf Hexp.
  - exists w. split; [done|]. split; [done|]. split; [done|]. split; [done|].
    split; [done|]. by intros e ?%elem_of_nil.
  - apply Forall_cons in Hsimple as [Hs Hsimple].
    simpl in Hnodup. apply NoDup_cons in Hnodup as [Hnotin Hnodup].
    destruct (Hexp e) as [Hfree Hreadme]; [by left|].
    destruct (expand_entry_in_place repo e w Hs Hnf Hfree Hreadme)
      as (w1 & Hrun & Hnf1 & Hlog1 & Htmp1 & Hplace & Hkeep & Hexp1).
    destruct (IH w1) as (w' & Hrest & Hnf' & Hlog' & Htmp' & Hkeep' & Hplaces).
    { by split. }
    { done. }
    { apply Hexp1; [|done]. intros e' He'. apply Hexp. by right. }
    exists w'. split; [simpl; by rewrite (bind_ok _ _ _ _ _ Hrun)|].
    split; [done|]. split; [congruence|]. split; [congruence|]. split.
    + intros e0 Hs0 Hnotin0 Hin0. simpl in Hnotin0.
      apply not_elem_of_cons in Hnotin0 as [Hne0 Hnotin0].
      apply Hkeep'; [done | done |]. by apply Hkeep.
    + intros e' [->|He']%elem_of_cons; [|by apply Hplaces].
      by apply Hkeep'.
Qed.

Lemma in_place_ext repo w w' e :
  dirs w' = dirs w → files w' = files w → in_place repo w e → in_place repo w' e.
Proof.
  intros Hd Hf. unfold in_place, path_exists, is_dir, is_file. by rewrite Hd, Hf.
Qed.

(** An entry that is in place is left as it is. *)
Lemma expand_entry_noop repo e w :
  simple_name e.1 = true → no_faults w → in_place repo w e →
  ∃ w', expand_entry repo e w = (Ok tt, w')
        ∧ no_faults w' ∧ log w' = log w ∧ tmpfiles w' = tmpfiles w
        ∧ dirs w' = dirs w ∧ files w' = files w.
Proof.
  intros Hsimple Hnf (Hpre & Hrd & Hgk & Hnd).
  destruct (simple_entry repo e Hsimple) as (c & Hd & Hc).
  destruct e as [d desc]. cbn [fst snd] in *.
  rewrite Hd, path_div_readme, path_div_gitkeep in *.
  destruct (expand_entry_ok repo d desc c w Hd Hnf) as
    (w' & Hrun & Hdirs & Hfiles & Htmp & Henv & Hlog);
    [intros q Hq; apply (Hpre q Hq) | done |].
  assert (dirs w' = dirs w) as Hdirs'.
  { rewrite Hdirs, (comm_L (∪)). apply subseteq_union_1_L.
    intros q Hq%elem_of_list_to_set.
    by apply Hpre. }
  exists w'. split; [done|]. split; [by apply (no_faults_env w)|].
  repeat (split; [done|]).
  rewrite Hfiles. unfold touched. rewrite insert_id by done.
  rewrite path_exists_snoc in Hgk. by rewrite Hdirs', Hgk.
Qed.

Lemma for_each_noop repo spec w :
  Forall (fun e => simple_name e.1 = true) spec → no_faults w →
  (∀ e, e ∈ spec → in_place repo w e) →
  ∃ w', for_each spec (expand_entry repo) w = (Ok tt, w')
        ∧ no_faults w' ∧ log w' = log w ∧ tmpfiles w' = tmpfiles w
        ∧ dirs w' = dirs w ∧ files w' = files w.
Proof.
  revert w. induction spec as [|e rest IH]; intros w Hsimple Hnf Hplaces.
  - by exists w.
  - apply Forall_cons in Hsimple as [Hs Hsimple].
    destruct (expand_entry_noop repo e w Hs Hnf) as
      (w1 & Hrun & Hnf1 & Hlog1 & Htmp1 & Hdirs1 & Hfiles1); [apply Hplaces; by left|].
    destruct (IH w1 Hsimple Hnf1) as (w' & Hrest & Hnf' & Hlog' & Htmp' & Hdirs' & Hfiles').
    { intros e' He'. apply (in_place_ext repo w); [done | done |]. apply Hplaces. by right. }
    exists w'. split; [simpl; by rewrite (bind_ok _ _ _ _ _ Hrun)|].
    split; [done|]. repeat split; congruence.
Qed.

Lemma errors_info l s : errors (l ++ [(INFO, s)]) = errors l.
Proof. unfold errors. rewrite omap_app. simpl. by rewrite app_nil_r. Qed.

(** The expansion of a simple spec: the first run puts every entry in
    place and the second run changes nothing. *)
Lemma expand_twice spec repo w :
  simple_spec spec → no_faults w → expandable spec repo w →
  let once := (expand spec repo w).2 in
  let twice := (expand spec repo once).2 in
  (expand spec repo w).1 = Ok tt
  ∧ (expand spec repo once).1 = Ok tt
  ∧ dirs twice = dirs once
  ∧ files twice = files once
  ∧ tmpfiles twice = tmpfiles once
  ∧ (∀ e, e ∈ spec → in_place repo once e)
  ∧ errors (log twice) = errors (log w).
Proof.
  intros Hspec Hnf Hexp.
  set (w0 := add_log INFO "Creating recommended subdirectory structure" w).
  destruct (for_each_expand repo spec w0 Hspec) as
    (w1 & Hrun1 & Hnf1 & Hlog1 & Htmp1 & _ & Hplaces); [done | done |].
  assert (expand spec repo w
          = (Ok tt, add_log INFO "Created recommended subdirectory structure" w1)) as Hfirst.
  { unfold expand, expand_try, try_except. unfold bind at 1. unfold logger_info at 1, modify.
    fold w0. by rewrite (bind_ok _ _ _ _ _ Hrun1). }
  rewrite Hfirst. cbn [fst snd].
  set (once := add_log INFO "Created recommended subdirectory structure" w1).
  set (w2 := add_log INFO "Creating recommended subdirectory structure" once).
  destruct (for_each_noop repo spec w2 (proj1 Hspec)) as
    (w3 & Hrun3 & Hnf3 & Hlog3 & Htmp3 & Hdirs3 & Hfiles3); [done | |].
  { intros e He. apply (in_place_ext repo w1); [done | done |]. by apply Hplaces. }
  assert (expand spec repo once
          = (Ok tt, add_log INFO "Created recommended subdirectory structure" w3)) as Hsecond.
  { unfold expand, expand_try, try_except. unfold bind at 1. unfold logger_info at 1, modify.
    fold w2. by rewrite (bind_ok _ _ _ _ _ Hrun3). }
  rewrite Hsecond. cbn [fst snd].
  split; [done|]. split; [done|]. split; [done|]. split; [done|]. split; [done|].
  split.
  - intros e He. apply (in_place_ext repo w1); [done | done |]. by apply Hplaces.
  - simpl. rewrite errors_info, Hlog3. simpl. rewrite errors_info. simpl.
    rewrite errors_info, Hlog1. simpl. by rewrite errors_info.
Qed.

Lemma subdirectories_simple : simple_spec subdirectories.
Proof.
  split.
  - unfold subdirectories. repeat constructor.
  - apply (bool_decide_unpack _). by vm_compute.
Qed.

(** ** Rendered texts *)

Lemma same_writes_logger_info s : preserves same_writes (logger_info s).
Proof. unfold logger_info. solve_preserves. Qed.

Lemma same_writes_logger_error s : preserves same_writes (logger_error s).
Proof. unfold logger_error. solve_preserves. Qed.

Lemma same_writes_mkdir p : preserves same_writes (mkdir_parents_exist_ok p).
Proof. unfold mkdir_parents_exist_ok. solve_preserves. Qed.

Lemma same_writes_NamedTemporaryFile : preserves same_writes NamedTemporaryFile.
Proof. unfold NamedTemporaryFile. solve_preserves. Qed.

Lemma same_writes_temp_close n : preserves same_writes (temp_close n).
Proof. unfold temp_close. solve_preserves. Qed.

Lemma same_writes_os_unlink_tmp n : preserves same_writes (os_unlink_tmp n).
Proof. unfold os_unlink_tmp, os_path_exists_tmp. solve_preserves. Qed.

Lemma same_writes_os_rename_tmp n dst : preserves same_writes (os_rename_tmp n dst).
Proof. unfold os_rename_tmp. solve_preserves. Qed.

Lemma same_writes_shutil_copy2_tmp n dst : preserves same_writes (shutil_copy2_tmp n dst).
Proof. unfold shutil_copy2_tmp. solve_preserves. Qed.

#[local] Hint Resolve same_writes_logger_info same_writes_logger_error same_writes_mkdir
  same_writes_NamedTemporaryFile same_writes_temp_close same_writes_os_unlink_tmp
  same_writes_os_rename_tmp same_writes_shutil_copy2_tmp : py.

Lemma same_writes_shutil_move_tmp n dst : preserves same_writes (shutil_move_tmp n dst).
Proof. unfold shutil_move_tmp. solve_preserves. Qed.

Lemma same_writes_touch p : preserves same_writes (touch p).
Proof. unfold touch. solve_preserves. Qed.

Lemma same_writes_os_chmod p mode : preserves same_writes (os_chmod p mode).
Proof. unfold os_chmod. solve_preserves. Qed.

#[local] Hint Resolve same_writes_shutil_move_tmp same_writes_touch same_writes_os_chmod : py.

Lemma renders_nothing {A} (m : M A) : preserves same_writes m → renders [] m.
Proof.
  intros Hm w. specialize (Hm w). unfold same_writes in Hm.
  destruct (m w) as [[a|e] w']; simpl in *; rewrite Hm.
  - by rewrite app_nil_r.
  - exists []. by rewrite app_nil_r.
Qed.

Lemma renders_bind {A B} L1 L2 (m : M A) (k : A → M B) :
  renders L1 m → (∀ a, renders L2 (k a)) → renders (L1 ++ L2) (bind m k).
Proof.
  intros Hm Hk w. unfold bind. specialize (Hm w).
  destruct (m w) as [[a|e] w1].
  - specialize (Hk a w1). destruct (k a w1) as [[b|e] w2].
    + by rewrite Hk, Hm, app_assoc.
    + destruct Hk as (k2 & Hw & Hpre). exists (L1 ++ k2).
      split; [by rewrite Hw, Hm, app_assoc | by apply prefix_app].
  - destruct Hm as (k1 & Hw & Hpre). exists k1. split; [done|].
    by apply prefix_app_r.
Qed.

Lemma renders_seq_nothing {A B} L (m : M A) (k : A → M B) :
  preserves same_writes m → (∀ a, renders L (k a)) → renders L (bind m k).
Proof.
  intros Hm Hk. apply (renders_bind [] L); [by apply renders_nothing | done].
Qed.

Lemma renders_then_nothing {A B} L (m : M A) (k : A → M B) :
  renders L m → (∀ a, preserves same_writes (k a)) → renders L (bind m k).
Proof.
  intros Hm Hk. rewrite <- (app_nil_r L). apply renders_bind; [done|].
  intros a. by apply renders_nothing.
Qed.

Lemma renders_lift_bind {B} (r : res string) (L : string → list string) (k : string → M B) :
  (∀ s, renders (L s) (k s)) →
  renders (match r with Ok s => L s | Raise _ => [] end) (bind (lift r) k).
Proof.
  intros Hk w. unfold bind, lift. destruct r as [s|e]; [apply Hk|].
  exists []. by rewrite app_nil_r.
Qed.

(** A handler that cleans up and re-raises. *)
Lemma renders_try_reraise {A} L (m : M A) (h : exc → M A) :
  renders L m →
  (∀ e w, ∃ e' w', h e w = (Raise e', w') ∧ writes (trace w') = writes (trace w)) →
  renders L (try_except m h).
Proof.
  intros Hm Hh w. unfold try_except. specialize (Hm w).
  destruct (m w) as [[a|e] w1]; [done|].
  destruct (Hh e w1) as (e' & w' & -> & Hw). by rewrite Hw.
Qed.

Lemma renders_temp_write n s : renders [s] (temp_write n s).
Proof.
  intros w. unfold temp_write, perform, bind, modify, raise. simpl.
  destruct (oracle _ _ _); simpl; rewrite writes_snoc; simpl; [|done].
  by exists [s].
Qed.

Lemma cleanup_reraises n e w :
  ∃ e' w', (ex <- os_path_exists_tmp n ;;
            (if ex then os_unlink_tmp n else ret tt) ;;
            raise (A := unit) e) w = (Raise e', w')
           ∧ writes (trace w') = writes (trace w).
Proof.
  unfold bind at 1. unfold os_path_exists_tmp at 1, get.
  destruct (bool_decide _).
  - pose proof (same_writes_os_unlink_tmp n w) as Hu. unfold same_writes in Hu.
    unfold bind. destruct (os_unlink_tmp n w) as [[[]|e'] w']; simpl in *; by eexists _, _.
  - unfold bind, ret, raise. by eexists _, _.
Qed.

Lemma renders_atomic_write_with L target fill :
  (∀ n, renders L (fill n)) → renders L (atomic_write_with target fill).
Proof.
  intros Hfill. unfold atomic_write_with.
  apply renders_seq_nothing; [apply same_writes_NamedTemporaryFile|]. intros n.
  apply renders_try_reraise; [|intros e w; apply cleanup_reraises].
  apply renders_then_nothing; [apply Hfill|]. intros _. solve_preserves.
Qed.

Lemma renders_atomic_write target s : renders [s] (atomic_write target s).
Proof. apply renders_atomic_write_with. intros n. apply renders_temp_write. Qed.

Lemma renders_expand_entry repo e :
  renders [directory_readme e.1 e.2] (expand_entry repo e).
Proof.
  destruct e as [d desc]. unfold expand_entry. cbn [fst snd].
  apply renders_seq_nothing; [apply same_writes_mkdir|]. intros _.
  rewrite fstring_directory_readme.
  apply (renders_lift_bind (Ok _) (fun s => [s])). intros s.
  apply renders_then_nothing; [apply renders_atomic_write|]. intros _.
  apply same_writes_touch.
Qed.

Lemma renders_for_each {A} (f : A → list string) (l : list A) (body : A → M unit) :
  (∀ x, renders (f x) (body x)) → renders (concat (map f l)) (for_each l body).
Proof.
  intros Hb. induction l as [|x l IH]; simpl.
  - apply renders_nothing, preserves_ret. apply _.
  - apply renders_bind; [apply Hb | intros _; exact IH].
Qed.

Lemma dashboard_config_reading cfg w :
  dashboard_config cfg w
  = (dashboard_config_at cfg (clock (env w) (tick w)),
     match dashboard_config_at cfg (clock (env w) (tick w)) with
     | Ok _ => advance w
     | Raise _ => w
     end).
Proof.
  unfold dashboard_config_at, dashboard_config, bind, lift, datetime_now_isoformat, ret.
  repeat (destruct (cfg_get cfg _ _); [|done]). done.
Qed.

Lemma concat_singletons {A B} (f : A → B) (l : list A) :
  concat (map (fun x => [f x]) l) = map f l.
Proof. induction l as [|x l IH]; simpl; [done | by rewrite IH]. Qed.

(** * Footprints and outcomes, whatever fails

    The lemmas above describe runs in which nothing fails.  The ones below
    hold for every oracle: what a computation can change at most
    ([within]), and what a computation that returned has done. *)

#[local] Instance within_preorder D F : PreOrder (within D F).
Proof.
  split.
  - intros w. split; [done|]. split; [done|]. split; [by left | done].
  - intros w1 w2 w3 (He1 & Hs1 & Hd1 & Hf1) (He2 & Hs2 & Hd2 & Hf2).
    split; [congruence|]. split; [by etrans|]. split.
    + intros q Hq. destruct (Hd2 q Hq) as [?|?]; [by apply Hd1 | by right].
    + intros p Hp. by rewrite Hf2, Hf1.
Qed.

Lemma within_mono D F D' F' w w' :
  D ⊆ D' → F ⊆ F' → within D F w w' → within D' F' w w'.
Proof.
  intros HD HF (He & Hs & Hd & Hf). split; [done|]. split; [done|]. split.
  - intros q Hq. destruct (Hd q Hq) as [?|?]; [by left | right; by apply HD].
  - intros p Hp. apply Hf. intros Hin. apply Hp. by apply HF.
Qed.

Lemma within_same D F w w' :
  env w' = env w → dirs w' = dirs w → files w' = files w → within D F w w'.
Proof.
  intros He Hd Hf. split; [done|]. rewrite Hd, Hf.
  split; [done|]. split; [by left | done].
Qed.

Lemma within_perform D F o : preserves (within D F) (perform o).
Proof. intros w. by apply within_same. Qed.

Lemma within_modify D F (f : World → World) :
  (∀ w, within D F w (f w)) → preserves (within D F) (modify f).
Proof. intros H w. apply H. Qed.

Lemma within_set_files D F p x w : p ∈ F → within D F w (set_files (<[p := x]> (files w)) w).
Proof.
  intros Hp. split; [done|]. split; [done|]. split; [by left|].
  intros q Hq. simpl. apply lookup_insert_ne. by intros ->.
Qed.

Ltac step_within :=
  match goal with
  | |- preserves _ (bind _ _) => apply preserves_bind; [apply _ | | intros ?]
  | |- preserves _ (try_except _ _) => apply preserves_try; [apply _ | | intros ?]
  | |- preserves _ (try_except_OSError _ _) => apply preserves_try_OSError; [apply _ | | ]
  | |- preserves _ (ret _) => apply preserves_ret; apply _
  | |- preserves _ (raise _) => apply preserves_raise; apply _
  | |- preserves _ (lift _) => apply preserves_lift; apply _
  | |- preserves _ (get _) => apply preserves_get; apply _
  | |- preserves (within _ _) (perform _) => apply within_perform
  | |- preserves (within _ _) (attempt _) => unfold attempt
  | |- preserves (within _ _) (modify _) =>
      apply within_modify; intros ?;
      first [ by apply within_same | by apply within_set_files ]
  | |- preserves _ (match ?x with _ => _ end) => destruct x
  | |- preserves _ (if ?x then _ else _) => destruct x
  | |- preserves _ (let _ := _ in _) => simpl
  end.

Lemma within_temp D F :
  preserves (within D F) NamedTemporaryFile
  ∧ (∀ n s, preserves (within D F) (temp_write n s))
  ∧ (∀ n, preserves (within D F) (temp_close n))
  ∧ (∀ n, preserves (within D F) (os_path_exists_tmp n))
  ∧ (∀ n, preserves (within D F) (os_unlink_tmp n)).
Proof.
  split; [|split; [|split; [|split]]]; intros;
    unfold NamedTemporaryFile, temp_write, temp_close, os_unlink_tmp, os_path_exists_tmp;
    repeat step_within.
Qed.

Lemma within_mkdir D F p :
  prefixes p ⊆ D → preserves (within D F) (mkdir_parents_exist_ok p).
Proof.
  intros HD. unfold mkdir_parents_exist_ok. repeat step_within.
  apply within_modify. intros w. split; [done|]. split; [apply union_subseteq_l|].
  split; [|done]. simpl. intros q [?|Hq%elem_of_list_to_set]%elem_of_union; [by left|].
  right. by apply HD.
Qed.

Lemma within_rename D F n dst : dst ∈ F → preserves (within D F) (os_rename_tmp n dst).
Proof.
  intros HF. unfold os_rename_tmp. repeat step_within.
Qed.

Lemma within_copy D F n dst : dst ∈ F → preserves (within D F) (shutil_copy2_tmp n dst).
Proof.
  intros HF. unfold shutil_copy2_tmp. repeat step_within.
Qed.

Lemma within_touch D F p : p ∈ F → preserves (within D F) (touch p).
Proof.
  intros HF. unfold touch. repeat step_within.
Qed.

Lemma within_move D F n T w :
  T ∈ F → is_dir w T = false → within D F w (shutil_move_tmp n T w).2.
Proof.
  intros HF Hdir. unfold shutil_move_tmp.
  unfold bind at 1. unfold get at 1. cbn [fst snd id]. rewrite Hdir.
  unfold bind at 1, ret at 1.
  assert (preserves (within D F)
            (TRY os_rename_tmp n T EXCEPT_OSError => shutil_copy2_tmp n T ;; os_unlink_tmp n))
    as H; [|apply H].
  apply preserves_try_OSError; [apply _ | by apply within_rename |].
  apply preserves_bind; [apply _ | by apply within_copy |]. intros _. apply within_temp.
Qed.

Lemma within_is_dir D F w w' p :
  within D F w w' → p ∉ D → is_dir w' p = is_dir w p.
Proof.
  intros (_ & Hs & Hd & _) Hp. unfold is_dir. f_equal.
  apply bool_decide_ext. split; [|apply Hs].
  intros Hq. by destruct (Hd p Hq).
Qed.

Lemma within_atomic_write D F T content w :
  T ∈ F → T ∉ D → is_dir w T = false → within D F w (atomic_write T content w).2.
Proof.
  intros HF HD Hdir. unfold atomic_write, atomic_write_with.
  destruct (within_temp D F) as (Hcreate & Hwrite & Hclose & Hexists & Hunlink).
  unfold bind at 1. pose proof (Hcreate w) as H1.
  destruct (NamedTemporaryFile w) as [[n|e] w1]; cbn [fst snd] in *; [|done].
  etrans; [exact H1|].
  assert (is_dir w1 T = false) as Hdir1 by by rewrite (within_is_dir D F w w1).
  clear H1 Hdir. revert w1 Hdir1.
  change (∀ w1, is_dir w1 T = false →
            within D F w1
              ((TRY temp_write n content ;; temp_close n ;; shutil_move_tmp n T
                EXCEPT e => ex <- os_path_exists_tmp n ;;
                            (if ex then os_unlink_tmp n else ret tt) ;; raise e) w1).2).
  intros w1 Hdir1. unfold try_except.
  assert (within D F w1 ((temp_write n content ;; temp_close n ;; shutil_move_tmp n T) w1).2)
    as Hbody.
  { unfold bind at 1. pose proof (Hwrite n content w1) as H2.
    destruct (temp_write n content w1) as [[[]|e] w2]; cbn [fst snd] in *; [|done].
    etrans; [exact H2|]. unfold bind. pose proof (Hclose n w2) as H3.
    destruct (temp_close n w2) as [[[]|e] w3]; cbn [fst snd] in *; [|done].
    etrans; [exact H3|]. apply within_move; [done|].
    rewrite (within_is_dir D F w2 w3), (within_is_dir D F w1 w2); done. }
  destruct ((temp_write n content ;; temp_close n ;; shutil_move_tmp n T) w1)
    as [[[]|e] w4]; cbn [fst snd] in *; [done|].
  etrans; [exact Hbody|].
  assert (preserves (within D F)
            (ex <- os_path_exists_tmp n ;;
             (if ex then os_unlink_tmp n else ret tt) ;; raise (A := unit) e)) as H;
    [|apply H].
  repeat step_within; auto.
Qed.



Lemma mkdir_inv p w w' :
  mkdir_parents_exist_ok p w = (Ok tt, w') →
  dirs w' = dirs w ∪ list_to_set (prefixes p)
  ∧ files w' = files w
  ∧ (∀ q, q ∈ prefixes p → files w !! q = None).
Proof.
  unfold mkdir_parents_exist_ok, attempt, perform, bind, get, modify, ret, raise.
  run. destruct (oracle _ _ _); run; [no_run|].
  norm_fs w. destruct (is_file w p); run; [no_run|].
  destruct (existsb _ (prefixes p)) eqn:Hex; run; [no_run|].
  change (existsb (is_file w) (prefixes p) = false) in Hex.
  intros [= <-]. split; [done|]. split; [done|].
  intros q Hq. destruct (files w !! q) eqn:Hf; [|done].
  assert (existsb (is_file w) (prefixes p) = true) as Hc; [|congruence].
  apply existsb_exists. exists q. split; [by apply list_elem_of_In|].
  unfold is_file. rewrite Hf. by apply bool_decide_eq_true.
Qed.

Lemma touch_inv p w w' : touch p w = (Ok tt, w') → path_exists w' p = true.
Proof.
  unfold touch, attempt, perform, bind, get, modify, ret, raise.
  run. destruct (oracle _ _ _); run; [no_run|].
  norm_fs w. destruct (is_dir w (parent p)); run; [|no_run].
  unfold path_exists. norm_fs w.
  destruct (is_dir w p || is_file w p) eqn:Hex; run; intros [= <-].
  - by norm_fs w.
  - apply orb_true_iff. right. unfold is_file. simpl.
    apply bool_decide_eq_true. rewrite lookup_insert_eq. by eexists.
Qed.

Lemma move_inv n T f w w' :
  shutil_move_tmp n T w = (Ok tt, w') →
  is_dir w T = false → tmpfiles w !! n = Some f →
  files w' !! T = Some f.
Proof.
  intros Hrun Hdir Htmp. revert Hrun.
  unfold shutil_move_tmp, os_rename_tmp, shutil_copy2_tmp, os_unlink_tmp,
    os_path_exists_tmp, try_except_OSError, attempt, perform, bind, get, modify,
    ret, raise.
  run3. rewrite Hdir. run3.
  repeat first [ rewrite Hdir | rewrite Htmp | progress norm_fs w | progress run3
               | case_match ];
    intros; simplify_eq; simpl; rewrite ?lookup_insert_eq; try done;
    simpl in *; congruence.
Qed.

Lemma atomic_write_inv T content w w' :
  atomic_write T content w = (Ok tt, w') → is_dir w T = false →
  files w' !! T = Some (File content mode_600).
Proof.
  intros Hrun Hdir. revert Hrun.
  unfold atomic_write, atomic_write_with, NamedTemporaryFile, temp_write, temp_close,
    os_path_exists_tmp, os_unlink_tmp,
    try_except, attempt, perform, bind, get, modify, ret, raise, append_tmp.
  run4. destruct (oracle _ _ _); run4; [no_run|].
  set (n := fresh (dom (tmpfiles w))).
  destruct (oracle _ _ _); run4; [repeat (case_match; run4); no_run|].
  destruct (oracle _ _ _); run4; [repeat (case_match; run4); no_run|].
  match goal with
  | |- context [shutil_move_tmp n T ?w3] =>
      destruct (shutil_move_tmp n T w3) as [[[]|e] w4] eqn:Hmove
  end; run4; [|repeat (case_match; run4); no_run].
  intros [= <-]. eapply move_inv; [exact Hmove | done |].
  simpl. by rewrite tmp_lookup.
Qed.

(** ** Entries of a spec, whatever fails *)

Lemma under_entry_inj (repo : path) (a b : string) (rest : path) :
  (repo ++ [a]) `prefix_of` ((repo ++ [b]) ++ rest) → a = b.
Proof.
  intros [k Hk]. rewrite <- !app_assoc in Hk. apply app_inv_head in Hk.
  simpl in Hk. by simplify_eq.
Qed.

Lemma expand_entry_within repo d desc c w :
  repo // d = repo ++ [c] →
  (repo ++ [c]) ++ ["README.md"] ∉ dirs w →
  within (prefixes (repo ++ [c]))
    [(repo ++ [c]) ++ ["README.md"]; (repo ++ [c]) ++ [".gitkeep"]]
    w (expand_entry repo (d, desc) w).2.
Proof.
  intros Hd Hreadme. unfold expand_entry. rewrite Hd, path_div_readme, path_div_gitkeep.
  set (dp := repo ++ [c]) in *.
  set (D := prefixes dp). set (F := [dp ++ ["README.md"]; dp ++ [".gitkeep"]]).
  assert (dp ++ ["README.md"] ∉ D) as HnD.
  { apply not_prefix_longer. rewrite length_app. simpl. lia. }
  unfold bind at 1. pose proof (within_mkdir D F dp (reflexivity _) w) as H1.
  destruct (mkdir_parents_exist_ok dp w) as [[[]|e] w1]; cbn [fst snd] in *; [|done].
  etrans; [exact H1|].
  rewrite fstring_directory_readme. unfold bind at 1, lift. unfold bind.
  assert (is_dir w1 (dp ++ ["README.md"]) = false) as Hdir1.
  { rewrite (within_is_dir D F w w1) by done. apply is_dir_false; [by destruct dp | done]. }
  pose proof (within_atomic_write D F (dp ++ ["README.md"]) (directory_readme d desc) w1)
    as H2.
  destruct (atomic_write (dp ++ ["README.md"]) (directory_readme d desc) w1)
    as [[[]|e] w2]; cbn [fst snd] in *.
  - etrans; [apply H2; [by left | done | done]|].
    apply within_touch. by right; left.
  - apply H2; [by left | done | done].
Qed.

Lemma within_nil_dirs F w w' : within [] F w w' → dirs w' = dirs w.
Proof.
  intros (_ & Hs & Hd & _). apply set_eq. intros q. split; [|apply Hs].
  intros Hq. destruct (Hd q Hq) as [?|?%elem_of_nil]; done.
Qed.

Lemma expand_entry_inv repo d desc c w w' :
  repo // d = repo ++ [c] →
  (repo ++ [c]) ++ ["README.md"] ∉ dirs w →
  expand_entry repo (d, desc) w = (Ok tt, w') →
  in_place repo w' (d, desc).
Proof.
  intros Hd Hreadme. unfold expand_entry, in_place. cbn [fst snd].
  rewrite Hd, path_div_readme, path_div_gitkeep.
  set (dp := repo ++ [c]) in *.
  assert (dp ++ ["README.md"] ∉ prefixes dp) as HnD.
  { apply not_prefix_longer. rewrite length_app. simpl. lia. }
  unfold bind at 1.
  destruct (mkdir_parents_exist_ok dp w) as [[[]|e] w1] eqn:Hmk; [|no_run].
  apply mkdir_inv in Hmk as (Hdirs1 & Hfiles1 & Hfree).
  rewrite fstring_directory_readme. unfold bind at 1, lift. unfold bind.
  assert (dp ++ ["README.md"] ∉ dirs w1) as Hreadme1.
  { rewrite Hdirs1. apply not_elem_of_union. split; [done|].
    by rewrite elem_of_list_to_set. }
  assert (is_dir w1 (dp ++ ["README.md"]) = false) as Hdir1.
  { apply is_dir_false; [by destruct dp | done]. }
  pose proof (within_atomic_write [] [dp ++ ["README.md"]] (dp ++ ["README.md"])
                (directory_readme d desc) w1) as H2.
  destruct (atomic_write (dp ++ ["README.md"]) (directory_readme d desc) w1)
    as [[[]|e] w2] eqn:Haw; cbn [fst snd] in *; [|no_run].
  apply atomic_write_inv in Haw; [|done].
  specialize (H2 (list_elem_of_here _ _) (not_elem_of_nil _) Hdir1).
  pose proof (within_touch [] [dp ++ [".gitkeep"]] (dp ++ [".gitkeep"])
                (list_elem_of_here _ _) w2) as H3.
  intros Htouch. rewrite Htouch in H3. cbn [fst snd] in H3.
  apply touch_inv in Htouch.
  pose proof (within_nil_dirs _ _ _ H2) as Hdirs2.
  pose proof (within_nil_dirs _ _ _ H3) as Hdirs3.
  destruct H2 as (_ & _ & _ & Hf2). destruct H3 as (_ & _ & _ & Hf3).
  split; [|split; [|split; [done|]]].
  - intros q Hq. split.
    + rewrite Hdirs3, Hdirs2, Hdirs1. apply elem_of_union. right.
      by apply elem_of_list_to_set.
    + rewrite Hf3, Hf2, Hfiles1; [by apply Hfree | |].
      * apply not_elem_of_cons. split; [|apply not_elem_of_nil].
        intros ->. done.
      * apply not_elem_of_cons. split; [|apply not_elem_of_nil].
        intros ->. revert Hq. apply not_prefix_longer. rewrite length_app. simpl. lia.
  - rewrite Hf3; [done|].
    apply not_elem_of_cons. split; [apply readme_ne_gitkeep | apply not_elem_of_nil].
  - by rewrite Hdirs3, Hdirs2.
Qed.

(** An entry that is in place stays in place when the world changes only
    inside the footprint of other entries. *)
Lemma in_place_within repo D F w w' e c :
  repo // e.1 = repo ++ [c] →
  within D F w w' →
  (∀ q, q ∈ prefixes (repo ++ [c]) → q ∉ F) →
  (repo ++ [c]) ++ ["README.md"] ∉ F →
  (repo ++ [c]) ++ [".gitkeep"] ∉ F →
  (repo ++ [c]) ++ ["README.md"] ∉ D →
  in_place repo w e → in_place repo w' e.
Proof.
  intros Hd (_ & Hs & HD & HF) HpF HrF HgF HrD.
  unfold in_place. rewrite Hd, path_div_readme, path_div_gitkeep.
  intros (Hpre & Hrd & Hgk & Hnd). split; [|split; [|split]].
  - intros q Hq. destruct (Hpre q Hq) as [Hqd Hqf]. split; [by apply Hs|].
    rewrite HF; [done | by apply HpF].
  - by rewrite HF.
  - eapply path_exists_mono; [exact Hs | | exact Hgk]. by rewrite HF.
  - intros Hq. by destruct (HD _ Hq).
Qed.

(** The footprint of a list of simple entries. *)
Lemma elem_of_spec_dirs repo (l : list (string * string)) q :
  q ∈ l ≫= entry_dirs repo ↔ ∃ x, x ∈ l ∧ q ∈ prefixes (repo // x.1).
Proof.
  rewrite list_elem_of_bind. split; intros (x & ? & ?); by exists x.
Qed.

Lemma elem_of_spec_files repo (l : list (string * string)) p :
  p ∈ l ≫= entry_files repo
  ↔ ∃ x, x ∈ l ∧ (p = repo // x.1 // "README.md" ∨ p = repo // x.1 // ".gitkeep").
Proof.
  rewrite list_elem_of_bind. unfold entry_files. split.
  - intros (x & Hp & Hx). exists x. split; [done|].
    apply elem_of_cons in Hp as [?|Hp]; [by left|].
    apply elem_of_cons in Hp as [?|Hp%elem_of_nil]; [by right | done].
  - intros (x & Hx & Hp). exists x. split; [|done].
    destruct Hp as [->| ->]; [by left | by right; left].
Qed.

(** Paths of the footprint of entries other than [c]. *)
Lemma other_entries_dirs repo (l : list (string * string)) (c x : string) q :
  Forall (fun e => simple_name e.1 = true) l →
  q ∈ l ≫= entry_dirs repo → q ≠ (repo ++ [c]) ++ [x].
Proof.
  intros Hs (y & Hy & Hq)%elem_of_spec_dirs.
  rewrite Forall_forall in Hs.
  destruct (simple_entry repo y (Hs y Hy)) as (cy & Hdy & _). rewrite Hdy in Hq.
  by eapply snoc_ne_prefix.
Qed.

Lemma other_entries_files repo (l : list (string * string)) (c : string) p :
  Forall (fun e => simple_name e.1 = true) l →
  [c] ∉ map (fun e => components e.1) l →
  p ∈ l ≫= entry_files repo →
  ¬ (repo ++ [c]) `prefix_of` p ∧ p ∉ prefixes (repo ++ [c]).
Proof.
  intros Hs Hc (y & Hy & Hp)%elem_of_spec_files.
  rewrite Forall_forall in Hs.
  destruct (simple_entry repo y (Hs y Hy)) as (cy & Hdy & Hcy).
  rewrite Hdy, path_div_readme, path_div_gitkeep in Hp.
  assert (c ≠ cy) as Hne.
  { intros ->. apply Hc. apply list_elem_of_fmap. exists y. by rewrite Hcy. }
  split.
  - intros Hpre. destruct Hp as [->| ->]; by apply under_entry_inj in Hpre.
  - destruct Hp as [->| ->]; apply not_prefix_longer; rewrite !length_app; simpl; lia.
Qed.

Lemma for_each_expand_inv repo pre w w1 :
  Forall (fun e => simple_name e.1 = true) pre →
  NoDup (map (fun e => components e.1) pre) →
  (∀ x, x ∈ pre → repo // x.1 // "README.md" ∉ dirs w) →
  for_each pre (expand_entry repo) w = (Ok tt, w1) →
  within (pre ≫= entry_dirs repo) (pre ≫= entry_files repo) w w1
  ∧ Forall (in_place repo w1) pre.
Proof.
  revert w. induction pre as [|x pre IH]; intros w Hs Hnd Hfree Hrun.
  - simpl in Hrun. unfold ret in Hrun. simplify_eq. split; [reflexivity | done].
  - apply Forall_cons in Hs as [Hx Hs]. simpl in Hnd.
    apply NoDup_cons in Hnd as [Hnotin Hnd].
    destruct (simple_entry repo x Hx) as (c & Hd & Hc). rewrite Hc in Hnotin.
    destruct x as [d desc]. cbn [fst snd] in *.
    assert ((repo ++ [c]) ++ ["README.md"] ∉ dirs w) as Hreadme.
    { specialize (Hfree (d, desc) ltac:(by left)). cbn [fst snd] in Hfree.
      by rewrite Hd, path_div_readme in Hfree. }
    cbn [for_each] in Hrun. unfold bind in Hrun.
    pose proof (expand_entry_within repo d desc c w Hd Hreadme) as Hw0.
    destruct (expand_entry repo (d, desc) w) as [[[]|e] w0] eqn:Hentry; [|done].
    cbn [fst snd] in Hw0.
    pose proof (expand_entry_inv repo d desc c w w0 Hd Hreadme Hentry) as Hplace.
    destruct (IH w0 Hs Hnd) as [Hw1 Hplaces]; [|done|].
    { intros y Hy Hin. destruct Hw0 as (_ & _ & HD & _).
      destruct (HD _ Hin) as [?|Hq]; [by eapply Hfree; [right|]|].
      rewrite Forall_forall in Hs.
      destruct (simple_entry repo y (Hs y Hy)) as (cy & Hdy & _).
      rewrite Hdy, path_div_readme in Hq. by eapply snoc_ne_prefix in Hq. }
    split.
    + etrans.
      * eapply within_mono; [| |exact Hw0].
        -- intros q Hq. apply elem_of_spec_dirs. exists (d, desc).
           split; [by left|]. cbn [fst snd]. by rewrite Hd.
        -- intros p Hp. apply elem_of_spec_files. exists (d, desc).
           split; [by left|]. cbn [fst snd]. rewrite Hd, path_div_readme, path_div_gitkeep.
           apply elem_of_cons in Hp as [?|Hp]; [by left|].
           apply elem_of_cons in Hp as [?|Hp%elem_of_nil]; [by right | done].
      * eapply within_mono; [| |exact Hw1].
        -- intros q (y & Hy & Hq)%elem_of_spec_dirs. apply elem_of_spec_dirs.
           exists y. split; [by right | done].
        -- intros p (y & Hy & Hp)%elem_of_spec_files. apply elem_of_spec_files.
           exists y. split; [by right | done].
    + apply Forall_cons. split; [|done].
      eapply (in_place_within repo _ _ w0 w1 (d, desc) c); [done | exact Hw1 | | | | | done].
      * intros q Hq Hin.
        by destruct (other_entries_files repo pre c q Hs Hnotin Hin) as [_ ?].
      * intros Hin. destruct (other_entries_files repo pre c _ Hs Hnotin Hin) as [Hpre _].
        apply Hpre. by apply prefix_app_r.
      * intros Hin. destruct (other_entries_files repo pre c _ Hs Hnotin Hin) as [Hpre _].
        apply Hpre. by apply prefix_app_r.
      * intros Hin. by eapply other_entries_dirs in Hin.
Qed.

Lemma other_entries_under repo (l : list (string * string)) (c : string) q :
  Forall (fun e => simple_name e.1 = true) l →
  [c] ∉ map (fun e => components e.1) l →
  q ∈ l ≫= entry_dirs repo → ¬ (repo ++ [c]) `prefix_of` q.
Proof.
  intros Hs Hc (y & Hy & Hq)%elem_of_spec_dirs Hpre.
  rewrite Forall_forall in Hs.
  destruct (simple_entry repo y (Hs y Hy)) as (cy & Hdy & Hcy). rewrite Hdy in Hq.
  apply elem_of_prefixes in Hq as [_ Hq].
  assert (c = cy) as ->.
  { apply (under_entry_inj repo c cy []). rewrite app_nil_r. by etrans. }
  apply Hc. apply list_elem_of_fmap. exists y. by rewrite Hcy.
Qed.

(** * The claims *)

(** C9.  Each of the five generator methods runs its [try] block and, when
    the block raises, logs the exception and returns normally; so does
    [create_main_github_repository], which never raises and returns [False]
    when its block raises.  Hence, once the repository directory exists and
    [git init] has succeeded, and as long as git itself works, whatever fails
    inside the generator methods the function goes on to attempt
    [git add], [git commit] and [git remote add], and returns [True]. *)
Theorem generators_never_propagate self cfg :
  (∀ repo,
     caught_and_logged (expand_try subdirectories repo)
       (create_recommended_subdirectory_structure repo)
       "Error creating subdirectory structure: "
     ∧ caught_and_logged (create_mobile_readme_try self cfg repo)
         (create_mobile_readme self cfg repo) "Error creating mobile README: "
     ∧ caught_and_logged (create_mobile_requirements_try repo)
         (create_mobile_requirements repo) "Error creating mobile requirements: "
     ∧ caught_and_logged (create_mobile_setup_script_try repo)
         (create_mobile_setup_script repo) "Error creating mobile setup script: "
     ∧ caught_and_logged (create_mobile_dashboard_config_try cfg repo)
         (create_mobile_dashboard_config cfg repo)
         "Error setting up mobile dashboard config: ")
  ∧ returns_normally (create_main_github_repository self cfg)
  ∧ (∀ w e w1,
       create_main_github_repository_try self cfg w = (Raise e, w1) →
       (create_main_github_repository self cfg w).1 = Ok false)
  ∧ (∀ w w1,
       git_works w →
       preamble self w = (Ok tt, w1) →
       ∃ mid,
         forallb is_fs_op mid = true
         ∧ trace (create_main_github_repository self cfg w).2
           = trace w1 ++ mid ++ vcs_ops self
         ∧ (create_main_github_repository self cfg w).1 = Ok true).
Proof.
  split; [|split; [|split]].
  - intros repo. repeat split; apply caught_and_logged_intro.
  - apply create_main_github_repository_returns.
  - intros w e w1 Htry. unfold create_main_github_repository, try_except.
    by rewrite Htry.
  - intros w w1 Hgit Hpre.
    unfold create_main_github_repository, try_except.
    rewrite create_main_github_repository_try_phases.
    rewrite (bind_ok _ _ _ _ _ Hpre).
    pose proof (preamble_trace self w) as Hw1. rewrite Hpre in Hw1.
    destruct Hw1 as [_ Henv1].
    pose proof (returns_unit _ w1 (generators_returns self cfg)) as Hgen.
    destruct (fs_only_generators self cfg w1) as [Henv2 (mid & Hmid & Hfs)].
    rewrite (bind_ok _ _ _ _ _ Hgen).
    destruct (vcs_tail_ok self (generators self cfg w1).2) as (w3 & Htail & Htr).
    { intros t args cwd. rewrite Henv2, Henv1. apply Hgit. }
    rewrite Htail. simpl. exists mid. split; [done|]. split; [|done].
    by rewrite Htr, Hmid, <- app_assoc.
Qed.

(** With a full disk every generator method fails, and the bootstrap still
    stages, commits and adds the remote. *)
Lemma generators_never_propagate_witness :
  ∃ mid,
    forallb is_fs_op mid = true
    ∧ trace (create_main_github_repository example_manager CONFIG
               (empty_world disk_full noon 0)).2
      = trace (preamble example_manager (empty_world disk_full noon 0)).2
        ++ mid ++ vcs_ops example_manager
    ∧ (create_main_github_repository example_manager CONFIG
         (empty_world disk_full noon 0)).1 = Ok true.
Proof.
  apply (proj2 (proj2 (proj2 (generators_never_propagate example_manager CONFIG)))).
  - intros t args cwd. reflexivity.
  - vm_compute. reflexivity.
Defined.

(** C7, as the specification states it, fails: in a run where nothing fails
    [git init] is the third operation and the first directory of the
    structure is made after it. *)
Lemma vcs_init_precedes_structure :
  let t := trace (create_main_github_repository example_manager CONFIG quiet_world).2 in
  t !! 2%nat = Some (OpRun git_init example_repo)
  ∧ t !! 3%nat = Some (OpMkdir (example_repo ++ ["core"]))
  ∧ artifacts_before_vcs t = false.
Proof. vm_compute. done. Qed.

Lemma preamble_git_init self w w1 :
  preamble self w = (Ok tt, w1) →
  oracle (env w) (2 + tick w) (OpRun git_init (main_repo_path self)) = None.
Proof.
  unfold preamble. run_monad.
  repeat (case_match; simpl); by intros; simplify_eq.
Qed.

Lemma vcs_tail_attempted self w :
  let o := oracle (env w) in
  trace (vcs_tail self w).2 = trace w ++ attempted o (tick w) (vcs_ops self)
  ∧ if all_succeed o (tick w) (vcs_ops self)
    then (vcs_tail self w).1 = Ok true
    else ∃ e, (vcs_tail self w).1 = Raise e.
Proof.
  unfold vcs_tail, vcs_ops. run_monad.
  destruct (oracle (env w) (tick w) _); simpl; [by eauto|].
  destruct (oracle (env w) (S (tick w)) _); simpl;
    [rewrite <- app_assoc; by eauto|].
  destruct (oracle (env w) (S (S (tick w))) _); simpl;
    rewrite <- !app_assoc; by eauto.
Qed.

(** C7, amended.  [create_main_github_repository] works in this order: it
    makes the repository directory and runs [git init]; only when these have
    succeeded ([git init] was not made to fail) it runs the five generator
    methods, which all return; only then it attempts [git add],
    [git commit] and [git remote add], in this order and each only after
    the one before it has succeeded: the commands attempted are those up to
    the first one that fails, and the result is [True] exactly when none
    fails.  When the directory or [git init] fails, no generator and no
    later command is run, and the result is [False]. *)
Theorem bootstrap_order self cfg w :
  let r := create_main_github_repository self cfg w in
  let w' := r.2 in
  (∃ e w1 pre,
     preamble self w = (Raise e, w1)
     ∧ trace w1 = trace w ++ pre ∧ pre `prefix_of` preamble_ops self
     ∧ trace w' = trace w1
     ∧ r.1 = Ok false)
  ∨ (∃ w1 w2 mid post,
       preamble self w = (Ok tt, w1)
       ∧ trace w1 = trace w ++ preamble_ops self
       ∧ succeeds_at w 2 (OpRun git_init (main_repo_path self))
       ∧ generators self cfg w1 = (Ok tt, w2)
       ∧ trace w2 = trace w1 ++ mid ∧ forallb is_fs_op mid = true
       ∧ trace w' = trace w2 ++ post
       ∧ post `prefix_of` vcs_ops self ∧ post ≠ []
       ∧ post = attempted (oracle (env w)) (tick w2) (vcs_ops self)
       ∧ r.1 = Ok (all_succeed (oracle (env w)) (tick w2) (vcs_ops self))).
Proof.
  cbn zeta. unfold create_main_github_repository, try_except.
  rewrite create_main_github_repository_try_phases.
  pose proof (preamble_trace self w) as Hpre.
  destruct (preamble self w) as [[[]|e] w1] eqn:Hp.
  - right. destruct Hpre as [Htr1 Henv1].
    rewrite (bind_ok _ _ _ _ _ Hp).
    pose proof (returns_unit _ w1 (generators_returns self cfg)) as Hgen.
    destruct (fs_only_generators self cfg w1) as [Henv2 (mid & Hmid & Hfs)].
    rewrite (bind_ok _ _ _ _ _ Hgen).
    set (w2 := (generators self cfg w1).2) in *.
    pose proof (vcs_tail_trace self w2) as Htail.
    pose proof (vcs_tail_attempted self w2) as [Hatt Hres].
    cbn zeta in Hatt, Hres. rewrite Henv2, Henv1 in Hatt, Hres.
    set (post := attempted (oracle (env w)) (tick w2) (vcs_ops self)) in *.
    set (ok := all_succeed (oracle (env w)) (tick w2) (vcs_ops self)) in *.
    exists w1, w2, mid, post.
    split; [done|]. split; [done|].
    split; [exact (preamble_git_init self w w1 Hp)|].
    split; [done|]. split; [done|]. split; [done|].
    destruct (vcs_tail self w2) as [[b|e] w3]; cbn [fst snd] in *.
    + destruct Htail as [_ Htr3]. rewrite Htr3 in Hatt.
      apply app_inv_head in Hatt. rewrite <- Hatt.
      split; [done|]. split; [done|]. split; [done|]. split; [done|].
      subst ok. destruct (all_succeed _ _ _); [done|]. by destruct Hres.
    + destruct Htail as (post' & Htr3 & Hpost & Hne). rewrite Htr3 in Hatt.
      apply app_inv_head in Hatt. rewrite <- Hatt.
      split; [done|]. split; [done|]. split; [done|]. split; [done|].
      subst ok. by destruct (all_succeed _ _ _).
  - left. destruct Hpre as (pre & Htr1 & Hprefix & _ & _).
    exists e, w1, pre. rewrite (bind_raise _ _ _ _ _ Hp). by repeat split.
Qed.

(** C10.  The port table is consistent, [TOTAL_PORTS = END_PORT - START_PORT
    + 1] with the values 8000, 8601 and 602, and these three values are what
    the dashboard configuration (the dictionary that is dumped, and the text
    of the file a run writes) and the completion report carry, in every
    world. *)
Theorem port_configuration_consistent :
  ∃ start_port end_port total_ports,
    cfg_get CONFIG "PORTS" "START_PORT" = Ok (CInt start_port)
    ∧ cfg_get CONFIG "PORTS" "END_PORT" = Ok (CInt end_port)
    ∧ cfg_get CONFIG "PORTS" "TOTAL_PORTS" = Ok (CInt total_ports)
    ∧ (start_port, end_port, total_ports) = (8000, 8601, 602)%Z
    ∧ (total_ports = end_port - start_port + 1)%Z
    ∧ (∀ w, ∃ j,
         (dashboard_config CONFIG w).1 = Ok j
         ∧ json_path ["port_range"; "start"] j = Some (JInt start_port)
         ∧ json_path ["port_range"; "end"] j = Some (JInt end_port)
         ∧ json_path ["port_range"; "total_ports"] j = Some (JInt total_ports))
    ∧ (∀ self w, ∃ r,
         (generate_mobile_completion_report self CONFIG w).1 = Ok r
         ∧ json_path ["port_allocation"; "start_port"] r = Some (JInt start_port)
         ∧ json_path ["port_allocation"; "end_port"] r = Some (JInt end_port)
         ∧ json_path ["port_allocation"; "total_ports"] r = Some (JInt total_ports))
    ∧ (∃ f,
         files (create_mobile_dashboard_config CONFIG example_repo quiet_world).2
           !! dashboard_config_path example_repo = Some f
         ∧ contains (dq +:+ "start" +:+ dq +:+ ": " +:+ pretty start_port +:+ ",")
             (f_content f) = true
         ∧ contains (dq +:+ "end" +:+ dq +:+ ": " +:+ pretty end_port +:+ ",")
             (f_content f) = true
         ∧ contains (dq +:+ "total_ports" +:+ dq +:+ ": " +:+ pretty total_ports +:+ ",")
             (f_content f) = true).
Proof.
  exists 8000%Z, 8601%Z, 602%Z.
  split; [by vm_compute|]. split; [by vm_compute|]. split; [by vm_compute|].
  split; [done|]. split; [done|]. split; [|split].
  - intros w. destruct (dashboard_config_CONFIG w) as (j & Hj & H). exists j.
    by rewrite Hj.
  - intros self w. destruct (generate_mobile_completion_report_CONFIG self w)
      as (r & Hr & H1 & H2 & H3 & _). exists r. by rewrite Hr.
  - vm_compute. eexists. split; [reflexivity|]. done.
Qed.

(** C2, as the specification states it, fails: when [git commit] exits with
    status 1 the bootstrap halts after staging (the commit is attempted, the
    remote never is, the failure is logged) and the report still says
    [main_repository_created = True]. *)
Lemma commit_failure_reported_as_created :
  let run := execute_mobile_access_setup example_manager CONFIG
               (empty_world commit_fails noon 0) in
  commands (trace run.2) = [git_init; git_add; git_commit]
  ∧ errors (log run.2)
    = ["Error creating main GitHub repository: "
       +:+ exc_str (CalledProcessError git_commit 1)]
  ∧ ∃ r, run.1 = Ok r
         ∧ json_get "main_repository_created" r = Some (JBool true)
         ∧ json_get "next_steps" r = Some next_steps.
Proof. vm_compute. split; [done|]. split; [done|]. eexists. done. Qed.

(** C2, amended.  The completion report does not depend on how far the
    bootstrap got: in every world, whatever fails and wherever the bootstrap
    halts, [execute_mobile_access_setup] returns the full report, its six
    feature flags are all [True], and [next_steps] holds its three labels. *)
Theorem report_flags_constant self w :
  ∃ r, (execute_mobile_access_setup self CONFIG w).1 = Ok r
       ∧ report_flags r = replicate 6 (Some (JBool true))
       ∧ json_get "next_steps" r = Some next_steps.
Proof.
  unfold execute_mobile_access_setup.
  unfold bind at 1. unfold logger_info at 1, modify.
  set (w0 := add_log INFO _ w). unfold try_except.
  destruct (returns_ok _ w0 (create_main_github_repository_returns self CONFIG))
    as (b & Hb).
  rewrite (bind_ok _ _ _ _ _ Hb).
  set (w1 := (create_main_github_repository self CONFIG w0).2).
  destruct (returns_ok _ w1 (generate_mobile_setup_instructions_returns self CONFIG))
    as (i & Hi).
  rewrite (bind_ok _ _ _ _ _ Hi).
  set (w2 := (generate_mobile_setup_instructions self CONFIG w1).2).
  destruct (generate_mobile_completion_report_CONFIG self w2)
    as (r & Hr & _ & _ & _ & Hflags & Hnext).
  rewrite (bind_ok _ _ _ _ _ Hr).
  eval_CONFIG. exists r. split; [reflexivity | done].
Qed.

Lemma json_dump_is_temp_write target v :
  atomic_write_with target (json_dump v) = atomic_write target (json_dumps v).
Proof. reflexivity. Qed.

(** C6.  Evaluation where the claim fails.  The temporary file is created in
    the default temporary directory; when that directory is on another
    device than the target, the rename of [shutil.move] fails and the
    content is copied into the target path, which is opened and written
    directly, before the temporary file is unlinked: six operations, two of
    them on the target, instead of one rename. *)
Theorem atomic_write_copies_across_devices target content w :
  no_faults w →
  is_dir w (parent target) = true →
  is_dir w target = false →
  same_device w target = false →
  let n := fresh (dom (tmpfiles w)) in
  ∃ w', atomic_write target content w = (Ok tt, w')
        ∧ trace w' = trace w ++ [OpTempCreate; OpTempWrite n content; OpTempClose n;
                                 OpRename n target; OpCopy n target; OpUnlinkTemp n]
        ∧ files w' !! target = Some (File content mode_600).
Proof.
  intros Hnf Hparent Htarget Hdev n.
  destruct (atomic_write_ok target content w Hnf Hparent Htarget)
    as (w' & Hrun & Hfiles & _ & _ & _ & _ & Htrace).
  exists w'. split; [done|]. split.
  - rewrite Htrace. unfold atomic_write_ops. by rewrite Hdev.
  - by rewrite Hfiles, lookup_insert_eq.
Qed.

Lemma atomic_write_copies_across_devices_witness :
  ∃ w', atomic_write (example_repo ++ ["README.md"]) "new content"
          (world_with_readme no_fault 1) = (Ok tt, w')
        ∧ trace w' = trace (world_with_readme no_fault 1)
                     ++ [OpTempCreate; OpTempWrite 0 "new content"; OpTempClose 0;
                         OpRename 0 (example_repo ++ ["README.md"]);
                         OpCopy 0 (example_repo ++ ["README.md"]); OpUnlinkTemp 0]
        ∧ files w' !! (example_repo ++ ["README.md"])
          = Some (File "new content" mode_600).
Proof.
  apply (atomic_write_copies_across_devices (example_repo ++ ["README.md"])
           "new content" (world_with_readme no_fault 1)).
  - intros t o. reflexivity.
  - vm_compute. reflexivity.
  - vm_compute. reflexivity.
  - vm_compute. reflexivity.
Defined.

(** On one device the block is what the specification describes: the
    temporary file is written and closed, and one rename puts it in place. *)
Lemma atomic_write_renames_on_one_device target content w :
  no_faults w →
  is_dir w (parent target) = true →
  is_dir w target = false →
  same_device w target = true →
  let n := fresh (dom (tmpfiles w)) in
  ∃ w', atomic_write target content w = (Ok tt, w')
        ∧ trace w' = trace w ++ [OpTempCreate; OpTempWrite n content; OpTempClose n;
                                 OpRename n target]
        ∧ files w' !! target = Some (File content mode_600).
Proof.
  intros Hnf Hparent Htarget Hdev n.
  destruct (atomic_write_ok target content w Hnf Hparent Htarget)
    as (w' & Hrun & Hfiles & _ & _ & _ & _ & Htrace).
  exists w'. split; [done|]. split.
  - rewrite Htrace. unfold atomic_write_ops. by rewrite Hdev.
  - by rewrite Hfiles, lookup_insert_eq.
Qed.

(** C1.  Evaluation where the claim fails.  The temporary directory is on
    another device than the target, so [shutil.move] copies the content
    into the target path; the device of the target fills up after three
    characters of the copy.  The write fails with the error, and the target
    path, which held the previous version, now holds the first three
    characters of the new content: partial content is observable, and the
    previous version is lost. *)
Theorem copy_fallback_exposes_partial_content :
  let target := example_repo ++ ["README.md"] in
  let w := world_with_readme copy_interrupted 1 in
  files w !! target = Some (File "previous content" mode_644)
  ∧ (atomic_write target "new content" w).1 = Raise (OSError "28")
  ∧ files (atomic_write target "new content" w).2 !! target
    = Some (File "new" mode_644).
Proof. vm_compute. done. Qed.

(** C3, as the specification states it, fails: when the write of the
    documentation of the second entry, [businesses/], fails, the error is
    logged once and nothing is made for the entries after it; here for the
    third entry, [integrations/]: no directory, no documentation, no
    marker.  The marker of [businesses/] itself is not made either, while
    the first entry, [core/], is complete. *)
Lemma expansion_stops_at_failed_entry :
  let w' := (create_recommended_subdirectory_structure example_repo
               (empty_world second_write_fails noon 0)).2 in
  errors (log w') = ["Error creating subdirectory structure: " +:+ exc_str (OSError "28")]
  ∧ files w' !! (example_repo ++ ["core"; "README.md"])
    = Some (File (directory_readme "core/" "Core autonomous venture studio components")
              mode_600)
  ∧ files w' !! (example_repo ++ ["core"; ".gitkeep"]) = Some (File "" mode_644)
  ∧ is_dir w' (example_repo ++ ["businesses"]) = true
  ∧ files w' !! (example_repo ++ ["businesses"; "README.md"]) = None
  ∧ files w' !! (example_repo ++ ["businesses"; ".gitkeep"]) = None
  ∧ is_dir w' (example_repo ++ ["integrations"]) = false
  ∧ files w' !! (example_repo ++ ["integrations"; "README.md"]) = None
  ∧ files w' !! (example_repo ++ ["integrations"; ".gitkeep"]) = None.
Proof. vm_compute. done. Qed.

(** C3, amended.  A failure while writing the documentation file of an
    entry is logged and is not propagated to the caller, and it ends the
    expansion: the result is the world in which the write failed, with the
    error message added to the log.  For a spec of distinct one-component
    names, with no directory in the way of a documentation file: the
    entries before the failing one, [pre], are complete (directory,
    documentation with its text, marker); the marker of the failing entry
    is not made; nothing at or below the directory of an entry after it,
    [post], is made or changed. *)
Theorem expansion_aborts_at_failed_write
    repo pre dir_name description post e w w1 w2 w3 :
  simple_spec (pre ++ (dir_name, description) :: post) →
  (∀ x, x ∈ pre ++ [(dir_name, description)] → repo // x.1 // "README.md" ∉ dirs w) →
  for_each pre (expand_entry repo)
    (add_log INFO "Creating recommended subdirectory structure" w) = (Ok tt, w1) →
  mkdir_parents_exist_ok (repo // dir_name) w1 = (Ok tt, w2) →
  atomic_write (repo // dir_name // "README.md")
    (directory_readme dir_name description) w2 = (Raise e, w3) →
  let w' := add_log ERROR ("Error creating subdirectory structure: " +:+ exc_str e) w3 in
  expand (pre ++ (dir_name, description) :: post) repo w = (Ok tt, w')
  ∧ Forall (in_place repo w') pre
  ∧ files w' !! (repo // dir_name // ".gitkeep")
    = files w !! (repo // dir_name // ".gitkeep")
  ∧ Forall (untouched repo w w') post.
Proof.
  intros [Hsimple Hnodup] Hfree Hpre Hmkdir Hwrite w'.
  set (w0 := add_log INFO "Creating recommended subdirectory structure" w) in *.
  assert (expand_entry repo (dir_name, description) w1 = (Raise e, w3)) as Hentry.
  { unfold expand_entry. rewrite (bind_ok _ _ _ _ _ Hmkdir), fstring_directory_readme.
    unfold bind at 1, lift. by rewrite (bind_raise _ _ _ _ _ Hwrite). }
  split.
  { unfold expand, expand_try, try_except.
    unfold bind at 1. unfold logger_info at 1, modify. fold w0.
    by rewrite (bind_raise _ _ _ _ _ (for_each_app_raise _ post _ _ _ _ _ _ Hpre Hentry)). }
  apply Forall_app in Hsimple as [Hspre Hsrest].
  apply Forall_cons in Hsrest as [Hsd Hspost]. cbn [fst] in Hsd.
  rewrite map_app in Hnodup. simpl in Hnodup.
  apply NoDup_app in Hnodup as (Hndpre & Hdisj & Hndrest).
  apply NoDup_cons in Hndrest as [Hdpost Hndpost].
  destruct (simple_entry repo (dir_name, description) Hsd) as (c & Hd & Hc).
  cbn [fst snd] in Hd, Hc. rewrite Hc in *. subst w'.
  rewrite Hd, path_div_readme, path_div_gitkeep in *.
  assert ([c] ∉ map (fun e => components e.1) pre) as Hcpre.
  { intros Hin. apply (Hdisj _ Hin). by left. }
  destruct (for_each_expand_inv repo pre w0 w1 Hspre Hndpre) as [Hw1 Hplaces]; [|done|].
  { intros x Hx. apply (Hfree x). apply elem_of_app. by left. }
  pose proof (within_mkdir (prefixes (repo ++ [c])) [] (repo ++ [c]) (reflexivity _) w1)
    as Hw2.
  rewrite Hmkdir in Hw2. cbn [fst snd] in Hw2.
  assert ((repo ++ [c]) ++ ["README.md"] ∉ dirs w2) as Hreadme2.
  { intros Hin. destruct Hw2 as (_ & _ & HD2 & _). destruct Hw1 as (_ & _ & HD1 & _).
    destruct (HD2 _ Hin) as [Hin1|Hq]; [|by eapply snoc_ne_prefix in Hq].
    destruct (HD1 _ Hin1) as [Hin0|Hq]; [|by eapply other_entries_dirs in Hq].
    apply (Hfree (dir_name, description)); [apply elem_of_app; right; by left|].
    cbn [fst snd]. by rewrite Hd, path_div_readme. }
  pose proof (within_atomic_write [] [(repo ++ [c]) ++ ["README.md"]]
                ((repo ++ [c]) ++ ["README.md"]) (directory_readme dir_name description)
                w2 (list_elem_of_here _ _) (not_elem_of_nil _)) as Hw3.
  rewrite Hwrite in Hw3. cbn [fst snd] in Hw3.
  assert ((repo ++ [c]) ++ ["README.md"] ≠ []) as Hne0 by by destruct repo.
  specialize (Hw3 (is_dir_false _ _ Hne0 Hreadme2)).
  assert (within (prefixes (repo ++ [c])) [(repo ++ [c]) ++ ["README.md"]] w1 w3) as Hw13.
  { etrans; (eapply within_mono; [| |eassumption]);
      first [done | by intros ? ?%elem_of_nil]. }
  split; [|split].
  - rewrite Forall_forall in Hplaces, Hspre |- *. intros x Hx.
    destruct (simple_entry repo x (Hspre x Hx)) as (cx & Hdx & Hcx).
    assert (cx ≠ c) as Hne.
    { intros ->. apply Hcpre. apply list_elem_of_fmap. exists x. by rewrite Hcx. }
    apply (in_place_ext repo w3); [done | done |].
    eapply (in_place_within repo _ _ w1 w3 x cx); [done | exact Hw13 | | | | | by apply Hplaces].
    + intros q Hq Hin. apply list_elem_of_singleton in Hin as ->.
      by eapply snoc_ne_prefix in Hq.
    + intros Hin. apply list_elem_of_singleton in Hin. by apply readme_inj in Hin.
    + intros Hin. apply list_elem_of_singleton in Hin. symmetry in Hin.
      by apply readme_ne_gitkeep in Hin.
    + intros Hq. by eapply snoc_ne_prefix in Hq.
  - simpl. destruct Hw3 as (_ & _ & _ & Hf3). destruct Hw2 as (_ & _ & _ & Hf2).
    destruct Hw1 as (_ & _ & _ & Hf1).
    rewrite Hf3, Hf2, Hf1; [done | | apply not_elem_of_nil |].
    + intros Hin. destruct (other_entries_files repo pre c _ Hspre Hcpre Hin) as [Hp _].
      apply Hp. by apply prefix_app_r.
    + intros Hin. apply list_elem_of_singleton in Hin. symmetry in Hin.
      by apply readme_ne_gitkeep in Hin.
  - rewrite Forall_forall in Hspost |- *. intros x Hx.
    destruct (simple_entry repo x (Hspost x Hx)) as (cx & Hdx & Hcx).
    assert (cx ≠ c) as Hne.
    { intros ->. apply Hdpost. apply list_elem_of_fmap. exists x. by rewrite Hcx. }
    assert ([cx] ∉ map (fun e => components e.1) pre) as Hcxpre.
    { intros Hin. apply (Hdisj _ Hin). right. apply list_elem_of_fmap. exists x. by rewrite Hcx. }
    unfold untouched. rewrite Hdx. intros p Hp. simpl.
    destruct Hw3 as (_ & Hs3 & HD3 & Hf3). destruct Hw2 as (_ & Hs2 & HD2 & Hf2).
    destruct Hw1 as (_ & Hs1 & HD1 & Hf1).
    split; [split|].
    + intros Hin. destruct (HD3 _ Hin) as [Hin2|?%elem_of_nil]; [|done].
      destruct (HD2 _ Hin2) as [Hin1|Hq].
      * destruct (HD1 _ Hin1) as [Hin0|Hq]; [done|].
        by destruct (other_entries_under repo pre cx p Hspre Hcxpre Hq).
      * apply elem_of_prefixes in Hq as [_ Hq].
        destruct Hne. apply (under_entry_inj repo cx c []). rewrite app_nil_r. by etrans.
    + intros Hin. apply Hs3, Hs2, Hs1. done.
    + rewrite Hf3, Hf2, Hf1; [done | | apply not_elem_of_nil |].
      * intros Hin. by destruct (other_entries_files repo pre cx _ Hspre Hcxpre Hin) as [? _].
      * intros Hin. apply list_elem_of_singleton in Hin. subst p.
        by apply under_entry_inj in Hp.
Qed.

(** The write of the documentation of the second entry fails: [core/] is
    complete, [businesses/] has no marker, the ten entries after it are
    untouched. *)
Lemma expansion_aborts_at_failed_write_witness :
  let w := empty_world second_write_fails noon 0 in
  ∃ w3,
    let w' := add_log ERROR ("Error creating subdirectory structure: "
                             +:+ exc_str (OSError "28")) w3 in
    expand subdirectories example_repo w = (Ok tt, w')
    ∧ Forall (in_place example_repo w')
        [("core/", "Core autonomous venture studio components")]
    ∧ files w' !! (example_repo // "businesses/" // ".gitkeep")
      = files w !! (example_repo // "businesses/" // ".gitkeep")
    ∧ Forall (untouched example_repo w w') (drop 2 subdirectories).
Proof.
  intros w.
  set (w0 := add_log INFO "Creating recommended subdirectory structure" w).
  set (pre := [("core/", "Core autonomous venture studio components")]).
  set (w1 := (for_each pre (expand_entry example_repo) w0).2).
  set (w2 := (mkdir_parents_exist_ok (example_repo // "businesses/") w1).2).
  set (w3 := (atomic_write (example_repo // "businesses/" // "README.md")
                (directory_readme "businesses/"
                   "Business entity implementations and configurations") w2).2).
  exists w3.
  apply (expansion_aborts_at_failed_write example_repo pre "businesses/"
           "Business entity implementations and configurations" (drop 2 subdirectories)
           (OSError "28") w w1 w2 w3).
  - apply subdirectories_simple.
  - intros x Hx. apply not_elem_of_empty.
  - vm_compute. reflexivity.
  - vm_compute. reflexivity.
  - vm_compute. reflexivity.
Defined.

(** C4.  Evaluation where the claim fails.  The context lacks
    [CONFIG["URLS"]["MOBILE_DASHBOARD"]].  The README is an f-string: its
    rendering raises [KeyError], which is logged, and nothing is written.
    The setup script, the server stub and the setup documentation are plain
    strings (they take no context at all): they are written without any
    error, with the reference [{CONFIG["URLS"]["MOBILE_DASHBOARD"]}] left in
    the generated file as text. *)
Theorem unresolved_references_written_verbatim :
  let w := repo_world no_fault noon 0 in
  let reference := placeholder "URLS" "MOBILE_DASHBOARD" in
  cfg_get CONFIG_without_dashboard_url "URLS" "MOBILE_DASHBOARD"
  = Raise (KeyError "MOBILE_DASHBOARD")
  ∧ (let w' := (create_mobile_readme example_manager CONFIG_without_dashboard_url
                  example_repo w).2 in
     errors (log w') = ["Error creating mobile README: 'MOBILE_DASHBOARD'"]
     ∧ files w' = ∅)
  ∧ (let w' := (create_mobile_setup_script example_repo w).2 in
     errors (log w') = []
     ∧ (∃ f, files w' !! (example_repo ++ ["mobile_setup.sh"]) = Some f
             ∧ contains reference (f_content f) = true)
     ∧ (∃ f, files w' !! (example_repo ++ ["mobile_server.py"]) = Some f
             ∧ contains reference (f_content f) = true))
  ∧ (let w' := (create_mobile_requirements example_repo w).2 in
     errors (log w') = []
     ∧ (∃ f, files w' !! (example_repo ++ ["docs"; "mobile_setup.md"]) = Some f
             ∧ contains reference (f_content f) = true)).
Proof.
  vm_compute. repeat split; try done; eexists; split; try reflexivity; done.
Qed.

(** C5, as the specification states it, fails for the dashboard
    configuration: two runs with the same context in worlds that differ only
    in their clock write different files. *)
Lemma dashboard_config_differs_with_clock :
  let p := dashboard_config_path example_repo in
  ∃ c1 c2,
    f_content <$> files (create_mobile_dashboard_config CONFIG example_repo
                           (repo_world no_fault noon 0)).2 !! p = Some c1
    ∧ f_content <$> files (create_mobile_dashboard_config CONFIG example_repo
                             (repo_world no_fault midnight 0)).2 !! p = Some c2
    ∧ c1 ≠ c2.
Proof.
  simpl. eexists _, _. split; [vm_compute; reflexivity|].
  split; [vm_compute; reflexivity|].
  apply String.eqb_neq. vm_compute. reflexivity.
Qed.

(** C8.  The expansion is idempotent.  For every root, in every world where
    nothing fails and the expansion can proceed (no regular file in the way
    of a directory, no directory in the way of a documentation file), a
    second run leaves the tree of the first run as it is: the directories,
    the files with their content and mode, and the temporary directory are
    the same; the first run has put the directory, the documentation file
    and the marker of every entry in place; neither run logs an error. *)
Theorem expansion_idempotent repo w :
  no_faults w →
  expandable subdirectories repo w →
  let once := (create_recommended_subdirectory_structure repo w).2 in
  let twice := (create_recommended_subdirectory_structure repo once).2 in
  (create_recommended_subdirectory_structure repo w).1 = Ok tt
  ∧ (create_recommended_subdirectory_structure repo once).1 = Ok tt
  ∧ dirs twice = dirs once
  ∧ files twice = files once
  ∧ tmpfiles twice = tmpfiles once
  ∧ (∀ e, e ∈ subdirectories → in_place repo once e)
  ∧ errors (log twice) = errors (log w).
Proof.
  intros Hnf Hexp. apply expand_twice; [apply subdirectories_simple | done | done].
Qed.

Lemma expansion_idempotent_witness :
  let once := (create_recommended_subdirectory_structure example_repo quiet_world).2 in
  let twice := (create_recommended_subdirectory_structure example_repo once).2 in
  (create_recommended_subdirectory_structure example_repo quiet_world).1 = Ok tt
  ∧ (create_recommended_subdirectory_structure example_repo once).1 = Ok tt
  ∧ dirs twice = dirs once
  ∧ files twice = files once
  ∧ tmpfiles twice = tmpfiles once
  ∧ (∀ e, e ∈ subdirectories → in_place example_repo once e)
  ∧ errors (log twice) = errors (log quiet_world).
Proof.
  apply (expansion_idempotent example_repo quiet_world).
  - intros t o. reflexivity.
  - intros e He. split.
    + intros q Hq. apply lookup_empty.
    + apply not_elem_of_empty.
Defined.

(** C5, amended.  What a generator hands to the writer is determined by
    the configuration context (and the attributes of the manager), for every
    artifact but the dashboard configuration: when the [try] block of a
    method returns it has written exactly the listed texts, in order, and
    when it raises it has written the first ones of them; none of these
    lists depends on the world.  The dashboard configuration is determined
    by the context and by the reading of the clock at the start of the
    method: the same context and the same reading give the same text. *)
Theorem rendered_texts_determined self cfg repo :
  (∀ spec, renders (map (fun e => directory_readme e.1 e.2) spec) (expand_try spec repo))
  ∧ renders (texts (fstring (readme_template self cfg)))
      (create_mobile_readme_try self cfg repo)
  ∧ renders [requirements_content; mobile_docs_content]
      (create_mobile_requirements_try repo)
  ∧ renders [setup_script_content; mobile_server_content]
      (create_mobile_setup_script_try repo)
  ∧ renders (texts (fstring (instructions_template self cfg)))
      (generate_mobile_setup_instructions_try self cfg)
  ∧ (∀ w,
       let L := dashboard_texts cfg (clock (env w) (tick w)) in
       match create_mobile_dashboard_config_try cfg repo w with
       | (Ok _, w') => writes (trace w') = writes (trace w) ++ L
       | (Raise _, w') =>
           ∃ k, writes (trace w') = writes (trace w) ++ k ∧ k `prefix_of` L
       end).
Proof.
  split; [|split; [|split; [|split; [|split]]]].
  - intros spec. unfold expand_try.
    apply renders_seq_nothing; [apply same_writes_logger_info|]. intros _.
    apply renders_then_nothing; [|intros _; apply same_writes_logger_info].
    rewrite <- concat_singletons. apply renders_for_each. intros e.
    apply renders_expand_entry.
  - unfold create_mobile_readme_try.
    apply renders_seq_nothing; [apply same_writes_logger_info|]. intros _.
    apply (renders_lift_bind _ (fun s => [s])). intros s.
    apply renders_then_nothing; [apply renders_atomic_write|].
    intros _. apply same_writes_logger_info.
  - unfold create_mobile_requirements_try.
    apply renders_seq_nothing; [apply same_writes_logger_info|]. intros _.
    apply (renders_bind [_] [_]); [apply renders_atomic_write|]. intros _.
    apply renders_seq_nothing; [apply same_writes_mkdir|]. intros _.
    apply renders_then_nothing; [apply renders_atomic_write|].
    intros _. apply same_writes_logger_info.
  - unfold create_mobile_setup_script_try.
    apply renders_seq_nothing; [apply same_writes_logger_info|]. intros _.
    apply (renders_bind [_] [_]); [apply renders_atomic_write|]. intros _.
    apply renders_seq_nothing; [apply same_writes_os_chmod|]. intros _.
    apply renders_then_nothing; [apply renders_atomic_write|].
    intros _. solve_preserves.
  - unfold generate_mobile_setup_instructions_try.
    apply renders_seq_nothing; [apply same_writes_logger_info|]. intros _.
    apply (renders_lift_bind _ (fun s => [s])). intros s.
    apply renders_then_nothing; [apply renders_atomic_write|].
    intros _. solve_preserves.
  - intros w. simpl. unfold create_mobile_dashboard_config_try.
    unfold bind at 1. unfold logger_info at 1, modify.
    set (w0 := add_log INFO _ w).
    change (clock (env w) (tick w)) with (clock (env w0) (tick w0)).
    change (writes (trace w)) with (writes (trace w0)).
    unfold bind at 1. rewrite dashboard_config_reading. unfold dashboard_texts.
    destruct (dashboard_config_at cfg _) as [j|e].
    + assert (renders [json_dumps j; dashboard_template]
                (mkdir_parents_exist_ok
                   (parent (repo // "config" // "mobile_dashboard_config.json")) ;;
                 atomic_write_with (repo // "config" // "mobile_dashboard_config.json")
                   (json_dump j) ;;
                 mkdir_parents_exist_ok
                   (parent (repo // "templates" // "mobile_dashboard.html")) ;;
                 atomic_write (repo // "templates" // "mobile_dashboard.html")
                   dashboard_template ;;
                 logger_info "Set up mobile dashboard configuration")) as Hrest.
      { apply renders_seq_nothing; [apply same_writes_mkdir|]. intros _.
        apply (renders_bind [_] [_]).
        { apply renders_atomic_write_with. intros n. apply renders_temp_write. }
        intros _. apply renders_seq_nothing; [apply same_writes_mkdir|]. intros _.
        apply renders_then_nothing; [apply renders_atomic_write|].
        intros _. apply same_writes_logger_info. }
      apply (Hrest (advance w0)).
    + exists []. by rewrite app_nil_r.
Qed.

(** * Further properties of the code *)

(** ** The write block *)

(** X1.  A write that succeeds puts exactly the content at the target,
    replacing what was there, with the mode of the temporary file (0600);
    every other path, the directories and the temporary directory are as
    before: no temporary file is left behind. *)
Theorem atomic_write_replaces_target target content w :
  no_faults w →
  is_dir w (parent target) = true →
  is_dir w target = false →
  ∃ w', atomic_write target content w = (Ok tt, w')
        ∧ files w' !! target = Some (File content mode_600)
        ∧ (∀ p, p ≠ target → files w' !! p = files w !! p)
        ∧ dirs w' = dirs w
        ∧ tmpfiles w' = tmpfiles w.
Proof.
  intros Hnf Hparent Htarget.
  destruct (atomic_write_ok target content w Hnf Hparent Htarget)
    as (w' & Hrun & Hfiles & Hdirs & Htmp & _).
  exists w'. rewrite Hfiles. split; [done|]. split; [by rewrite lookup_insert_eq|].
  split; [|done]. intros p Hp. by rewrite lookup_insert_ne.
Qed.

Lemma atomic_write_replaces_target_witness :
  ∃ w', atomic_write (example_repo ++ ["README.md"]) "new content"
          (world_with_readme no_fault 0) = (Ok tt, w')
        ∧ files w' !! (example_repo ++ ["README.md"])
          = Some (File "new content" mode_600)
        ∧ (∀ p, p ≠ example_repo ++ ["README.md"] →
                files w' !! p = files (world_with_readme no_fault 0) !! p)
        ∧ dirs w' = dirs (world_with_readme no_fault 0)
        ∧ tmpfiles w' = tmpfiles (world_with_readme no_fault 0).
Proof.
  apply (atomic_write_replaces_target (example_repo ++ ["README.md"]) "new content"
           (world_with_readme no_fault 0)).
  - intros t o. reflexivity.
  - vm_compute. reflexivity.
  - vm_compute. reflexivity.
Defined.

Ltac run2 := cbn -[fresh is_dir is_file path_exists parent tmp_name].

(** X2.  When the target path is an existing directory, [shutil.move] moves
    the temporary file into it: the write returns normally, and the content
    lands in the directory under the name of the temporary file, not at the
    target path. *)
Theorem atomic_write_into_directory target content w :
  no_faults w →
  is_dir w target = true →
  path_exists w (target ++ [tmp_name (fresh (dom (tmpfiles w)))]) = false →
  ∃ w', atomic_write target content w = (Ok tt, w')
        ∧ files w' = <[target ++ [tmp_name (fresh (dom (tmpfiles w)))]
                       := File content mode_600]> (files w)
        ∧ dirs w' = dirs w
        ∧ tmpfiles w' = tmpfiles w.
Proof.
  intros Hnf Htarget Hfree.
  pose proof (fresh_tmp_unused w) as Hfresh.
  set (n := fresh (dom (tmpfiles w))) in *.
  assert (is_dir w (target ++ [tmp_name n]) = false) as Hreal.
  { unfold path_exists in Hfree. by apply orb_false_iff in Hfree as [? _]. }
  unfold atomic_write, atomic_write_with, NamedTemporaryFile, temp_write, temp_close,
    shutil_move_tmp, os_rename_tmp, shutil_copy2_tmp,
    os_path_exists_tmp, os_unlink_tmp, attempt, perform, try_except,
    try_except_OSError, bind, get, modify, ret, raise, append_tmp.
  run2. rewrite !Hnf. run2. fold n.
  norm_fs w. rewrite Htarget.
  rewrite (path_exists_snoc _ target (tmp_name n)).
  rewrite path_exists_snoc in Hfree. run2. rewrite Hfree. run2.
  rewrite !Hnf. run2. rewrite tmp_lookup. norm_fs w.
  rewrite parent_snoc, Htarget, Hreal. run2.
  destruct (bool_decide (tmp_dev (env w) = dev_of (env w) (target ++ [tmp_name n])));
    run2.
  - rewrite tmp_removed by done. eexists. by split; [reflexivity|].
  - rewrite !Hnf. run2. rewrite tmp_lookup. norm_fs w.
    rewrite ?parent_snoc, ?Htarget, ?Hreal. run2. rewrite !Hnf. run2.
    rewrite tmp_exists. run2. rewrite tmp_removed by done.
    eexists. by split; [reflexivity|].
Qed.

Lemma atomic_write_into_directory_witness :
  ∃ w', atomic_write example_repo "new content" (repo_world no_fault noon 0) = (Ok tt, w')
        ∧ files w' = <[example_repo ++ [tmp_name (fresh (dom (tmpfiles
                                                  (repo_world no_fault noon 0))))]
                       := File "new content" mode_600]>
                       (files (repo_world no_fault noon 0))
        ∧ dirs w' = dirs (repo_world no_fault noon 0)
        ∧ tmpfiles w' = tmpfiles (repo_world no_fault noon 0).
Proof.
  apply (atomic_write_into_directory example_repo "new content"
           (repo_world no_fault noon 0)).
  - intros t o. reflexivity.
  - vm_compute. reflexivity.
  - vm_compute. reflexivity.
Defined.

Lemma atomic_write_no_parent target content w :
  no_faults w →
  is_dir w (parent target) = false →
  is_dir w target = false →
  ∃ w', atomic_write target content w = (Raise (parent_error w target), w')
        ∧ files w' = files w
        ∧ dirs w' = dirs w
        ∧ tmpfiles w' = tmpfiles w
        ∧ log w' = log w.
Proof.
  intros Hnf Hparent Htarget.
  pose proof (fresh_tmp_unused w) as Hfresh.
  set (n := fresh (dom (tmpfiles w))) in *.
  unfold atomic_write, atomic_write_with, NamedTemporaryFile, temp_write, temp_close,
    shutil_move_tmp, os_rename_tmp, shutil_copy2_tmp,
    os_path_exists_tmp, os_unlink_tmp, attempt, perform, try_except,
    try_except_OSError, bind, get, modify, ret, raise, append_tmp.
  run3. rewrite !Hnf. run3. fold n.
  norm_fs w. rewrite Htarget. run3.
  rewrite !Hnf. run3. rewrite tmp_lookup. norm_fs w. rewrite Hparent. run3.
  norm_fs w. rewrite is_OSError_parent_error. run3.
  rewrite !Hnf. run3. rewrite tmp_lookup. norm_fs w. rewrite ?Hparent. run3.
  rewrite tmp_exists. run3. rewrite !Hnf. run3. rewrite tmp_exists. run3.
  rewrite tmp_removed by done. norm_fs w. eexists. by split; [reflexivity|].
Qed.

(** X3.  When the parent of the target is not a directory, the rename and
    then the copy of [shutil.move] fail: the write raises
    [FileNotFoundError] when the parent is missing, and
    [NotADirectoryError] when a regular file is on the way to it; the
    temporary file is removed and nothing is changed.  (The block does not
    create the parent.) *)
Theorem atomic_write_missing_parent target content w :
  no_faults w →
  is_dir w (parent target) = false →
  is_dir w target = false →
  ∃ w', atomic_write target content w
        = (Raise (if existsb (is_file w) (prefixes (parent target))
                  then NotADirectoryError else FileNotFoundError), w')
        ∧ files w' = files w
        ∧ dirs w' = dirs w
        ∧ tmpfiles w' = tmpfiles w.
Proof.
  intros Hnf Hparent Htarget.
  destruct (atomic_write_no_parent target content w Hnf Hparent Htarget)
    as (w' & Hrun & Hfiles & Hdirs & Htmp & _).
  by exists w'.
Qed.

(** In an empty file system the parent is missing. *)
Lemma atomic_write_missing_parent_witness :
  ∃ w', atomic_write (example_repo ++ ["README.md"]) "new content" quiet_world
        = (Raise FileNotFoundError, w')
        ∧ files w' = files quiet_world
        ∧ dirs w' = dirs quiet_world
        ∧ tmpfiles w' = tmpfiles quiet_world.
Proof.
  apply (atomic_write_missing_parent (example_repo ++ ["README.md"]) "new content"
           quiet_world).
  - intros t o. reflexivity.
  - vm_compute. reflexivity.
  - vm_compute. reflexivity.
Defined.

(** ** The f-string artifacts *)

Lemma fstring_app_Lit s t : fstring (Lit s :: t) = res_map (String.append s) (fstring t).
Proof. reflexivity. Qed.

Lemma res_map_raise {A B} (f : A → B) (r : res A) e :
  r = Raise e → res_map f r = Raise e.
Proof. by intros ->. Qed.

Lemma readme_template_missing_key self cfg k :
  k ∈ url_keys → (∃ e, cfg_get cfg "URLS" k = Raise e) →
  ∃ e, fstring (readme_template self cfg) = Raise e.
Proof.
  intros Hk [e He]. unfold readme_template. cbn [fstring res_map].
  unfold url_keys in Hk. rewrite !elem_of_cons in Hk. rewrite elem_of_nil in Hk.
  destruct (cfg_get cfg "URLS" "MOBILE_DASHBOARD") as [v1|e1] eqn:H1;
    cbn [fstring res_map]; [|by eexists].
  destruct (cfg_get cfg "URLS" "API_ENDPOINTS") as [v2|e2] eqn:H2;
    cbn [fstring res_map]; [|by eexists].
  destruct (cfg_get cfg "URLS" "MONITORING") as [v3|e3] eqn:H3;
    cbn [fstring res_map]; [|by eexists].
  destruct (cfg_get cfg "URLS" "RESEARCH") as [v4|e4] eqn:H4;
    cbn [fstring res_map]; [|by eexists].
  destruct (cfg_get cfg "URLS" "GITHUB") as [v5|e5] eqn:H5;
    cbn [fstring res_map]; [|by eexists].
  destruct Hk as [->|[->|[->|[->|[->|[]]]]]]; congruence.
Qed.

Lemma instructions_template_missing_key self cfg k :
  k ∈ url_keys → (∃ e, cfg_get cfg "URLS" k = Raise e) →
  ∃ e, fstring (instructions_template self cfg) = Raise e.
Proof.
  intros Hk [e He]. unfold instructions_template. cbn [fstring res_map].
  unfold url_keys in Hk. rewrite !elem_of_cons in Hk. rewrite elem_of_nil in Hk.
  destruct (cfg_get cfg "URLS" "MOBILE_DASHBOARD") as [v1|e1] eqn:H1;
    cbn [fstring res_map]; [|by eexists].
  destruct (cfg_get cfg "URLS" "API_ENDPOINTS") as [v2|e2] eqn:H2;
    cbn [fstring res_map]; [|by eexists].
  destruct (cfg_get cfg "URLS" "MONITORING") as [v3|e3] eqn:H3;
    cbn [fstring res_map]; [|by eexists].
  destruct (cfg_get cfg "URLS" "RESEARCH") as [v4|e4] eqn:H4;
    cbn [fstring res_map]; [|by eexists].
  destruct (cfg_get cfg "URLS" "GITHUB") as [v5|e5] eqn:H5;
    cbn [fstring res_map]; [|by eexists].
  destruct Hk as [->|[->|[->|[->|[->|[]]]]]]; congruence.
Qed.

(** X4.  The two f-string artifacts fail fast.  When the context lacks any of
    the five URL keys, [create_mobile_readme] and
    [generate_mobile_setup_instructions] attempt no operation at all: the
    world is the one before the call with the start message and one error
    message added to the log, and the latter returns the empty string. *)
Theorem fstring_artifacts_fail_fast self cfg repo k w :
  k ∈ url_keys →
  (∃ e, cfg_get cfg "URLS" k = Raise e) →
  (∃ e, create_mobile_readme self cfg repo w
        = (Ok tt, add_log ERROR ("Error creating mobile README: " +:+ exc_str e)
                    (add_log INFO "Creating mobile-optimized README" w)))
  ∧ (∃ e, generate_mobile_setup_instructions self cfg w
          = (Ok "", add_log ERROR ("Error generating mobile setup instructions: "
                                    +:+ exc_str e)
                      (add_log INFO "Generating mobile setup instructions" w))).
Proof.
  intros Hk Hmissing. split.
  - destruct (readme_template_missing_key self cfg k Hk Hmissing) as [e He].
    exists e. unfold create_mobile_readme, create_mobile_readme_try, try_except.
    unfold bind at 1. unfold logger_info at 1, modify. rewrite He. reflexivity.
  - destruct (instructions_template_missing_key self cfg k Hk Hmissing) as [e He].
    exists e.
    unfold generate_mobile_setup_instructions, generate_mobile_setup_instructions_try,
      try_except.
    unfold bind at 1. unfold logger_info at 1, modify. rewrite He. reflexivity.
Qed.

Lemma fstring_artifacts_fail_fast_witness :
  (∃ e, create_mobile_readme example_manager CONFIG_without_dashboard_url example_repo
          quiet_world
        = (Ok tt, add_log ERROR ("Error creating mobile README: " +:+ exc_str e)
                    (add_log INFO "Creating mobile-optimized README" quiet_world)))
  ∧ (∃ e, generate_mobile_setup_instructions example_manager
            CONFIG_without_dashboard_url quiet_world
          = (Ok "", add_log ERROR ("Error generating mobile setup instructions: "
                                    +:+ exc_str e)
                      (add_log INFO "Generating mobile setup instructions" quiet_world))).
Proof.
  apply (fstring_artifacts_fail_fast example_manager CONFIG_without_dashboard_url
           example_repo "MOBILE_DASHBOARD" quiet_world).
  - unfold url_keys. by left.
  - eexists. vm_compute. reflexivity.
Defined.

Lemma path_div_instructions p :
  p // "MOBILE_SETUP_INSTRUCTIONS.md" = p ++ ["MOBILE_SETUP_INSTRUCTIONS.md"].
Proof. reflexivity. Qed.

(** X5.  [create_mobile_readme], when nothing fails and the repository
    directory exists: the rendered README is at [README.md], nothing else
    is changed and no error is logged. *)
Theorem create_mobile_readme_writes self cfg repo text w :
  no_faults w →
  is_dir w repo = true →
  is_dir w (repo // "README.md") = false →
  fstring (readme_template self cfg) = Ok text →
  ∃ w', create_mobile_readme self cfg repo w = (Ok tt, w')
        ∧ files w' !! (repo // "README.md") = Some (File text mode_600)
        ∧ (∀ p, p ≠ repo // "README.md" → files w' !! p = files w !! p)
        ∧ dirs w' = dirs w
        ∧ tmpfiles w' = tmpfiles w
        ∧ errors (log w') = errors (log w).
Proof.
  intros Hnf Hrepo Htarget Htext. rewrite path_div_readme in *.
  unfold create_mobile_readme, create_mobile_readme_try, try_except.
  unfold bind at 1. unfold logger_info at 1, modify. rewrite Htext.
  unfold bind at 1, lift. rewrite path_div_readme.
  set (w0 := add_log INFO _ w).
  destruct (atomic_write_ok (repo ++ ["README.md"]) text w0)
    as (w1 & Hrun & Hfiles & Hdirs & Htmp & Henv & Hlog & _);
    [done | by rewrite parent_snoc | done |].
  rewrite (bind_ok _ _ _ _ _ Hrun). unfold logger_info, modify.
  eexists. split; [reflexivity|]. simpl. rewrite Hfiles, Hdirs, Htmp, Hlog.
  split; [by rewrite lookup_insert_eq|].
  split; [by intros p Hp; rewrite lookup_insert_ne|].
  split; [done|]. split; [done|]. simpl. by rewrite !errors_info.
Qed.

Lemma create_mobile_readme_writes_witness :
  let text := rendered (fstring (readme_template example_manager CONFIG)) in
  let w := repo_world no_fault noon 0 in
  ∃ w', create_mobile_readme example_manager CONFIG example_repo w = (Ok tt, w')
        ∧ files w' !! (example_repo // "README.md") = Some (File text mode_600)
        ∧ (∀ p, p ≠ example_repo // "README.md" → files w' !! p = files w !! p)
        ∧ dirs w' = dirs w
        ∧ tmpfiles w' = tmpfiles w
        ∧ errors (log w') = errors (log w).
Proof.
  intros text w. apply (create_mobile_readme_writes example_manager CONFIG example_repo text w).
  - intros t o. reflexivity.
  - vm_compute. reflexivity.
  - vm_compute. reflexivity.
  - vm_compute. reflexivity.
Defined.

(** ** [generate_mobile_setup_instructions] *)

(** X6.  When nothing fails and the mobile directory exists, the method
    returns the rendered instructions and the same text is the content of
    [MOBILE_SETUP_INSTRUCTIONS.md] in the mobile directory; nothing else is
    changed and no error is logged. *)
Theorem generate_mobile_setup_instructions_writes self cfg text w :
  no_faults w →
  is_dir w (mobile_dir self) = true →
  is_dir w (instructions_path self) = false →
  fstring (instructions_template self cfg) = Ok text →
  ∃ w', generate_mobile_setup_instructions self cfg w = (Ok text, w')
        ∧ files w' !! instructions_path self = Some (File text mode_600)
        ∧ (∀ p, p ≠ instructions_path self → files w' !! p = files w !! p)
        ∧ dirs w' = dirs w
        ∧ tmpfiles w' = tmpfiles w
        ∧ errors (log w') = errors (log w).
Proof.
  unfold instructions_path. intros Hnf Hdir Htarget Htext.
  rewrite path_div_instructions in *.
  unfold generate_mobile_setup_instructions, generate_mobile_setup_instructions_try,
    try_except.
  unfold bind at 1. unfold logger_info at 1, modify. rewrite Htext.
  unfold bind at 1, lift. rewrite path_div_instructions.
  set (w0 := add_log INFO _ w).
  destruct (atomic_write_ok (mobile_dir self ++ ["MOBILE_SETUP_INSTRUCTIONS.md"]) text w0)
    as (w1 & Hrun & Hfiles & Hdirs & Htmp & Henv & Hlog & _);
    [done | by rewrite parent_snoc | done |].
  rewrite (bind_ok _ _ _ _ _ Hrun). unfold logger_info, modify, bind, ret.
  eexists. split; [reflexivity|]. simpl. rewrite Hfiles, Hdirs, Htmp, Hlog.
  split; [by rewrite lookup_insert_eq|].
  split; [by intros p Hp; rewrite lookup_insert_ne|].
  split; [done|]. split; [done|]. simpl. by rewrite !errors_info.
Qed.

Lemma generate_mobile_setup_instructions_writes_witness :
  let text := rendered (fstring (instructions_template example_manager CONFIG)) in
  let w := mobile_dir_world in
  ∃ w', generate_mobile_setup_instructions example_manager CONFIG w = (Ok text, w')
        ∧ files w' !! instructions_path example_manager = Some (File text mode_600)
        ∧ (∀ p, p ≠ instructions_path example_manager → files w' !! p = files w !! p)
        ∧ dirs w' = dirs w
        ∧ tmpfiles w' = tmpfiles w
        ∧ errors (log w') = errors (log w).
Proof.
  intros text w.
  apply (generate_mobile_setup_instructions_writes example_manager CONFIG text w).
  - intros t o. reflexivity.
  - vm_compute. reflexivity.
  - vm_compute. reflexivity.
  - vm_compute. reflexivity.
Defined.

Lemma errors_error l s : errors (l ++ [(ERROR, s)]) = errors l ++ [s].
Proof. unfold errors. by rewrite omap_app. Qed.

(** X7.  When the mobile directory does not exist (the method does not
    create it; [create_main_github_repository] does, when it gets that
    far), the instructions are not written: the method returns the empty
    string, logs the error of the write, [FileNotFoundError] when the
    directory is missing and [NotADirectoryError] when a regular file is
    on the way to it, and leaves files, directories and the temporary
    directory as they were. *)
Theorem generate_mobile_setup_instructions_without_directory self cfg text w :
  no_faults w →
  is_dir w (mobile_dir self) = false →
  is_dir w (instructions_path self) = false →
  fstring (instructions_template self cfg) = Ok text →
  ∃ w', generate_mobile_setup_instructions self cfg w = (Ok "", w')
        ∧ files w' = files w
        ∧ dirs w' = dirs w
        ∧ tmpfiles w' = tmpfiles w
        ∧ errors (log w')
          = errors (log w)
            ++ ["Error generating mobile setup instructions: "
                +:+ exc_str (if existsb (is_file w) (prefixes (mobile_dir self))
                             then NotADirectoryError else FileNotFoundError)].
Proof.
  unfold instructions_path. intros Hnf Hdir Htarget Htext.
  rewrite path_div_instructions in *.
  unfold generate_mobile_setup_instructions, generate_mobile_setup_instructions_try,
    try_except.
  unfold bind at 1. unfold logger_info at 1, modify. rewrite Htext.
  unfold bind at 1, lift. rewrite path_div_instructions.
  set (w0 := add_log INFO _ w).
  destruct (atomic_write_no_parent
              (mobile_dir self ++ ["MOBILE_SETUP_INSTRUCTIONS.md"]) text w0)
    as (w1 & Hrun & Hfiles & Hdirs & Htmp & Hlog);
    [done | by rewrite parent_snoc | done |].
  rewrite (bind_raise _ _ _ _ _ Hrun). unfold logger_error, modify, bind, ret.
  eexists. split; [reflexivity|]. simpl. rewrite Hfiles, Hdirs, Htmp, Hlog.
  repeat (split; [done|]). simpl. rewrite errors_error, errors_info.
  unfold parent_error. by rewrite parent_snoc.
Qed.

(** A regular file sits where the mobile directory should be: the error
    that is logged is [NotADirectoryError]. *)
Lemma generate_mobile_setup_instructions_without_directory_witness :
  let w := blocked_world in
  ∃ w', generate_mobile_setup_instructions example_manager CONFIG w = (Ok "", w')
        ∧ files w' = files w
        ∧ dirs w' = dirs w
        ∧ tmpfiles w' = tmpfiles w
        ∧ errors (log w')
          = errors (log w) ++ ["Error generating mobile setup instructions: "
                               +:+ exc_str NotADirectoryError].
Proof.
  intros w.
  apply (generate_mobile_setup_instructions_without_directory example_manager CONFIG
           (rendered (fstring (instructions_template example_manager CONFIG))) w).
  - intros t o. reflexivity.
  - vm_compute. reflexivity.
  - vm_compute. reflexivity.
  - vm_compute. reflexivity.
Defined.

(** ** The script and requirements artifacts *)

Lemma os_chmod_ok p mode f w :
  no_faults w → files w !! p = Some f →
  os_chmod p mode w
  = (Ok tt, set_files (<[p := File (f_content f) mode]> (files w)) (step (OpChmod p) w)).
Proof.
  intros Hnf Hf. unfold os_chmod, attempt, perform, bind, get, modify, ret, raise.
  run. rewrite Hnf. run. by rewrite Hf.
Qed.

Lemma atomic_write_ops_eq w w' target content :
  env w' = env w → tmpfiles w' = tmpfiles w →
  atomic_write_ops w' target content = atomic_write_ops w target content.
Proof. intros He Ht. unfold atomic_write_ops, same_device. by rewrite He, Ht. Qed.

(** X8.  [create_mobile_setup_script], when nothing fails and the
    repository directory exists: the setup script and the server stub are
    in place with their texts and with mode 0755, nothing else is changed,
    and each [chmod] comes after the operations that put its file in place. *)
Theorem create_mobile_setup_script_writes repo w :
  no_faults w →
  is_dir w repo = true →
  is_dir w (repo // "mobile_setup.sh") = false →
  is_dir w (repo // "mobile_server.py") = false →
  ∃ w', create_mobile_setup_script repo w = (Ok tt, w')
        ∧ files w' !! (repo // "mobile_setup.sh")
          = Some (File setup_script_content mode_755)
        ∧ files w' !! (repo // "mobile_server.py")
          = Some (File mobile_server_content mode_755)
        ∧ (∀ p, p ≠ repo // "mobile_setup.sh" → p ≠ repo // "mobile_server.py" →
                files w' !! p = files w !! p)
        ∧ dirs w' = dirs w
        ∧ tmpfiles w' = tmpfiles w
        ∧ errors (log w') = errors (log w)
        ∧ trace w'
          = trace w
            ++ atomic_write_ops w (repo // "mobile_setup.sh") setup_script_content
            ++ [OpChmod (repo // "mobile_setup.sh")]
            ++ atomic_write_ops w (repo // "mobile_server.py") mobile_server_content
            ++ [OpChmod (repo // "mobile_server.py")].
Proof.
  change (repo // "mobile_setup.sh") with (repo ++ ["mobile_setup.sh"]).
  change (repo // "mobile_server.py") with (repo ++ ["mobile_server.py"]).
  intros Hnf Hrepo Hsh Hpy.
  assert (repo ++ ["mobile_setup.sh"] ≠ repo ++ ["mobile_server.py"]) as Hne
    by (by intros [_ ?]%app_inj_tail).
  unfold create_mobile_setup_script, create_mobile_setup_script_try, try_except.
  change (repo // "mobile_setup.sh") with (repo ++ ["mobile_setup.sh"]).
  change (repo // "mobile_server.py") with (repo ++ ["mobile_server.py"]).
  unfold bind at 1. unfold logger_info at 1, modify.
  set (w0 := add_log INFO _ w).
  destruct (atomic_write_ok (repo ++ ["mobile_setup.sh"]) setup_script_content w0)
    as (w1 & Hrun1 & Hfiles1 & Hdirs1 & Htmp1 & Henv1 & Hlog1 & Htrace1);
    [done | by rewrite parent_snoc | done |].
  rewrite (bind_ok _ _ _ _ _ Hrun1).
  rewrite (bind_ok _ _ _ _ _
             (os_chmod_ok _ mode_755 (File setup_script_content mode_600) w1
                (no_faults_env w0 w1 Henv1 Hnf)
                ltac:(by rewrite Hfiles1, lookup_insert_eq))).
  set (w2 := set_files _ (step _ w1)).
  destruct (atomic_write_ok (repo ++ ["mobile_server.py"]) mobile_server_content w2)
    as (w3 & Hrun3 & Hfiles3 & Hdirs3 & Htmp3 & Henv3 & Hlog3 & Htrace3).
  { apply (no_faults_env w0); [exact Henv1 | done]. }
  { rewrite parent_snoc. by rewrite (is_dir_eq w2 w0) by exact Hdirs1. }
  { by rewrite (is_dir_eq w2 w0) by exact Hdirs1. }
  rewrite (bind_ok _ _ _ _ _ Hrun3).
  rewrite (bind_ok _ _ _ _ _
             (os_chmod_ok _ mode_755 (File mobile_server_content mode_600) w3
                (no_faults_env w0 w3 ltac:(rewrite Henv3; exact Henv1) Hnf)
                ltac:(by rewrite Hfiles3, lookup_insert_eq))).
  unfold logger_info, modify. eexists. split; [reflexivity|].
  cbn [files dirs tmpfiles log trace set_files step add_log f_content].
  rewrite Hfiles3, Hdirs3, Htmp3, Hlog3, Htrace3.
  cbn [files dirs tmpfiles log trace set_files step add_log f_content w2].
  rewrite Hfiles1, Hdirs1, Htmp1, Hlog1, Htrace1.
  rewrite (atomic_write_ops_eq w0 w2) by first [exact Henv1 | exact Htmp1].
  split; [|split; [|split; [|split; [|split; [|split]]]]].
  - rewrite lookup_insert_ne by done. rewrite lookup_insert_ne by done.
    by rewrite lookup_insert_eq.
  - by rewrite lookup_insert_eq.
  - intros p Hp1 Hp2. by rewrite !lookup_insert_ne.
  - done.
  - done.
  - simpl. by rewrite !errors_info.
  - simpl. by rewrite <- !app_assoc.
Qed.

Lemma create_mobile_setup_script_writes_witness :
  let w := repo_world no_fault noon 0 in
  ∃ w', create_mobile_setup_script example_repo w = (Ok tt, w')
        ∧ files w' !! (example_repo // "mobile_setup.sh")
          = Some (File setup_script_content mode_755)
        ∧ files w' !! (example_repo // "mobile_server.py")
          = Some (File mobile_server_content mode_755)
        ∧ (∀ p, p ≠ example_repo // "mobile_setup.sh" →
                p ≠ example_repo // "mobile_server.py" →
                files w' !! p = files w !! p)
        ∧ dirs w' = dirs w
        ∧ tmpfiles w' = tmpfiles w
        ∧ errors (log w') = errors (log w)
        ∧ trace w'
          = trace w
            ++ atomic_write_ops w (example_repo // "mobile_setup.sh") setup_script_content
            ++ [OpChmod (example_repo // "mobile_setup.sh")]
            ++ atomic_write_ops w (example_repo // "mobile_server.py")
                 mobile_server_content
            ++ [OpChmod (example_repo // "mobile_server.py")].
Proof.
  intros w. apply (create_mobile_setup_script_writes example_repo w).
  - intros t o. reflexivity.
  - vm_compute. reflexivity.
  - vm_compute. reflexivity.
  - vm_compute. reflexivity.
Defined.

Lemma mkdir_then_write dir name content w :
  no_faults w → dir ≠ [] →
  (∀ q, q ∈ prefixes dir → files w !! q = None) →
  dir ++ [name] ∉ dirs w →
  ∃ w', (mkdir_parents_exist_ok dir ;; atomic_write (dir ++ [name]) content) w
        = (Ok tt, w')
        ∧ files w' = <[dir ++ [name] := File content mode_600]> (files w)
        ∧ dirs w' = dirs w ∪ list_to_set (prefixes dir)
        ∧ tmpfiles w' = tmpfiles w
        ∧ env w' = env w
        ∧ log w' = log w.
Proof.
  intros Hnf Hdir Hfree Hnd.
  rewrite (bind_ok _ _ _ _ _ (mkdir_ok dir w Hnf Hdir Hfree)).
  set (w1 := set_dirs _ _).
  destruct (atomic_write_ok (dir ++ [name]) content w1)
    as (w2 & Hrun & Hfiles & Hdirs & Htmp & Henv & Hlog & _).
  { by apply (no_faults_env w). }
  { rewrite parent_snoc. by eapply is_dir_union, prefixes_self. }
  { apply is_dir_false; [by destruct dir|]. unfold w1; simpl.
    apply not_elem_of_union. split; [done|].
    rewrite elem_of_list_to_set. apply not_prefix_longer.
    rewrite length_app. simpl. lia. }
  exists w2. by rewrite Hrun, Hfiles, Hdirs, Htmp, Henv, Hlog.
Qed.

Lemma sibling_not_prefix (repo : path) c c' q :
  c ≠ c' → q ∈ prefixes (repo ++ [c]) → q ≠ repo ++ [c'].
Proof.
  intros Hc [_ Hpre]%elem_of_prefixes ->.
  apply prefix_length_eq in Hpre; [|by rewrite !length_app].
  by apply app_inj_tail in Hpre as [_ ?].
Qed.

(** X9.  [create_mobile_requirements], when nothing fails, the repository
    directory exists and nothing is in the way: [requirements.txt] and
    [docs/mobile_setup.md] are in place with their texts, the [docs]
    directory is made if it was missing, nothing else is changed and no
    error is logged. *)
Theorem create_mobile_requirements_writes repo w :
  no_faults w →
  is_dir w repo = true →
  is_dir w (repo // "requirements.txt") = false →
  (∀ q, q ∈ prefixes (repo // "docs") → files w !! q = None) →
  (repo // "docs" // "mobile_setup.md") ∉ dirs w →
  ∃ w', create_mobile_requirements repo w = (Ok tt, w')
        ∧ files w' !! (repo // "requirements.txt")
          = Some (File requirements_content mode_600)
        ∧ files w' !! (repo // "docs" // "mobile_setup.md")
          = Some (File mobile_docs_content mode_600)
        ∧ (∀ p, p ≠ repo // "requirements.txt" →
                p ≠ repo // "docs" // "mobile_setup.md" →
                files w' !! p = files w !! p)
        ∧ dirs w' = dirs w ∪ list_to_set (prefixes (repo // "docs"))
        ∧ tmpfiles w' = tmpfiles w
        ∧ errors (log w') = errors (log w).
Proof.
  change (repo // "requirements.txt") with (repo ++ ["requirements.txt"]).
  change (repo // "docs" // "mobile_setup.md") with ((repo ++ ["docs"]) ++ ["mobile_setup.md"]).
  change (repo // "docs") with (repo ++ ["docs"]).
  intros Hnf Hrepo Hreq Hfree Hnd.
  unfold create_mobile_requirements, create_mobile_requirements_try, try_except.
  change (repo // "requirements.txt") with (repo ++ ["requirements.txt"]).
  change (repo // "docs" // "mobile_setup.md") with ((repo ++ ["docs"]) ++ ["mobile_setup.md"]).
  rewrite parent_snoc.
  unfold bind at 1. unfold logger_info at 1, modify.
  set (w0 := add_log INFO _ w).
  destruct (atomic_write_ok (repo ++ ["requirements.txt"]) requirements_content w0)
    as (w1 & Hrun1 & Hfiles1 & Hdirs1 & Htmp1 & Henv1 & Hlog1 & _);
    [done | by rewrite parent_snoc | done |].
  rewrite (bind_ok _ _ _ _ _ Hrun1).
  destruct (mkdir_then_write (repo ++ ["docs"]) "mobile_setup.md" mobile_docs_content w1)
    as (w2 & Hrun2 & Hfiles2 & Hdirs2 & Htmp2 & Henv2 & Hlog2).
  { by apply (no_faults_env w0). }
  { by destruct repo. }
  { intros q Hq. rewrite Hfiles1, lookup_insert_ne; [by apply Hfree|].
    intros Heq. symmetry in Heq. revert Heq.
    by apply (sibling_not_prefix repo "docs" "requirements.txt"). }
  { by rewrite Hdirs1. }
  rewrite <- bind_assoc, (bind_ok _ _ _ _ _ Hrun2).
  unfold logger_info, modify. eexists. split; [reflexivity|].
  cbn [files dirs tmpfiles log add_log].
  rewrite Hfiles2, Hdirs2, Htmp2, Hlog2, Hfiles1, Hdirs1, Htmp1, Hlog1.
  assert ((repo ++ ["docs"]) ++ ["mobile_setup.md"] ≠ repo ++ ["requirements.txt"]) as Hne.
  { intros Heq. apply (f_equal length) in Heq. rewrite !length_app in Heq.
    simpl in Heq. lia. }
  split; [by rewrite lookup_insert_ne, lookup_insert_eq|].
  split; [by rewrite lookup_insert_eq|].
  split; [by intros p Hp1 Hp2; rewrite !lookup_insert_ne|].
  split; [done|]. split; [done|]. simpl. by rewrite !errors_info.
Qed.

Lemma create_mobile_requirements_writes_witness :
  let w := repo_world no_fault noon 0 in
  ∃ w', create_mobile_requirements example_repo w = (Ok tt, w')
        ∧ files w' !! (example_repo // "requirements.txt")
          = Some (File requirements_content mode_600)
        ∧ files w' !! (example_repo // "docs" // "mobile_setup.md")
          = Some (File mobile_docs_content mode_600)
        ∧ (∀ p, p ≠ example_repo // "requirements.txt" →
                p ≠ example_repo // "docs" // "mobile_setup.md" →
                files w' !! p = files w !! p)
        ∧ dirs w' = dirs w ∪ list_to_set (prefixes (example_repo // "docs"))
        ∧ tmpfiles w' = tmpfiles w
        ∧ errors (log w') = errors (log w).
Proof.
  intros w. apply (create_mobile_requirements_writes example_repo w).
  - intros t o. reflexivity.
  - vm_compute. reflexivity.
  - vm_compute. reflexivity.
  - intros q Hq. apply lookup_empty.
  - vm_compute. intros H. discriminate H.
Defined.

(** ** The dashboard artifacts *)

(** X10.  [create_mobile_dashboard_config], when nothing fails, the context
    has the eight port keys and nothing is in the way: the configuration
    file holds [json.dumps] of the dictionary built with the reading of the
    clock at the start of the method, the HTML template is in place, the
    [config] and [templates] directories are made if missing, nothing else
    is changed and no error is logged. *)
Theorem create_mobile_dashboard_config_writes cfg repo j w :
  no_faults w →
  dashboard_config_at cfg (clock (env w) (tick w)) = Ok j →
  (∀ q, q ∈ prefixes (repo // "config") → files w !! q = None) →
  (∀ q, q ∈ prefixes (repo // "templates") → files w !! q = None) →
  dashboard_config_path repo ∉ dirs w →
  dashboard_template_path repo ∉ dirs w →
  ∃ w', create_mobile_dashboard_config cfg repo w = (Ok tt, w')
        ∧ files w' !! dashboard_config_path repo = Some (File (json_dumps j) mode_600)
        ∧ files w' !! dashboard_template_path repo
          = Some (File dashboard_template mode_600)
        ∧ (∀ p, p ≠ dashboard_config_path repo → p ≠ dashboard_template_path repo →
                files w' !! p = files w !! p)
        ∧ dirs w' = dirs w ∪ list_to_set (prefixes (repo // "config"))
                           ∪ list_to_set (prefixes (repo // "templates"))
        ∧ tmpfiles w' = tmpfiles w
        ∧ errors (log w') = errors (log w).
Proof.
  unfold dashboard_config_path, dashboard_template_path.
  change (repo // "config" // "mobile_dashboard_config.json")
    with ((repo ++ ["config"]) ++ ["mobile_dashboard_config.json"]).
  change (repo // "templates" // "mobile_dashboard.html")
    with ((repo ++ ["templates"]) ++ ["mobile_dashboard.html"]).
  change (repo // "config") with (repo ++ ["config"]).
  change (repo // "templates") with (repo ++ ["templates"]).
  intros Hnf Hj Hfree1 Hfree2 Hnd1 Hnd2.
  unfold create_mobile_dashboard_config, create_mobile_dashboard_config_try, try_except.
  change (repo // "config" // "mobile_dashboard_config.json")
    with ((repo ++ ["config"]) ++ ["mobile_dashboard_config.json"]).
  change (repo // "templates" // "mobile_dashboard.html")
    with ((repo ++ ["templates"]) ++ ["mobile_dashboard.html"]).
  rewrite !parent_snoc.
  unfold bind at 1. unfold logger_info at 1, modify.
  set (w0 := add_log INFO _ w).
  unfold bind at 1. rewrite dashboard_config_reading.
  change (clock (env w0) (tick w0)) with (clock (env w) (tick w)). rewrite Hj.
  change (atomic_write_with ((repo ++ ["config"]) ++ ["mobile_dashboard_config.json"])
            (json_dump j))
    with (atomic_write ((repo ++ ["config"]) ++ ["mobile_dashboard_config.json"])
            (json_dumps j)).
  destruct (mkdir_then_write (repo ++ ["config"]) "mobile_dashboard_config.json"
              (json_dumps j) (advance w0))
    as (w1 & Hrun1 & Hfiles1 & Hdirs1 & Htmp1 & Henv1 & Hlog1);
    [done | by destruct repo | done | done |].
  rewrite <- bind_assoc, (bind_ok _ _ _ _ _ Hrun1).
  destruct (mkdir_then_write (repo ++ ["templates"]) "mobile_dashboard.html"
              dashboard_template w1)
    as (w2 & Hrun2 & Hfiles2 & Hdirs2 & Htmp2 & Henv2 & Hlog2).
  { by apply (no_faults_env w). }
  { by destruct repo. }
  { intros q Hq. rewrite Hfiles1, lookup_insert_ne; [by apply Hfree2|].
    intros Heq. symmetry in Heq. revert Heq. by eapply snoc_ne_prefix. }
  { rewrite Hdirs1. apply not_elem_of_union. split; [done|].
    rewrite elem_of_list_to_set. intros Hq. by eapply snoc_ne_prefix. }
  rewrite <- bind_assoc, (bind_ok _ _ _ _ _ Hrun2).
  unfold logger_info, modify. eexists. split; [reflexivity|].
  cbn [files dirs tmpfiles log add_log].
  rewrite Hfiles2, Hdirs2, Htmp2, Hlog2, Hfiles1, Hdirs1, Htmp1, Hlog1.
  assert ((repo ++ ["templates"]) ++ ["mobile_dashboard.html"]
          ≠ (repo ++ ["config"]) ++ ["mobile_dashboard_config.json"]) as Hne
    by (by intros [_ ?]%app_inj_tail).
  split; [by rewrite lookup_insert_ne, lookup_insert_eq|].
  split; [by rewrite lookup_insert_eq|].
  split; [by intros p Hp1 Hp2; rewrite !lookup_insert_ne|].
  split; [done|]. split; [done|]. simpl. by rewrite !errors_info.
Qed.

Lemma create_mobile_dashboard_config_writes_witness :
  let w := repo_world no_fault noon 0 in
  ∃ j, dashboard_config_at CONFIG "2024-01-01T12:00:00" = Ok j
  ∧ ∃ w', create_mobile_dashboard_config CONFIG example_repo w = (Ok tt, w')
        ∧ files w' !! dashboard_config_path example_repo
          = Some (File (json_dumps j) mode_600)
        ∧ files w' !! dashboard_template_path example_repo
          = Some (File dashboard_template mode_600)
        ∧ (∀ p, p ≠ dashboard_config_path example_repo →
                p ≠ dashboard_template_path example_repo →
                files w' !! p = files w !! p)
        ∧ dirs w' = dirs w ∪ list_to_set (prefixes (example_repo // "config"))
                           ∪ list_to_set (prefixes (example_repo // "templates"))
        ∧ tmpfiles w' = tmpfiles w
        ∧ errors (log w') = errors (log w).
Proof.
  intros w.
  destruct (dashboard_config_at CONFIG "2024-01-01T12:00:00") as [j|e] eqn:Hj;
    [|by vm_compute in Hj].
  exists j. split; [done|].
  apply (create_mobile_dashboard_config_writes CONFIG example_repo j w).
  - intros t o. reflexivity.
  - exact Hj.
  - intros q Hq. apply lookup_empty.
  - intros q Hq. apply lookup_empty.
  - vm_compute. intros H. discriminate H.
  - vm_compute. intros H. discriminate H.
Defined.

(** ** The order of the entries of a directory spec *)

Lemma for_each_tree repo spec w :
  Forall (fun e => simple_name e.1 = true) spec →
  no_faults w → expandable spec repo w →
  ∃ w', for_each spec (expand_entry repo) w = (Ok tt, w')
        ∧ (dirs w', files w') = foldl (entry_tree repo) (dirs w, files w) spec
        ∧ tmpfiles w' = tmpfiles w
        ∧ log w' = log w.
Proof.
  revert w. induction spec as [|e rest IH]; intros w Hsimple Hnf Hexp.
  - by exists w.
  - apply Forall_cons in Hsimple as [Hs Hsimple].
    destruct (Hexp e) as [Hfree Hreadme]; [by left|].
    destruct (expand_entry_in_place repo e w Hs Hnf Hfree Hreadme)
      as (w1 & Hrun & Hnf1 & Hlog1 & Htmp1 & _ & _ & Hexp1).
    destruct (simple_entry repo e Hs) as (c & Hd & Hc).
    destruct e as [d desc]. cbn [fst snd] in *.
    rewrite Hd, path_div_readme in *.
    destruct (expand_entry_ok repo d desc c w Hd Hnf Hfree Hreadme)
      as (w1' & Hrun' & Hdirs & Hfiles & _).
    assert (w1' = w1) as -> by congruence.
    destruct (IH w1 Hsimple Hnf1) as (w' & Hrest & Htree & Htmp' & Hlog').
    { apply Hexp1; [|done]. intros e' He'. apply Hexp. by right. }
    exists w'. split; [simpl; by rewrite (bind_ok _ _ _ _ _ Hrun)|].
    split; [|split; congruence].
    rewrite Htree. simpl. f_equal. unfold entry_tree. cbn [fst snd].
    rewrite Hd, path_div_readme, path_div_gitkeep. by rewrite Hfiles, Hdirs.
Qed.

Lemma touched_explicit (D' D : gset path) (X F : gmap path file) gk :
  (gk ∈ D' ↔ gk ∈ D) → X !! gk = F !! gk →
  touched D' X gk
  = if bool_decide (gk ∈ D) || bool_decide (is_Some (F !! gk)) then X
    else <[gk := File "" mode_644]> X.
Proof.
  intros HD HX. unfold touched. rewrite HX.
  by rewrite (bool_decide_ext _ _ HD).
Qed.

Lemma gitkeep_inj (repo : path) c c' :
  (repo ++ [c]) ++ [".gitkeep"] = (repo ++ [c']) ++ [".gitkeep"] → c = c'.
Proof. intros [H _]%app_inj_tail. by apply app_inj_tail in H as [_ ?]. Qed.

Lemma gitkeep_not_made (repo : path) (c c' : string) (D : gset path) :
  (repo ++ [c]) ++ [".gitkeep"] ∈ D ∪ list_to_set (prefixes (repo ++ [c']))
  ↔ (repo ++ [c]) ++ [".gitkeep"] ∈ D.
Proof.
  rewrite elem_of_union, elem_of_list_to_set. split; [|by left].
  intros [?|Hq]; [done|]. by eapply snoc_ne_prefix in Hq.
Qed.

Lemma entry_tree_comm repo e1 e2 T :
  simple_name e1.1 = true → simple_name e2.1 = true →
  components e1.1 ≠ components e2.1 →
  entry_tree repo (entry_tree repo T e1) e2 = entry_tree repo (entry_tree repo T e2) e1.
Proof.
  intros Hs1 Hs2 Hne.
  destruct (simple_entry repo e1 Hs1) as (c1 & Hd1 & Hc1).
  destruct (simple_entry repo e2 Hs2) as (c2 & Hd2 & Hc2).
  assert (c1 ≠ c2) as Hc by congruence.
  destruct T as [D F]. destruct e1 as [d1 desc1], e2 as [d2 desc2].
  unfold entry_tree. cbn [fst snd] in *.
  rewrite Hd1, Hd2, !path_div_readme, !path_div_gitkeep.
  set (rd1 := (repo ++ [c1]) ++ ["README.md"]).
  set (rd2 := (repo ++ [c2]) ++ ["README.md"]).
  set (gk1 := (repo ++ [c1]) ++ [".gitkeep"]).
  set (gk2 := (repo ++ [c2]) ++ [".gitkeep"]).
  set (v1 := File (directory_readme d1 desc1) mode_600).
  set (v2 := File (directory_readme d2 desc2) mode_600).
  assert (rd1 ≠ rd2) as Hrd by (intros ?%readme_inj; done).
  assert (gk1 ≠ gk2) as Hgk by (intros ?%gitkeep_inj; done).
  assert (rd1 ≠ gk1) as H11 by apply readme_ne_gitkeep.
  assert (rd1 ≠ gk2) as H12 by apply readme_ne_gitkeep.
  assert (rd2 ≠ gk1) as H21 by apply readme_ne_gitkeep.
  assert (rd2 ≠ gk2) as H22 by apply readme_ne_gitkeep.
  f_equal.
  { rewrite <- !(assoc_L (∪)). f_equal. apply (comm_L (∪)). }
  rewrite (touched_explicit _ D (<[rd1:=v1]> F) F gk1);
    [| apply gitkeep_not_made | by rewrite lookup_insert_ne].
  rewrite (touched_explicit _ D (<[rd2:=v2]> F) F gk2);
    [| apply gitkeep_not_made | by rewrite lookup_insert_ne].
  destruct (bool_decide (gk1 ∈ D) || bool_decide (is_Some (F !! gk1))) eqn:E1;
    destruct (bool_decide (gk2 ∈ D) || bool_decide (is_Some (F !! gk2))) eqn:E2.
  all: rewrite (touched_explicit _ D _ F gk2);
    [| unfold gk2; rewrite gitkeep_not_made; apply gitkeep_not_made
     | by rewrite ?lookup_insert_ne ].
  all: rewrite (touched_explicit _ D _ F gk1);
    [| unfold gk1; rewrite gitkeep_not_made; apply gitkeep_not_made
     | by rewrite ?lookup_insert_ne ].
  all: rewrite E1, E2.
  all: apply map_eq; intros p;
    (destruct (decide (p = rd1)) as [->|?]; [by simplify_map_eq|]);
    (destruct (decide (p = rd2)) as [->|?]; [by simplify_map_eq|]);
    (destruct (decide (p = gk1)) as [->|?]; [by simplify_map_eq|]);
    (destruct (decide (p = gk2)) as [->|?]; [by simplify_map_eq|]);
    by simplify_map_eq.
Qed.

Lemma simple_spec_perm spec spec' : spec ≡ₚ spec' → simple_spec spec → simple_spec spec'.
Proof.
  intros Hperm [Hs Hnd]. split.
  - by rewrite <- Hperm.
  - by rewrite <- Hperm.
Qed.

Lemma foldl_entry_tree_perm repo spec spec' T :
  spec ≡ₚ spec' → simple_spec spec →
  foldl (entry_tree repo) T spec = foldl (entry_tree repo) T spec'.
Proof.
  intros Hperm. revert T.
  induction Hperm as [|x l l' Hperm IH|x y l|l1 l2 l3 H12 IH12 H23 IH23];
    intros T Hspec.
  - done.
  - simpl. apply IH. destruct Hspec as [Hs Hnd]. split.
    + by apply Forall_cons in Hs as [_ ?].
    + simpl in Hnd. by apply NoDup_cons in Hnd as [_ ?].
  - simpl. f_equal. destruct Hspec as [Hs Hnd].
    apply Forall_cons in Hs as [Hy Hs]. apply Forall_cons in Hs as [Hx _].
    simpl in Hnd. apply NoDup_cons in Hnd as [Hnotin _].
    apply not_elem_of_cons in Hnotin as [Hne _].
    by apply entry_tree_comm.
  - rewrite IH12 by done. apply IH23. by apply (simple_spec_perm l1).
Qed.

(** X11.  The order of the entries does not matter.  For a spec of distinct
    one-component names, in a world where nothing fails and the expansion
    can proceed, expanding any permutation of the spec gives the same
    directories and the same files. *)
Theorem expansion_order_independent spec spec' repo w :
  spec ≡ₚ spec' →
  simple_spec spec →
  no_faults w →
  expandable spec repo w →
  dirs (expand spec' repo w).2 = dirs (expand spec repo w).2
  ∧ files (expand spec' repo w).2 = files (expand spec repo w).2
  ∧ tmpfiles (expand spec' repo w).2 = tmpfiles (expand spec repo w).2.
Proof.
  intros Hperm Hspec Hnf Hexp.
  set (w0 := add_log INFO "Creating recommended subdirectory structure" w).
  assert (∀ l, l ≡ₚ spec →
            ∃ w1, expand l repo w
                  = (Ok tt, add_log INFO "Created recommended subdirectory structure" w1)
                  ∧ (dirs w1, files w1) = foldl (entry_tree repo) (dirs w, files w) l
                  ∧ tmpfiles w1 = tmpfiles w) as Hrun.
  { intros l Hl.
    destruct (for_each_tree repo l w0) as (w1 & Hrun & Htree & Htmp & _).
    - apply (simple_spec_perm spec); [done | done].
    - done.
    - intros e He. apply Hexp. by rewrite <- Hl.
    - exists w1. split; [|done].
      unfold expand, expand_try, try_except. unfold bind at 1.
      unfold logger_info at 1, modify. fold w0.
      by rewrite (bind_ok _ _ _ _ _ Hrun). }
  destruct (Hrun spec) as (w1 & -> & Htree1 & Htmp1); [done|].
  destruct (Hrun spec') as (w2 & -> & Htree2 & Htmp2); [done|].
  rewrite <- (foldl_entry_tree_perm repo spec spec') in Htree2 by done.
  rewrite <- Htree1 in Htree2. simpl. split; [|split]; congruence.
Qed.

Lemma expansion_order_independent_witness :
  dirs (expand (reverse subdirectories) example_repo quiet_world).2
  = dirs (expand subdirectories example_repo quiet_world).2
  ∧ files (expand (reverse subdirectories) example_repo quiet_world).2
    = files (expand subdirectories example_repo quiet_world).2
  ∧ tmpfiles (expand (reverse subdirectories) example_repo quiet_world).2
    = tmpfiles (expand subdirectories example_repo quiet_world).2.
Proof.
  apply (expansion_order_independent subdirectories (reverse subdirectories)
           example_repo quiet_world).
  - symmetry. apply reverse_Permutation.
  - split; [repeat constructor | apply (bool_decide_unpack _); by vm_compute].
  - intros t o. reflexivity.
  - intros e He. split.
    + intros q Hq. apply lookup_empty.
    + apply not_elem_of_empty.
Defined.

(** ** [create_main_github_repository] *)

Lemma commands_app t t' : commands (t ++ t') = commands t ++ commands t'.
Proof. unfold commands. apply omap_app. Qed.

Lemma commands_fs_only t : forallb is_fs_op t = true → commands t = [].
Proof.
  induction t as [|o t IH]; [done|]. simpl. intros [Ho Ht]%andb_true_iff.
  unfold commands in *. simpl. destruct o; try done; by apply IH.
Qed.

Lemma commands_prefix t t' : t `prefix_of` t' → commands t `prefix_of` commands t'.
Proof. intros [k ->]. rewrite commands_app. by eexists. Qed.

(** X12.  What the result of [create_main_github_repository] tells.  It
    returns [True] only when the four git commands, init, add, commit and
    remote add, were all run, in this order; otherwise it returns [False],
    the last line of the log is its error message, and the git commands that
    were run are the first ones of the four. *)
Theorem create_main_github_repository_result self cfg w :
  let r := create_main_github_repository self cfg w in
  (r.1 = Ok true
   ∧ commands (trace r.2) = commands (trace w) ++ bootstrap_commands self)
  ∨ (r.1 = Ok false
     ∧ (∃ e, last (log r.2)
             = Some (ERROR, "Error creating main GitHub repository: " +:+ exc_str e))
     ∧ ∃ k, commands (trace r.2) = commands (trace w) ++ k
            ∧ k `prefix_of` bootstrap_commands self).
Proof.
  simpl. unfold create_main_github_repository, try_except.
  rewrite create_main_github_repository_try_phases.
  pose proof (preamble_trace self w) as Hpre.
  destruct (preamble self w) as [[[]|e] w1] eqn:Hp.
  - destruct Hpre as [Htr1 Henv1].
    rewrite (bind_ok _ _ _ _ _ Hp).
    pose proof (returns_unit _ w1 (generators_returns self cfg)) as Hgen.
    destruct (fs_only_generators self cfg w1) as [Henv2 (mid & Hmid & Hfs)].
    rewrite (bind_ok _ _ _ _ _ Hgen).
    pose proof (vcs_tail_trace self (generators self cfg w1).2) as Htail.
    destruct (vcs_tail self (generators self cfg w1).2) as [[b|e] w3].
    + destruct Htail as [-> Htr3]. left. split; [done|]. simpl.
      rewrite Htr3, Hmid, Htr1, !commands_app, (commands_fs_only mid) by done.
      by rewrite <- !app_assoc.
    + destruct Htail as (post & Htr3 & Hpost & _). right. simpl.
      split; [done|]. split.
      * exists e. by rewrite last_snoc.
      * exists ([git_init] ++ commands post).
        rewrite Htr3, Hmid, Htr1, !commands_app, (commands_fs_only mid) by done.
        split; [by rewrite <- !app_assoc|].
        change (bootstrap_commands self) with ([git_init] ++ commands (vcs_ops self)).
        apply prefix_app, (commands_prefix _ _ Hpost).
  - destruct Hpre as (pre & Htr1 & Hprefix & _ & _). right.
    rewrite (bind_raise _ _ _ _ _ Hp). simpl. split; [done|]. split.
    + exists e. by rewrite last_snoc.
    + exists (commands pre). rewrite Htr1, commands_app. split; [done|].
      change (bootstrap_commands self)
        with (commands (preamble_ops self)
              ++ [git_add; git_commit; git_remote_add (remote_url self)]).
      apply prefix_app_r, (commands_prefix _ _ Hprefix).
Qed.

(** X13.  When a regular file sits where the mobile directory should be,
    [mkdir] raises [FileExistsError]: the method returns [False], logs the
    error, runs no git command and leaves the files, the directories and the
    temporary directory as they were. *)
Theorem create_main_github_repository_blocked self cfg w :
  no_faults w →
  is_file w (mobile_dir self) = true →
  ∃ w', create_main_github_repository self cfg w = (Ok false, w')
        ∧ commands (trace w') = commands (trace w)
        ∧ files w' = files w ∧ dirs w' = dirs w ∧ tmpfiles w' = tmpfiles w
        ∧ errors (log w')
          = errors (log w) ++ ["Error creating main GitHub repository: "
                               +:+ exc_str FileExistsError].
Proof.
  intros Hnf Hfile.
  unfold create_main_github_repository, create_main_github_repository_try, try_except.
  unfold bind at 1. unfold logger_info at 1, modify.
  set (w0 := add_log INFO _ w).
  assert (mkdir_parents_exist_ok (mobile_dir self) w0
          = (Raise FileExistsError, step (OpMkdir (mobile_dir self)) w0)) as Hmk.
  { unfold mkdir_parents_exist_ok, attempt, perform, bind, get, modify, ret, raise.
    run. rewrite Hnf. run. norm_fs w. by rewrite Hfile. }
  rewrite (bind_raise _ _ _ _ _ Hmk).
  unfold logger_error, modify, bind, ret. eexists. split; [reflexivity|].
  simpl. repeat split; try done.
  - unfold commands. rewrite omap_app. simpl. by rewrite app_nil_r.
  - by rewrite errors_error, errors_info.
Qed.

Lemma create_main_github_repository_blocked_witness :
  ∃ w', create_main_github_repository example_manager CONFIG blocked_world = (Ok false, w')
        ∧ commands (trace w') = commands (trace blocked_world)
        ∧ files w' = files blocked_world ∧ dirs w' = dirs blocked_world
        ∧ tmpfiles w' = tmpfiles blocked_world
        ∧ errors (log w')
          = errors (log blocked_world) ++ ["Error creating main GitHub repository: "
                                           +:+ exc_str FileExistsError].
Proof.
  apply (create_main_github_repository_blocked example_manager CONFIG blocked_world).
  - intros t o. reflexivity.
  - vm_compute. reflexivity.
Defined.

(** ** [execute_mobile_access_setup] *)

(** X14.  [execute_mobile_access_setup] never raises and returns one of two
    records.  When the context has the eight keys the report reads, it
    returns the full report (six flags true, the three next steps, no
    [status] member); when one of them is missing it returns the error
    record, whatever the bootstrap before it did. *)
Theorem execute_mobile_access_setup_returns self cfg w :
  ∃ r, (execute_mobile_access_setup self cfg w).1 = Ok r
       ∧ if forallb (has_key cfg) report_keys
         then report_flags r = replicate 6 (Some (JBool true))
              ∧ json_get "next_steps" r = Some next_steps
              ∧ json_get "status" r = None
         else ∃ timestamp e, r = error_report timestamp e.
Proof.
  unfold execute_mobile_access_setup.
  unfold bind at 1. unfold logger_info at 1, modify.
  set (w0 := add_log INFO _ w). unfold try_except.
  destruct (returns_ok _ w0 (create_main_github_repository_returns self cfg))
    as (b & Hb).
  rewrite (bind_ok _ _ _ _ _ Hb).
  set (w1 := (create_main_github_repository self cfg w0).2).
  destruct (returns_ok _ w1 (generate_mobile_setup_instructions_returns self cfg))
    as (i & Hi).
  rewrite (bind_ok _ _ _ _ _ Hi).
  set (w2 := (generate_mobile_setup_instructions self cfg w1).2).
  unfold generate_mobile_completion_report, report_keys, has_key.
  cbn [forallb fst snd].
  unfold bind, lift, datetime_now_isoformat, ret, logger_info, logger_error, modify.
  destruct (cfg_get cfg "URLS" "MOBILE_DASHBOARD"); [|by eexists; split; [|eexists _, _]].
  destruct (cfg_get cfg "URLS" "API_ENDPOINTS"); [|by eexists; split; [|eexists _, _]].
  destruct (cfg_get cfg "URLS" "MONITORING"); [|by eexists; split; [|eexists _, _]].
  destruct (cfg_get cfg "URLS" "RESEARCH"); [|by eexists; split; [|eexists _, _]].
  destruct (cfg_get cfg "URLS" "GITHUB"); [|by eexists; split; [|eexists _, _]].
  destruct (cfg_get cfg "PORTS" "START_PORT"); [|by eexists; split; [|eexists _, _]].
  destruct (cfg_get cfg "PORTS" "END_PORT"); [|by eexists; split; [|eexists _, _]].
  destruct (cfg_get cfg "PORTS" "TOTAL_PORTS"); [|by eexists; split; [|eexists _, _]].
  eexists. split; [reflexivity|]. by vm_compute.
Qed.

(** ** What the generators never do *)

Lemma fs_only_generate_mobile_setup_instructions self cfg :
  preserves fs_only (generate_mobile_setup_instructions self cfg).
Proof.
  unfold generate_mobile_setup_instructions, generate_mobile_setup_instructions_try.
  solve_preserves.
Qed.

Lemma fs_only_commands w w' :
  fs_only w w' → commands (trace w') = commands (trace w) ∧ env w' = env w.
Proof.
  intros [Henv (t & Ht & Hfs)]. split; [|done].
  by rewrite Ht, commands_app, (commands_fs_only t), app_nil_r.
Qed.

(** X15.  No generator method runs a subprocess or changes the environment:
    whatever happens inside it, the commands of the trace are those that
    were there before.  The same holds for
    [generate_mobile_setup_instructions]. *)
Theorem generators_run_no_subprocess self cfg repo w :
  Forall (fun m : M unit => commands (trace (m w).2) = commands (trace w)
                            ∧ env (m w).2 = env w)
    [ create_recommended_subdirectory_structure repo;
      create_mobile_readme self cfg repo;
      create_mobile_requirements repo;
      create_mobile_setup_script repo;
      create_mobile_dashboard_config cfg repo ]
  ∧ commands (trace (generate_mobile_setup_instructions self cfg w).2)
    = commands (trace w)
  ∧ env (generate_mobile_setup_instructions self cfg w).2 = env w.
Proof.
  split.
  - repeat apply Forall_cons_2; [..|apply Forall_nil_2]; apply fs_only_commands.
    + apply fs_only_create_recommended_subdirectory_structure.
    + apply fs_only_create_mobile_readme.
    + apply fs_only_create_mobile_requirements.
    + apply fs_only_create_mobile_setup_script.
    + apply fs_only_create_mobile_dashboard_config.
  - apply fs_only_commands, fs_only_generate_mobile_setup_instructions.
Qed.

(** ** The clean-up of the write block *)

(** X16.  When the write fails and the unlink of the clean-up fails too, the
    exception of the unlink is the one that propagates (the [raise] of the
    handler is not reached), and the temporary file is left behind; the
    target and every other path are untouched. *)
Theorem atomic_write_cleanup_failure target content w e e' :
  let n := fresh (dom (tmpfiles w)) in
  succeeds_at w 0 OpTempCreate →
  fails_at w 1 (OpTempWrite n content) e →
  fails_at w 2 (OpUnlinkTemp n) e' →
  ∃ w', atomic_write target content w = (Raise e', w')
        ∧ files w' = files w
        ∧ dirs w' = dirs w
        ∧ is_Some (tmpfiles w' !! n).
Proof.
  unfold succeeds_at, fails_at. simpl.
  set (n := fresh (dom (tmpfiles w))).
  intros Hcreate (f & Hw & He) (f' & Hu & He').
  unfold atomic_write, atomic_write_with, NamedTemporaryFile, temp_write, temp_close,
    os_path_exists_tmp, os_unlink_tmp, attempt, perform, try_except, bind, get,
    modify, ret, raise, append_tmp.
  cbn -[fresh shutil_move_tmp]. rewrite Hcreate. cbn -[fresh shutil_move_tmp]. fold n.
  rewrite Hw. cbn -[fresh shutil_move_tmp]. rewrite tmp_exists.
  cbn -[fresh shutil_move_tmp]. rewrite Hu. cbn -[fresh shutil_move_tmp].
  eexists. split; [by rewrite He'|]. simpl. split; [done|]. split; [done|].
  rewrite tmp_lookup. by eexists.
Qed.

Lemma atomic_write_cleanup_failure_witness :
  let w := world_with_readme write_and_unlink_fail 0 in
  ∃ w', atomic_write (example_repo ++ ["README.md"]) "new content" w
        = (Raise (OSError "13"), w')
        ∧ files w' = files w
        ∧ dirs w' = dirs w
        ∧ is_Some (tmpfiles w' !! fresh (dom (tmpfiles w))).
Proof.
  intros w.
  apply (atomic_write_cleanup_failure (example_repo ++ ["README.md"]) "new content" w
           (OSError "28") (OSError "13")).
  - reflexivity.
  - eexists. split; reflexivity.
  - eexists. split; reflexivity.
Defined.

(** X17.  When the write of the content into the temporary file fails with
    an exception, be it in [temp_file.write] (after any part of the content
    was written) or in [temp_file.close], and the unlink of the clean-up
    succeeds, the block removes the temporary file and re-raises the
    exception; no operation other than those on the temporary file was
    attempted, so the target path was never touched: the files, the
    directories and the temporary files are what they were before the call.
    The block with [json.dump] is the same block, see
    [json_dump_is_temp_write]. *)
Theorem atomic_write_failure_leaves_target target content w e :
  content_write_fails w content e →
  ∃ w', atomic_write target content w = (Raise e, w')
        ∧ files w' = files w
        ∧ dirs w' = dirs w
        ∧ tmpfiles w' = tmpfiles w
        ∧ ∃ t, trace w' = trace w ++ t ∧ forallb is_temp_op t = true.
Proof.
  unfold content_write_fails, succeeds_at, fails_at. simpl.
  pose proof (fresh_tmp_unused w) as Hfresh.
  set (n := fresh (dom (tmpfiles w))) in *.
  intros [Hcreate Hfail].
  unfold atomic_write, atomic_write_with, NamedTemporaryFile, temp_write, temp_close,
    os_path_exists_tmp, os_unlink_tmp, attempt, perform, try_except, bind, get,
    modify, ret, raise, append_tmp.
  cbn -[fresh shutil_move_tmp]. rewrite Hcreate. cbn -[fresh shutil_move_tmp]. fold n.
  destruct Hfail as [[(f & Hw & He) Hunlink] | (Hw & (f & Hc & He) & Hunlink)].
  - rewrite Hw. cbn -[fresh shutil_move_tmp]. rewrite tmp_exists.
    cbn -[fresh shutil_move_tmp]. rewrite Hunlink.
    cbn -[fresh shutil_move_tmp]. rewrite tmp_exists.
    cbn -[fresh shutil_move_tmp]. rewrite tmp_removed by done.
    eexists. split; [by rewrite He|]. simpl. repeat split; try done.
    exists [OpTempCreate; OpTempWrite n content; OpUnlinkTemp n].
    by rewrite <- !app_assoc.
  - rewrite Hw. cbn -[fresh shutil_move_tmp]. rewrite Hc.
    cbn -[fresh shutil_move_tmp]. rewrite tmp_exists.
    cbn -[fresh shutil_move_tmp]. rewrite Hunlink.
    cbn -[fresh shutil_move_tmp]. rewrite tmp_exists.
    cbn -[fresh shutil_move_tmp]. rewrite tmp_removed by done.
    eexists. split; [by rewrite He|]. simpl. repeat split; try done.
    exists [OpTempCreate; OpTempWrite n content; OpTempClose n; OpUnlinkTemp n].
    by rewrite <- !app_assoc.
Qed.

(** The disk fills up after two characters, over a previous version of the
    file: the previous version is still there. *)
Lemma atomic_write_failure_leaves_target_witness :
  ∃ w', atomic_write (example_repo ++ ["README.md"]) "new content"
          (world_with_readme disk_fills_midway 0) = (Raise (OSError "28"), w')
        ∧ files w' = files (world_with_readme disk_fills_midway 0)
        ∧ dirs w' = dirs (world_with_readme disk_fills_midway 0)
        ∧ tmpfiles w' = tmpfiles (world_with_readme disk_fills_midway 0)
        ∧ ∃ t, trace w' = trace (world_with_readme disk_fills_midway 0) ++ t
               ∧ forallb is_temp_op t = true.
Proof.
  apply atomic_write_failure_leaves_target.
  split; [reflexivity|]. left. split; [|reflexivity].
  eexists. split; reflexivity.
Defined.
